(** * Snowmass monitor: visual change detection, throttle and orchestration

    A shallow embedding of [api/snowmass-monitor.js] and the properties its
    specification states about it.

    - [Num]: JavaScript numbers, as IEEE 754 binary64 values
      ([SpecFloat], round to nearest even), and [toFixed].
    - [VisualDiff]: [performVisualComparison], the pixel classifier.
    - [TextConfidence]: the confidence score of
      [validateMonthWithTextExtraction].
    - [Monitor]: the effectful part ([compareWithBaseline], [saveBaseline],
      [checkNotificationLimit], [logNotification], [sendWebhookNotification],
      [captureMonthWithRetry], [runMonitor], [handler]) in a state and
      exception monad over the files, the clock, the console and the webhook
      endpoint.

    What the model takes for granted: [fs.mkdir] and [fs.writeFile] succeed;
    the clock does not move during one call; the local time zone is at a
    fixed offset from UTC; counters and lengths stay below [2^53]; the
    browser ([chromium.launch], [doLogin], [captureMonth], [browser.close])
    and [getMonthsToCheck] are parameters; [performance] metrics, timestamps
    of answers and the console lines that only print numbers are left
    out. *)

From Stdlib Require Import ZArith List Bool Lia QArith Qminmax.
From Stdlib Require Import Ascii String DecimalString.
From Stdlib Require Import Floats.SpecFloat.
From stdpp Require Import gmap strings list.

Local Open Scope Z_scope.

(** ** JavaScript numbers *)

Module Num.

Definition prec : Z := 53.
Definition emax : Z := 1024.

(** A Number is a binary64 value; NaN carries no payload that the program
    could observe. *)
Definition number : Type := spec_float.

Definition NaN : number := S754_nan.

(** The Number of an integer (exact whenever [|z| < 2^53]). *)
Definition of_Z (z : Z) : number := binary_normalize prec emax z 0 false.

Definition add : number -> number -> number := SFadd prec emax.
Definition sub : number -> number -> number := SFsub prec emax.
Definition mul : number -> number -> number := SFmul prec emax.
Definition div : number -> number -> number := SFdiv prec emax.
Definition sqrt : number -> number := SFsqrt prec emax.

(** [x < y] and [x > y]: false as soon as one side is NaN. *)
Definition lt (x y : number) : bool := SFltb x y.
Definition gt (x y : number) : bool := SFltb y x.

(** A decimal literal [n/d] denotes the Number nearest to its exact value,
    which is what the correctly rounded quotient of the two integers is. *)
Definition literal (n : Z) (d : positive) : number :=
  div (of_Z n) (of_Z (Zpos d)).

Definition is_nan (x : number) : bool :=
  match x with S754_nan => true | _ => false end.

Definition is_zero (x : number) : bool :=
  match x with S754_zero _ => true | _ => false end.

Definition is_negative_zero (x : number) : bool :=
  match x with S754_zero true => true | _ => false end.

(** [Math.max] and [Math.min] of two arguments: NaN is contagious and
    [-0] is smaller than [+0]. *)
Definition max (x y : number) : number :=
  if is_nan x || is_nan y then NaN
  else if lt x y then y
  else if lt y x then x
  else if is_zero x && is_zero y
       then (if is_negative_zero x then y else x)
       else x.

Definition min (x y : number) : number :=
  if is_nan x || is_nan y then NaN
  else if lt x y then x
  else if lt y x then y
  else if is_zero x && is_zero y
       then (if is_negative_zero x then x else y)
       else x.

(** The exact value of a finite Number. *)
Definition to_Q (x : number) : option Q :=
  match x with
  | S754_zero _ => Some 0%Q
  | S754_finite s m e =>
      let v := match e with
               | Zneg p => Qmake (Zpos m) (2 ^ p)%positive
               | _ => inject_Z (Zpos m * 2 ^ e)
               end in
      Some (if s then Qopp v else v)
  | _ => None
  end.

(** [all_from n f base]: [f] holds of the [n] integers from [base] on. *)
Fixpoint all_from (n : positive) (f : Z -> bool) (base : Z) : bool :=
  match n with
  | xH => f base
  | xO q => all_from q f base && all_from q f (base + Zpos q)
  | xI q =>
      f base && all_from q f (base + 1) && all_from q f (base + 1 + Zpos q)
  end.

(** The square root of [s] exceeds 30 exactly when [s] exceeds 900. *)
Definition sqrt_exceeds_30_check (s : Z) : bool :=
  Bool.eqb (gt (sqrt (of_Z s)) (of_Z 30)) (900 <? s).

(** *** [Number.prototype.toFixed(3)]

    The result is a string; its content is kept structured:
    - [FxNaN], [FxInfinity neg]: the texts [NaN], [Infinity], [-Infinity];
    - [FxDecimal neg n]: an optional minus sign, then the decimal digits
      of [n] (padded to four digits at least) with a point before the last
      three: the integer [n] is the one for which [n / 1000] is closest to
      [|x|], the larger one on a tie;
    - [FxLarge x]: for [|x| >= 10^21] the text is that of
      [Number::toString], which is not expanded here. *)
Inductive fixed_string : Type :=
| FxNaN
| FxInfinity (neg : bool)
| FxDecimal (neg : bool) (n : Z)
| FxLarge (x : number).

(** [round_half_up_scaled m e k] is the integer nearest to [m * 2^e * k],
    the larger one on a tie. *)
Definition round_half_up_scaled (m : positive) (e : Z) (k : Z) : Z :=
  match e with
  | Zneg p => (2 * k * Zpos m + 2 ^ Zpos p) / 2 ^ (Zpos p + 1)
  | _ => Zpos m * 2 ^ e * k
  end.

(** [at_least m e k]: [m * 2^e >= k], exactly. *)
Definition at_least (m : positive) (e : Z) (k : Z) : bool :=
  match e with
  | Zneg p => Z.leb (k * 2 ^ Zpos p) (Zpos m)
  | _ => Z.leb k (Zpos m * 2 ^ e)
  end.

Definition toFixed3 (x : number) : fixed_string :=
  match x with
  | S754_nan => FxNaN
  | S754_infinity s => FxInfinity s
  | S754_zero _ => FxDecimal false 0
  | S754_finite s m e =>
      if at_least m e (10 ^ 21) then FxLarge x
      else FxDecimal s (round_half_up_scaled m e 1000)
  end.

(** The text of a [toFixed(3)] result, where it is a decimal. *)
Fixpoint digits_of (fuel : nat) (n : Z) (acc : string) : string :=
  match fuel with
  | O => acc
  | S fuel' =>
      let d := String (Ascii.ascii_of_N (Z.to_N (48 + n mod 10))) acc in
      if Z.ltb n 10 then d else digits_of fuel' (n / 10) d
  end.

Definition decimal_text (n : Z) : string :=
  digits_of (S (Z.to_nat (Z.log2 n))) n EmptyString.

Definition fixed_text (f : fixed_string) : option string :=
  match f with
  | FxNaN => Some "NaN"%string
  | FxInfinity false => Some "Infinity"%string
  | FxInfinity true => Some "-Infinity"%string
  | FxDecimal neg n =>
      let int_part := decimal_text (n / 1000) in
      let frac := n mod 1000 in
      let frac_part :=
        String (Ascii.ascii_of_N (Z.to_N (48 + frac / 100)))
          (String (Ascii.ascii_of_N (Z.to_N (48 + (frac / 10) mod 10)))
             (String (Ascii.ascii_of_N (Z.to_N (48 + frac mod 10)))
                EmptyString)) in
      Some ((if neg then "-" else EmptyString) ++ int_part ++ "." ++ frac_part)%string
  | FxLarge _ => None
  end.

End Num.

(** ** The pixel classifier: [performVisualComparison] *)

Module VisualDiff.

(** A Node [Buffer]: a sequence of bytes. *)
Definition Buffer : Type := list Byte.byte.

(** [buf[i]] as an integer. The loop below only reads below [minLength];
    out of range the value is irrelevant (see [offsets_in_range]). *)
Definition byteAt (buf : Buffer) (i : nat) : Z :=
  match buf !! i with
  | Some b => Z.of_N (Byte.to_N b)
  | None => 0
  end.

(** The five counters of the loop. All of them stay integers far below
    [2^53], where Number arithmetic is exact: they are kept in [Z]. *)
Record counters : Type := mkCounters {
  c_totalPixels : Z;
  c_changedPixels : Z;
  c_availabilityIncrease : Z;
  c_dateHighlightChanges : Z;
  c_nonAvailabilityChanges : Z
}.

Definition counters0 : counters := mkCounters 0 0 0 0 0.

(** [Math.sqrt(Math.pow(dr, 2) + Math.pow(dg, 2) + Math.pow(db, 2))]: the
    squares and their sum are integers below [2^18], hence exact; the
    square root is the correctly rounded one. *)
Definition colorDiff (cR cG cB bR bG bB : Z) : Num.number :=
  Num.sqrt (Num.of_Z ((cR - bR) ^ 2 + (cG - bG) ^ 2 + (cB - bB) ^ 2)).

(** Date highlighting (blues, grays, whites). *)
Definition isDateHighlight (r g b : Z) : bool :=
  ((200 <? r) && (200 <? g) && (240 <? b))
  || ((150 <? r) && (170 <? g) && (200 <? b))
  || ((Z.abs (r - g) <? 20) && (Z.abs (g - b) <? 20) && (180 <? r)).

(** The two availability bands: light gray/beige, and light tan/beige. *)
Definition isAvailable (r g b : Z) : bool :=
  ((215 <=? r) && (r <=? 240)
   && (215 <=? g) && (g <=? 240)
   && (210 <=? b) && (b <=? 235)
   && (Z.abs (r - g) <? 15) && (Z.abs (g - b) <? 15))
  || ((210 <=? r) && (r <=? 235)
      && (205 <=? g) && (g <=? 230)
      && (190 <=? b) && (b <=? 220)
      && (b + 10 <? r)).

Definition isBackground (r g b : Z) : bool :=
  (240 <? r) && (240 <? g) && (240 <? b).

(** One pixel whose bytes are in range: the body of
    [if (i + 3 < minLength)]. *)
Definition comparePixel (cR cG cB bR bG bB : Z) (c : counters) : counters :=
  let c := mkCounters (c_totalPixels c + 1) (c_changedPixels c)
             (c_availabilityIncrease c) (c_dateHighlightChanges c)
             (c_nonAvailabilityChanges c) in
  if Num.gt (colorDiff cR cG cB bR bG bB) (Num.of_Z 30) then
    let isCurrentDateHighlight := isDateHighlight cR cG cB in
    let isBaselineDateHighlight := isDateHighlight bR bG bB in
    if isCurrentDateHighlight || isBaselineDateHighlight then
      (* dateHighlightChanges++; continue *)
      mkCounters (c_totalPixels c) (c_changedPixels c)
        (c_availabilityIncrease c) (c_dateHighlightChanges c + 1)
        (c_nonAvailabilityChanges c)
    else
      let c := mkCounters (c_totalPixels c) (c_changedPixels c + 1)
                 (c_availabilityIncrease c) (c_dateHighlightChanges c)
                 (c_nonAvailabilityChanges c) in
      let currentIsAvailable := isAvailable cR cG cB in
      let baselineIsAvailable := isAvailable bR bG bB in
      let baselineIsBackground := isBackground bR bG bB in
      if currentIsAvailable && negb baselineIsAvailable
         && negb baselineIsBackground then
        mkCounters (c_totalPixels c) (c_changedPixels c)
          (c_availabilityIncrease c + 1) (c_dateHighlightChanges c)
          (c_nonAvailabilityChanges c)
      else if negb currentIsAvailable && negb baselineIsAvailable then
        mkCounters (c_totalPixels c) (c_changedPixels c)
          (c_availabilityIncrease c) (c_dateHighlightChanges c)
          (c_nonAvailabilityChanges c + 1)
      else c
  else c.

(** The body of the [for] loop at offset [i]. *)
Definition loopBody (baselineBuffer currentBuffer : Buffer) (minLength : nat)
    (c : counters) (i : nat) : counters :=
  if (i + 3 <? minLength)%nat then
    comparePixel
      (byteAt currentBuffer i) (byteAt currentBuffer (i + 1))
      (byteAt currentBuffer (i + 2))
      (byteAt baselineBuffer i) (byteAt baselineBuffer (i + 1))
      (byteAt baselineBuffer (i + 2))
      c
  else c.

(** The values [i] takes in [for (let i = 0; i < minLength; i += 4)]. *)
Definition offsets (minLength : nat) : list nat :=
  List.map (fun k => (4 * k)%nat) (seq 0 ((minLength + 3) / 4)).

Definition scanPixels (baselineBuffer currentBuffer : Buffer) : counters :=
  let minLength := Nat.min (length baselineBuffer) (length currentBuffer) in
  fold_left (loopBody baselineBuffer currentBuffer minLength)
    (offsets minLength) counters0.

Record Comparison : Type := mkComparison {
  changePercentage : Num.fixed_string;
  availabilityScore : Num.fixed_string;
  changedPixels : Z;
  totalPixels : Z;
  availabilityIncrease : Z;
  dateHighlightChanges : Z;
  nonAvailabilityChanges : Z;
  significantChange : bool;
  likelyNewAvailability : bool
}.

(** The two ratios, as Numbers, before [toFixed]. *)
Definition percentOf (part total : Z) : Num.number :=
  Num.mul (Num.div (Num.of_Z part) (Num.of_Z total)) (Num.of_Z 100).

(** What follows the loop: the ratios, the thresholds and the object that
    is returned. *)
Definition comparisonOf (c : counters) : Comparison :=
  let changePercentage := percentOf (c_changedPixels c) (c_totalPixels c) in
  let availabilityScore :=
    percentOf (c_availabilityIncrease c) (c_totalPixels c) in
  let significantChange := Num.gt changePercentage (Num.of_Z 2) in
  let likelyNewAvailability :=
    (0 <? c_availabilityIncrease c)
    && Num.gt availabilityScore (Num.literal 1 100) in
  {| changePercentage := Num.toFixed3 changePercentage;
     availabilityScore := Num.toFixed3 availabilityScore;
     changedPixels := c_changedPixels c;
     totalPixels := c_totalPixels c;
     availabilityIncrease := c_availabilityIncrease c;
     dateHighlightChanges := c_dateHighlightChanges c;
     nonAvailabilityChanges := c_nonAvailabilityChanges c;
     significantChange := significantChange;
     likelyNewAvailability := likelyNewAvailability |}.

Definition performVisualComparison (baselineBuffer currentBuffer : Buffer)
    : Comparison :=
  comparisonOf (scanPixels baselineBuffer currentBuffer).

(** *** What each counter counts

    The tests of the loop body, for the pixel at offset [i]. *)
Definition pixelInRange (minLength i : nat) : bool := (i + 3 <? minLength)%nat.

Definition pixelChanged (baselineBuffer currentBuffer : Buffer) (i : nat)
    : bool :=
  Num.gt
    (colorDiff
       (byteAt currentBuffer i) (byteAt currentBuffer (i + 1))
       (byteAt currentBuffer (i + 2))
       (byteAt baselineBuffer i) (byteAt baselineBuffer (i + 1))
       (byteAt baselineBuffer (i + 2)))
    (Num.of_Z 30).

Definition highlightAt (buf : Buffer) (i : nat) : bool :=
  isDateHighlight (byteAt buf i) (byteAt buf (i + 1)) (byteAt buf (i + 2)).

Definition availableAt (buf : Buffer) (i : nat) : bool :=
  isAvailable (byteAt buf i) (byteAt buf (i + 1)) (byteAt buf (i + 2)).

Definition backgroundAt (buf : Buffer) (i : nat) : bool :=
  isBackground (byteAt buf i) (byteAt buf (i + 1)) (byteAt buf (i + 2)).

(** The test of [availabilityIncrease++], and the test of
    [nonAvailabilityChanges++] (reached when the first one fails). *)
Definition pixelIncrease (baselineBuffer currentBuffer : Buffer) (i : nat)
    : bool :=
  availableAt currentBuffer i && negb (availableAt baselineBuffer i)
  && negb (backgroundAt baselineBuffer i).

Definition pixelUnrelated (baselineBuffer currentBuffer : Buffer) (i : nat)
    : bool :=
  negb (availableAt currentBuffer i) && negb (availableAt baselineBuffer i).

(** The square of the Euclidean distance between the two colours. *)
Definition squaredDistance (baselineBuffer currentBuffer : Buffer) (i : nat)
    : Z :=
  (byteAt currentBuffer i - byteAt baselineBuffer i) ^ 2
  + (byteAt currentBuffer (i + 1) - byteAt baselineBuffer (i + 1)) ^ 2
  + (byteAt currentBuffer (i + 2) - byteAt baselineBuffer (i + 2)) ^ 2.

(** Either side of the pair is a highlight pixel. *)
Definition pixelHighlighted (baselineBuffer currentBuffer : Buffer) (i : nat)
    : bool :=
  highlightAt currentBuffer i || highlightAt baselineBuffer i.

Definition b2z (b : bool) : Z := if b then 1 else 0.

(** The number of offsets of [l] that satisfy [p]. *)
Definition countIf (p : nat -> bool) (l : list nat) : Z :=
  Z.of_nat (length (List.filter p l)).

(** Bytes of a concrete buffer, written as numbers, and a buffer of one
    pixel. *)
Definition bytes (l : list N) : Buffer :=
  List.map (fun n => default Byte.x00 (Byte.of_N n)) l.

Definition rgba (r g b : N) (a : Byte.byte) : Buffer := bytes [r; g; b] ++ [a].

End VisualDiff.

(** ** The confidence of [validateMonthWithTextExtraction] *)

Module TextConfidence.

(** Texts are strings over Latin-1: a character is a code unit below 256.
    There [toLowerCase] and the [i] flag of a regular expression relate an
    ASCII letter to its other case only. *)

Definition code (c : ascii) : N := Ascii.N_of_ascii c.

Definition lowerChar (c : ascii) : ascii :=
  let n := code c in
  if ((65 <=? n) && (n <=? 90))%N
     || ((192 <=? n) && (n <=? 222) && negb (n =? 215))%N
  then Ascii.ascii_of_N (n + 32)
  else c.

Fixpoint toLowerCase (s : string) : string :=
  match s with
  | EmptyString => EmptyString
  | String c s' => String (lowerChar c) (toLowerCase s')
  end.

Fixpoint startsWith (needle hay : string) : bool :=
  match needle, hay with
  | EmptyString, _ => true
  | String c n', String d h' => Ascii.eqb c d && startsWith n' h'
  | String _ _, EmptyString => false
  end.

(** [hay.includes(needle)]. *)
Fixpoint includes (hay needle : string) : bool :=
  startsWith needle hay
  || match hay with
     | EmptyString => false
     | String _ h' => includes h' needle
     end.

(** [s.substring(0, 3)]. *)
Definition substring03 (s : string) : string := String.substring 0 3 s.

(** *** The four patterns

    [new RegExp(`${expectedMonth}\\s+${expectedYear}`, 'i')] and its three
    siblings are sequences of the atoms below: the month is a word of
    letters and the year a run of digits, which stand for themselves. *)
Inductive atom : Type :=
| Chr (c : ascii)         (* a character, whatever its case *)
| OptChr (c : ascii)      (* c? *)
| Spaces0                 (* \s* *)
| Spaces1.                (* \s+ *)

(** [\s] below 256. *)
Definition isSpace (c : ascii) : bool :=
  let n := code c in
  (((9 <=? n) && (n <=? 13)) || (n =? 32) || (n =? 160))%N.

(** Equality under the [i] flag: two characters with the same upper case;
    below 256 only ASCII letters have a partner. *)
Definition upperAscii (c : ascii) : ascii :=
  let n := code c in
  if ((97 <=? n) && (n <=? 122))%N then Ascii.ascii_of_N (n - 32) else c.

Definition sameLetter (c d : ascii) : bool :=
  Ascii.eqb (upperAscii c) (upperAscii d).

(** Does the pattern match a prefix of the text? *)
Fixpoint matchHere (p : list atom) : string -> bool :=
  match p with
  | [] => fun _ => true
  | a :: r =>
      let skipSpaces :=
        fix skip (s : string) : bool :=
          matchHere r s
          || match s with
             | String d s' => isSpace d && skip s'
             | EmptyString => false
             end in
      match a with
      | Chr c => fun s =>
          match s with
          | String d s' => sameLetter c d && matchHere r s'
          | EmptyString => false
          end
      | OptChr c => fun s =>
          matchHere r s
          || match s with
             | String d s' => sameLetter c d && matchHere r s'
             | EmptyString => false
             end
      | Spaces0 => skipSpaces
      | Spaces1 => fun s =>
          match s with
          | String d s' => isSpace d && skipSpaces s'
          | EmptyString => false
          end
      end
  end.

(** [pattern.test(text)]: a match somewhere in the text. *)
Fixpoint test (p : list atom) (text : string) : bool :=
  matchHere p text
  || match text with
     | EmptyString => false
     | String _ t' => test p t'
     end.

Definition word (s : string) : list atom :=
  List.map Chr (list_ascii_of_string s).

(** [expectedYear.toString()], for a year that is a natural number. *)
Definition yearText (expectedYear : N) : string :=
  DecimalString.NilZero.string_of_uint (N.to_uint expectedYear).

Definition monthYearPatterns (expectedMonth : string) (expectedYear : N)
    : list (list atom) :=
  let y := word (yearText expectedYear) in
  [ word expectedMonth ++ [Spaces1] ++ y;
    word expectedMonth ++ [OptChr ","; Spaces0] ++ y;
    y ++ [Spaces1] ++ word expectedMonth;
    word (substring03 expectedMonth) ++ [Spaces1] ++ y ].

Definition monthNames : list string :=
  [ "january"; "february"; "march"; "april"; "may"; "june";
    "july"; "august"; "september"; "october"; "november"; "december" ]%string.

(** *** The score *)

(** The five signed weights, applied in the order of the source. *)
Definition rawScore (hasExpectedMonth hasExpectedYear hasExactPattern : bool)
    (otherMonths : nat) : Num.number :=
  let confidence := Num.of_Z 0 in
  let confidence :=
    if hasExpectedMonth then Num.add confidence (Num.literal 4 10)
    else confidence in
  let confidence :=
    if hasExpectedYear then Num.add confidence (Num.literal 3 10)
    else confidence in
  let confidence :=
    if hasExactPattern then Num.add confidence (Num.literal 4 10)
    else confidence in
  let confidence :=
    if (otherMonths =? 0)%nat then Num.add confidence (Num.literal 2 10)
    else confidence in
  let confidence :=
    if (2 <? otherMonths)%nat then Num.sub confidence (Num.literal 3 10)
    else confidence in
  confidence.

(** The score depends on the number of other months through its two
    tests only: none, one or two, more than two. *)
Definition band (otherMonths : nat) : nat :=
  if (otherMonths =? 0)%nat then 0%nat
  else if (2 <? otherMonths)%nat then 3%nat else 1%nat.

(** [Math.min(Math.max(confidence, 0), 1.0)]. *)
Definition clamp (confidence : Num.number) : Num.number :=
  Num.min (Num.max confidence (Num.of_Z 0)) (Num.of_Z 1).

Record TextValidation : Type := mkTextValidation {
  confidence : Num.number;
  detectedMonth : string;
  detectedYear : N;
  hasExactPattern : bool;
  otherMonthsFound : nat;
  extractedTextLength : nat;
  workingSelector : string
}.

(** The selector [[class*=...]] with its argument between double
    quotes. *)
Definition doubleQuote : string := String (Ascii.ascii_of_N 34) EmptyString.

Definition attributeContains (word : string) : string :=
  ("[class*=" ++ doubleQuote ++ word ++ doubleQuote ++ "]")%string.

Definition calendarSelectors : list string :=
  [ "table"; ".calendar"; ".datepicker"; ".ui-datepicker";
    attributeContains "calendar"; attributeContains "datepicker";
    "main"; "body" ]%string.

(** The longest text among the selectors, the first one on a tie;
    [textContent sel = None] when the lookup throws or yields [null]. *)
Definition extractText (textContent : string -> option string)
    : string * string :=
  fold_left
    (fun '(allText, workingSelector) selector =>
       match textContent selector with
       | Some text =>
           if negb (String.eqb text EmptyString)
              && (String.length allText <? String.length text)%nat
           then (text, selector)
           else (allText, workingSelector)
       | None => (allText, workingSelector)
       end)
    calendarSelectors (EmptyString, EmptyString).

Definition isAny (expectedMonth : string) : bool :=
  String.eqb expectedMonth "any".

Definition hasExpectedMonthIn (allText expectedMonth : string) : bool :=
  isAny expectedMonth
  || includes (toLowerCase allText) (toLowerCase expectedMonth).

Definition hasExpectedYearIn (allText : string) (expectedYear : N) : bool :=
  includes allText (yearText expectedYear).

Definition otherMonthsIn (allText expectedMonth : string) : list string :=
  if isAny expectedMonth then []
  else List.filter
         (fun month =>
            negb (String.eqb month (toLowerCase expectedMonth))
            && includes (toLowerCase allText) month)
         monthNames.

Definition hasExactPatternIn (allText expectedMonth : string)
    (expectedYear : N) : bool :=
  isAny expectedMonth
  || existsb (fun pattern => test pattern allText)
       (monthYearPatterns expectedMonth expectedYear).

Definition analyzeText (allText workingSelector expectedMonth : string)
    (expectedYear : N) : TextValidation :=
  let hasExpectedMonth := hasExpectedMonthIn allText expectedMonth in
  let hasExpectedYear := hasExpectedYearIn allText expectedYear in
  let otherMonths := otherMonthsIn allText expectedMonth in
  let hasExactPattern :=
    hasExactPatternIn allText expectedMonth expectedYear in
  {| confidence :=
       clamp (rawScore hasExpectedMonth hasExpectedYear hasExactPattern
                (length otherMonths));
     detectedMonth := if hasExpectedMonth then expectedMonth else "not_found";
     detectedYear := if hasExpectedYear then expectedYear else 0%N;
     hasExactPattern := hasExactPattern;
     otherMonthsFound := length otherMonths;
     extractedTextLength := String.length allText;
     workingSelector := workingSelector |}.

(** Past the lookups, each in its own [try], nothing in the function can
    throw: the outer [catch] is never entered. *)
Definition validateMonthWithTextExtraction
    (textContent : string -> option string)
    (expectedMonth : string) (expectedYear : N) : TextValidation :=
  let '(allText, workingSelector) := extractText textContent in
  analyzeText allText workingSelector expectedMonth expectedYear.

(** *** The score as the specification words it

    Over the rationals: the sum of the weights that apply, then the
    clamp to [[0,1]]. *)
Definition weight (applies : bool) (w : Q) : Q := if applies then w else 0%Q.

Definition specScore (monthPresent yearPresent patternMatches : bool)
    (otherMonths : nat) : Q :=
  (weight monthPresent (4 # 10) + weight yearPresent (3 # 10)
   + weight patternMatches (4 # 10)
   + weight (otherMonths =? 0)%nat (2 # 10)
   - weight (2 <? otherMonths)%nat (3 # 10))%Q.

Definition specClamp (x : Q) : Q := Qmin (Qmax x 0) 1.

Definition specConfidence (monthPresent yearPresent patternMatches : bool)
    (otherMonths : nat) : Q :=
  specClamp (specScore monthPresent yearPresent patternMatches otherMonths).

End TextConfidence.

(** ** The effectful part: files, clock, console, webhook, browser *)

Module Monitor.

Import VisualDiff.

Definition MAX_DAILY_NOTIFICATIONS : nat := 2.

(** *** The world the program runs in *)

(** An entry of the array in [./tmp/notifications.json]. Reading
    [n.timestamp] throws on [null]; on anything else it gives a text that
    [new Date] turns into a time value (milliseconds since the epoch) or
    into an invalid date. *)
Inductive LogEntry : Type :=
| EntryNull
| EntryRecord (timestamp : option Z).

(** What [fs.readFile] and [JSON.parse] make of the notification log. *)
Inductive LogFile : Type :=
| LogMissing                         (* readFile throws *)
| LogUnparsable                      (* JSON.parse throws *)
| LogNotArray                        (* a value without [filter]/[push] *)
| LogArray (entries : list LogEntry).

(** How the webhook endpoint answers a POST. *)
Inductive FetchOutcome : Type :=
| FetchOk                            (* response.ok *)
| FetchStatus (status : Z)           (* a response that is not ok *)
| FetchThrows (message : string).    (* fetch rejects *)

(** The console lines that report a decision (lines that only print
    numbers are left out). *)
Inductive LogLine : Type :=
| LogProcessing (name : string)
| LogRetry (attempt maxRetries : nat) (name : string) (delay : Z)
| LogFinalAttemptFailed (name : string) (message : string)
| LogComparing (name : string)
| LogNoBaseline (key : string)
| LogBaselineSaved (key : string)
| LogErrorProcessing (name : string) (message : string)
| LogTodaysNotifications (n : nat)
| LogErrorCheckingLimit (message : string)
| LogLimitReached
| LogSendingWebhook
| LogWebhookSent (changed : nat)
| LogWebhookFailedStatus (status : Z)
| LogWebhookFailed (message : string)
| LogNotificationLogged
| LogErrorLoggingNotification (message : string)
| LogMonitorFailed (message : string).

Record MonthData : Type := mkMonth {
  m_key : string;
  m_name : string;
  m_month : Z;
  m_year : Z
}.

(** One element of [results]: a JavaScript object, its absent properties
    as [None]. [r_comparison] holds the nine properties spread from the
    result of [performVisualComparison]. *)
Record MonthResult : Type := mkResult {
  r_month : string;
  r_name : string;
  r_error : option string;
  r_hasBaseline : option bool;
  r_shouldNotify : bool;
  r_shouldUpdateBaseline : option bool;
  r_message : option string;
  r_comparison : option Comparison
}.

(** What [compareWithBaseline] returns. *)
Record BaselineComparison : Type := mkBaselineComparison {
  hasBaseline : bool;
  shouldNotify : bool;
  shouldUpdateBaseline : bool;
  message : option string;
  comparison : option Comparison
}.

(** The object returned when a baseline exists:
    [{ hasBaseline: true, shouldNotify: ..., shouldUpdateBaseline: ...,
       ...comparison }]. *)
Definition compared (comparison : Comparison) : BaselineComparison :=
  {| hasBaseline := true;
     shouldNotify := significantChange comparison
                     && likelyNewAvailability comparison;
     shouldUpdateBaseline := significantChange comparison;
     message := None;
     comparison := Some comparison |}.

(** The object returned when the baseline had to be created. *)
Definition baselineCreated (monthData : MonthData) : BaselineComparison :=
  {| hasBaseline := false;
     shouldNotify := false;
     shouldUpdateBaseline := false;
     message := Some ("Baseline created for " ++ m_name monthData)%string;
     comparison := None |}.

Record ChangedMonth : Type := mkChangedMonth {
  cm_month : string;
  cm_name : string;
  cm_comparison : option Comparison
}.

Record Summary : Type := mkSummary {
  totalMonthsChecked : nat;
  monthsWithChanges : nat;
  highestChangePercent : Num.number;
  totalAvailabilityIncrease : Z
}.

(** The body of the webhook POST ([timestamp] and the constant texts
    left out). *)
Record Payload : Type := mkPayload {
  p_summary : Summary;
  p_changedMonths : list ChangedMonth
}.

(** An exception: its message. *)
Definition Error : Type := string.

Inductive Result (A : Type) : Type :=
| Ok (a : A)
| Throw (e : Error).
Arguments Ok {A} a.
Arguments Throw {A} e.

(** The request, as far as [handler] reads it: the method and the three
    properties of the body ([None]: undefined). *)
Record Request : Type := mkRequest {
  req_method : string;
  req_username : option string;
  req_password : option string;
  req_requestId : option string
}.

Inductive RequestId : Type :=
| GivenId (id : string)
| LocalId (now : Z).               (* `local-${Date.now()}` *)

(** What [runMonitor] returns ([performance] left out). *)
Record RunResults : Type := mkRunResults {
  totalMonths : nat;
  changedMonths : list MonthResult;
  allResults : list MonthResult;
  summary : Summary
}.

(** The JSON body of the 200 answer to a POST ([timestamp] left out). *)
Record SuccessBody : Type := mkSuccessBody {
  success : bool;
  requestId : RequestId;
  monthsChecked : nat;
  changedMonthsCount : nat;
  resp_summary : Summary;
  results : list MonthResult;
  webhookSent : bool
}.

Inductive Response : Type :=
| RespHealthy                          (* 200, to a GET *)
| RespMethodNotAllowed                 (* 405 *)
| RespMissingCredentials               (* 400 *)
| RespSuccess (body : SuccessBody)     (* 200 *)
| RespError (message : string).        (* 500 *)

(** The console lines that tell of a baseline save for [key], and those
    that tell of a pixel comparison. *)
Definition isSaveOf (key : string) (l : LogLine) : bool :=
  match l with
  | LogBaselineSaved k => String.eqb k key
  | _ => false
  end.

Definition isComparing (l : LogLine) : bool :=
  match l with
  | LogComparing _ => true
  | _ => false
  end.

Definition savesOf (key : string) (console : list LogLine) : nat :=
  length (List.filter (isSaveOf key) console).

Definition comparisonsIn (console : list LogLine) : nat :=
  length (List.filter isComparing console).

Section World.

(** The state of the remote site and of the browser session. *)
Variable Page : Type.

Record World : Type := mkWorld {
  baselines : gmap string Buffer;   (* ./tmp/baselines/<key>.png *)
  notifications : LogFile;          (* ./tmp/notifications.json *)
  clock : Z;                        (* Date.now() *)
  tzOffset : Z;                     (* local time minus UTC, in ms *)
  endpoint : FetchOutcome;          (* the answer to the next POST *)
  posted : list Payload;            (* POSTs answered with response.ok *)
  console : list LogLine;           (* oldest line first *)
  envUsername : option string;      (* process.env.SNOWMASS_USERNAME *)
  envPassword : option string;      (* process.env.SNOWMASS_PASSWORD *)
  page : Page
}.

(** A computation: it changes the world and returns or throws. *)
Definition M (A : Type) : Type := World -> Result A * World.

Definition ret {A} (a : A) : M A := fun w => (Ok a, w).
Definition throw {A} (e : Error) : M A := fun w => (Throw e, w).
Definition bind {A B} (m : M A) (k : A -> M B) : M B :=
  fun w => match m w with
           | (Ok a, w') => k a w'
           | (Throw e, w') => (Throw e, w')
           end.
Definition tryCatch {A} (m : M A) (handler : Error -> M A) : M A :=
  fun w => match m w with
           | (Ok a, w') => (Ok a, w')
           | (Throw e, w') => handler e w'
           end.
(** [try { m } finally { f }], for an [f] that does not throw. *)
Definition tryFinally {A} (m : M A) (f : World -> World) : M A :=
  fun w => let '(r, w') := m w in (r, f w').

Definition get : M World := fun w => (Ok w, w).
Definition modify (f : World -> World) : M unit := fun w => (Ok tt, f w).

Definition set_baselines (b : gmap string Buffer) (w : World) : World :=
  mkWorld b (notifications w) (clock w) (tzOffset w) (endpoint w)
    (posted w) (console w) (envUsername w) (envPassword w) (page w).
Definition set_notifications (n : LogFile) (w : World) : World :=
  mkWorld (baselines w) n (clock w) (tzOffset w) (endpoint w)
    (posted w) (console w) (envUsername w) (envPassword w) (page w).
Definition set_posted (p : list Payload) (w : World) : World :=
  mkWorld (baselines w) (notifications w) (clock w) (tzOffset w)
    (endpoint w) p (console w) (envUsername w) (envPassword w) (page w).
Definition set_console (c : list LogLine) (w : World) : World :=
  mkWorld (baselines w) (notifications w) (clock w) (tzOffset w)
    (endpoint w) (posted w) c (envUsername w) (envPassword w) (page w).
Definition set_page (p : Page) (w : World) : World :=
  mkWorld (baselines w) (notifications w) (clock w) (tzOffset w)
    (endpoint w) (posted w) (console w) (envUsername w) (envPassword w) p.

Definition set_clock (t : Z) (w : World) : World :=
  mkWorld (baselines w) (notifications w) t (tzOffset w) (endpoint w)
    (posted w) (console w) (envUsername w) (envPassword w) (page w).

Definition consoleLog (l : LogLine) : M unit :=
  modify (fun w => set_console (console w ++ [l]) w).


Notation "x <- m ;; k" := (bind m (fun x => k))
  (at level 100, m at next level, right associativity).
Notation "m ;;; k" := (bind m (fun _ => k))
  (at level 100, right associativity).

(** *** The baseline store *)

(** [fs.readFile(baselinePath)]: throws when the file does not exist. *)
Definition readBaseline (key : string) : M Buffer :=
  fun w => match baselines w !! key with
           | Some b => (Ok b, w)
           | None => (Throw "ENOENT: no such file or directory", w)
           end.

(** [fs.mkdir] and [fs.writeFile] are taken to succeed. *)
Definition saveBaseline (monthKey : string) (screenshot : Buffer)
    : M unit :=
  modify (fun w => set_baselines (<[monthKey := screenshot]> (baselines w)) w) ;;;
  consoleLog (LogBaselineSaved monthKey).

Definition compareWithBaseline (monthData : MonthData)
    (currentScreenshot : Buffer) : M BaselineComparison :=
  tryCatch
    (baselineBuffer <- readBaseline (m_key monthData) ;;
     consoleLog (LogComparing (m_name monthData)) ;;;
     let comparison :=
       performVisualComparison baselineBuffer currentScreenshot in
     ret (compared comparison))
    (fun error =>
     consoleLog (LogNoBaseline (m_key monthData)) ;;;
     saveBaseline (m_key monthData) currentScreenshot ;;;
     ret (baselineCreated monthData)).

(** *** The notification throttle *)

Definition msPerDay : Z := 24 * 60 * 60 * 1000.

(** The calendar day that [toDateString] prints for a time value: two
    valid dates print the same text exactly when this day is the same. *)
Definition localDay (tz t : Z) : Z := (t + tz) / msPerDay.

(** [new Date(n.timestamp).toDateString() === today]; an invalid date
    prints [Invalid Date], which is no day. *)
Definition isToday (tz now : Z) (timestamp : option Z) : bool :=
  match timestamp with
  | Some t => localDay tz t =? localDay tz now
  | None => false
  end.

(** [new Date(n.timestamp) > sevenDaysAgo]. *)
Definition isRecent (now : Z) (timestamp : option Z) : bool :=
  match timestamp with
  | Some t => now - 7 * msPerDay <? t
  | None => false
  end.

(** [fs.readFile] followed by [JSON.parse]; [None] is a parsed value
    that is not an array. *)
Definition readNotificationLog : M (option (list LogEntry)) :=
  fun w => match notifications w with
           | LogMissing => (Throw "ENOENT: no such file or directory", w)
           | LogUnparsable => (Throw "Unexpected token in JSON", w)
           | LogNotArray => (Ok None, w)
           | LogArray l => (Ok (Some l), w)
           end.

(** [notificationLog.filter(n => p(n.timestamp))]. *)
Fixpoint filterEntries (p : option Z -> bool) (l : list LogEntry)
    : Result (list LogEntry) :=
  match l with
  | [] => Ok []
  | EntryNull :: _ => Throw "Cannot read properties of null"
  | EntryRecord t :: l' =>
      match filterEntries p l' with
      | Ok r => Ok (if p t then EntryRecord t :: r else r)
      | Throw e => Throw e
      end
  end.

Definition jsFilter (p : option Z -> bool)
    (notificationLog : option (list LogEntry)) : M (list LogEntry) :=
  fun w => match notificationLog with
           | None => (Throw "notificationLog.filter is not a function", w)
           | Some l => (filterEntries p l, w)
           end.

Definition jsPush (e : LogEntry) (notificationLog : option (list LogEntry))
    : M (option (list LogEntry)) :=
  fun w => match notificationLog with
           | None => (Throw "notificationLog.push is not a function", w)
           | Some l => (Ok (Some (l ++ [e])), w)
           end.

Definition checkNotificationLimit : M bool :=
  tryCatch
    (notificationLog <-
       tryCatch readNotificationLog (fun error => ret (Some [])) ;;
     w <- get ;;
     todayNotifications <-
       jsFilter (isToday (tzOffset w) (clock w)) notificationLog ;;
     consoleLog (LogTodaysNotifications (length todayNotifications)) ;;;
     ret (length todayNotifications <? MAX_DAILY_NOTIFICATIONS)%nat)
    (fun error =>
     consoleLog (LogErrorCheckingLimit error) ;;;
     ret true).

Definition logNotification : M unit :=
  tryCatch
    (notificationLog <-
       tryCatch readNotificationLog (fun error => ret (Some [])) ;;
     w <- get ;;
     notificationLog <-
       jsPush (EntryRecord (Some (clock w))) notificationLog ;;
     kept <- jsFilter (isRecent (clock w)) notificationLog ;;
     modify (set_notifications (LogArray kept)) ;;;
     consoleLog LogNotificationLogged)
    (fun error =>
     consoleLog (LogErrorLoggingNotification error)).

(** The notification records of the persisted log that carry today's
    date; a log that cannot be read or parsed, or that holds no array, holds
    no record. *)
Definition isTodaysRecord (tz now : Z) (e : LogEntry) : bool :=
  match e with
  | EntryRecord t => isToday tz now t
  | EntryNull => false
  end.

Definition recordsToday (tz now : Z) (f : LogFile) : nat :=
  match f with
  | LogArray l => length (List.filter (isTodaysRecord tz now) l)
  | _ => 0%nat
  end.

(** A log whose entries, if it has any, are all records: what
    [logNotification] writes. *)
Definition isRecord (e : LogEntry) : bool :=
  match e with
  | EntryRecord _ => true
  | EntryNull => false
  end.

Definition recordsOnly (f : LogFile) : bool :=
  match f with
  | LogArray l => forallb isRecord l
  | _ => true
  end.

Definition entriesOf (f : LogFile) : list LogEntry :=
  match f with
  | LogArray l => l
  | _ => []
  end.

Definition recentEntry (now : Z) (e : LogEntry) : bool :=
  match e with
  | EntryRecord t => isRecent now t
  | EntryNull => false
  end.

(** No record of the log is later than [now]. *)
Definition notAfter (now : Z) (e : LogEntry) : bool :=
  match e with
  | EntryRecord (Some t) => t <=? now
  | _ => true
  end.

Definition noFutureRecord (now : Z) (f : LogFile) : bool :=
  match f with
  | LogArray l => forallb (notAfter now) l
  | _ => true
  end.

(** *** The webhook *)

Inductive FetchResponse : Type :=
| ResponseOk
| ResponseNotOk (status : Z).

Definition fetch (payload : Payload) : M FetchResponse :=
  fun w => match endpoint w with
           | FetchOk => (Ok ResponseOk, set_posted (posted w ++ [payload]) w)
           | FetchStatus s => (Ok (ResponseNotOk s), w)
           | FetchThrows e => (Throw e, w)
           end.

Definition toChangedMonth (r : MonthResult) : ChangedMonth :=
  {| cm_month := r_month r; cm_name := r_name r;
     cm_comparison := r_comparison r |}.

Definition payloadOf (results : RunResults) : Payload :=
  {| p_summary :=
       {| totalMonthsChecked := totalMonths results;
          monthsWithChanges := length (changedMonths results);
          highestChangePercent := highestChangePercent (summary results);
          totalAvailabilityIncrease :=
            totalAvailabilityIncrease (summary results) |};
     p_changedMonths := List.map toChangedMonth (changedMonths results) |}.

Definition sendWebhookNotification (results : RunResults) : M unit :=
  tryCatch
    (canNotify <- checkNotificationLimit ;;
     if negb canNotify then consoleLog LogLimitReached
     else
       consoleLog LogSendingWebhook ;;;
       let payload := payloadOf results in
       response <- fetch payload ;;
       match response with
       | ResponseOk =>
           consoleLog (LogWebhookSent (length (changedMonths results))) ;;;
           logNotification
       | ResponseNotOk status =>
           consoleLog (LogWebhookFailedStatus status)
       end)
    (fun error => consoleLog (LogWebhookFailed error)).

(** The world once the console has the line that opens the iteration for
    [month]. *)
Definition processing (month : MonthData) (w : World) : World :=
  set_console (console w ++ [LogProcessing (m_name month)]) w.

(** [quiet w w']: from [w] to [w'] the files are the same and the console
    got no line that tells of a save or of a comparison. *)
Definition quiet (w w' : World) : Prop :=
  baselines w' = baselines w
  /\ notifications w' = notifications w
  /\ (forall key, savesOf key (console w') = savesOf key (console w))
  /\ comparisonsIn (console w') = comparisonsIn (console w).

(** *** The browser, as a capability

    [chromium.launch] with [newContext] and [newPage], [doLogin],
    [captureMonth] (navigation and screenshot) and [browser.close] act on
    the page only; the first three may throw. [getMonthsToCheck] is a
    function of the clock and the time zone (its [Date] arithmetic is
    not expanded). *)
Variable launchBrowser : Page -> Result unit * Page.
Variable doLogin : string -> string -> Page -> Result unit * Page.
Variable captureMonth : MonthData -> Page -> Result Buffer * Page.
Variable closeBrowser : Page -> Page.
Variable getMonthsToCheck : Z -> Z -> list MonthData.

Definition onPage {A} (f : Page -> Result A * Page) : M A :=
  fun w => let '(r, p) := f (page w) in (r, set_page p w).

(** [Math.min(1000 * Math.pow(2, attempt - 1), 8000)]. *)
Definition retryDelay (attempt : nat) : Z :=
  Z.min (1000 * 2 ^ (Z.of_nat attempt - 1)) 8000.

(** The loop of [captureMonthWithRetry] from attempt [attempt] on, with
    [retriesLeft = maxRetries - attempt]; the wait between two attempts
    changes nothing in the world. *)
Fixpoint captureAttempts (monthData : MonthData) (maxRetries : nat)
    (retriesLeft : nat) (attempt : nat) : M Buffer :=
  tryCatch
    (onPage (captureMonth monthData))
    (fun error =>
     match retriesLeft with
     | O =>
         (* attempt === maxRetries *)
         consoleLog (LogFinalAttemptFailed (m_name monthData) error) ;;;
         throw error
     | S retriesLeft' =>
         consoleLog (LogRetry attempt maxRetries (m_name monthData)
                       (retryDelay attempt)) ;;;
         captureAttempts monthData maxRetries retriesLeft' (S attempt)
     end).

Definition captureMonthWithRetry (monthData : MonthData) : M Buffer :=
  let maxRetries := 3%nat in
  captureAttempts monthData maxRetries (maxRetries - 1) 1.

(** *** [runMonitor] *)

Definition okResult (month : MonthData) (c : BaselineComparison)
    : MonthResult :=
  {| r_month := m_key month; r_name := m_name month;
     r_error := None;
     r_hasBaseline := Some (hasBaseline c);
     r_shouldNotify := shouldNotify c;
     r_shouldUpdateBaseline := Some (shouldUpdateBaseline c);
     r_message := message c;
     r_comparison := comparison c |}.

Definition errorResult (month : MonthData) (error : Error) : MonthResult :=
  {| r_month := m_key month; r_name := m_name month;
     r_error := Some error;
     r_hasBaseline := None;
     r_shouldNotify := false;
     r_shouldUpdateBaseline := None;
     r_message := None;
     r_comparison := None |}.

(** The body of [for (const month of monthsToCheck)]: it returns
    [results] after its [push]. Nothing that follows the [push] inside
    the [try] can throw here ([saveBaseline] does not), so the [catch]
    always starts from the [results] the iteration began with. *)
Definition processMonth (results : list MonthResult) (month : MonthData)
    : M (list MonthResult) :=
  consoleLog (LogProcessing (m_name month)) ;;;
  tryCatch
    (screenshot <- captureMonthWithRetry month ;;
     comparison <- compareWithBaseline month screenshot ;;
     let results := results ++ [okResult month comparison] in
     (if shouldUpdateBaseline comparison
      then saveBaseline (m_key month) screenshot
      else ret tt) ;;;
     ret results)
    (fun error =>
     consoleLog (LogErrorProcessing (m_name month) error) ;;;
     ret (results ++ [errorResult month error])).

Fixpoint forEachMonth (months : list MonthData)
    (results : list MonthResult) : M (list MonthResult) :=
  match months with
  | [] => ret results
  | month :: rest =>
      results <- processMonth results month ;;
      forEachMonth rest results
  end.

(** [parseFloat] of a [toFixed(3)] text. *)
Definition parseFloatFixed (f : Num.fixed_string) : Num.number :=
  match f with
  | Num.FxNaN => Num.NaN
  | Num.FxInfinity s => S754_infinity s
  | Num.FxDecimal neg n =>
      if n =? 0 then S754_zero neg
      else Num.literal (if neg then - n else n) 1000
  | Num.FxLarge x => x
  end.

(** [parseFloat(r.changePercentage || 0)]. *)
Definition changePercentOf (r : MonthResult) : Num.number :=
  match r_comparison r with
  | Some c => parseFloatFixed (changePercentage c)
  | None => Num.of_Z 0
  end.

(** [Math.max(...xs)]. *)
Definition mathMax (xs : list Num.number) : Num.number :=
  fold_left Num.max xs (S754_infinity true).

(** [m.availabilityIncrease || 0]. *)
Definition availabilityIncreaseOf (m : MonthResult) : Z :=
  match r_comparison m with
  | Some c => availabilityIncrease c
  | None => 0
  end.

Definition summarize (results : list MonthResult) : RunResults :=
  let changedMonths := List.filter r_shouldNotify results in
  {| totalMonths := length results;
     changedMonths := changedMonths;
     allResults := results;
     summary :=
       {| totalMonthsChecked := length results;
          monthsWithChanges := length changedMonths;
          highestChangePercent :=
            mathMax (List.map changePercentOf results);
          totalAvailabilityIncrease :=
            fold_left (fun sum m => sum + availabilityIncreaseOf m)
              changedMonths 0 |} |}.

Definition runMonitor (username password : string) : M RunResults :=
  onPage launchBrowser ;;;
  tryFinally
    (onPage (doLogin username password) ;;;
     w <- get ;;
     let monthsToCheck := getMonthsToCheck (clock w) (tzOffset w) in
     results <- forEachMonth monthsToCheck [] ;;
     ret (summarize results))
    (fun w => set_page (closeBrowser (page w)) w).

(** *** [handler] *)

(** [!s]: undefined and the empty string are falsy. *)
Definition falsy (s : option string) : bool :=
  match s with
  | None => true
  | Some t => String.eqb t EmptyString
  end.

Definition orDefault {A} (x d : option A) : option A :=
  match x with Some _ => x | None => d end.

Definition handler (req : Request) : M Response :=
  if String.eqb (req_method req) "GET" then ret RespHealthy
  else if negb (String.eqb (req_method req) "POST")
  then ret RespMethodNotAllowed
  else
    tryCatch
      (w <- get ;;
       let snowmassUsername := orDefault (req_username req) (envUsername w) in
       let snowmassPassword := orDefault (req_password req) (envPassword w) in
       let requestId :=
         match req_requestId req with
         | Some id => GivenId id
         | None => LocalId (clock w)
         end in
       if falsy snowmassUsername || falsy snowmassPassword
       then ret RespMissingCredentials
       else
         results <- runMonitor (default EmptyString snowmassUsername)
                      (default EmptyString snowmassPassword) ;;
         (if (0 <? length (changedMonths results))%nat
          then sendWebhookNotification results
          else ret tt) ;;;
         ret (RespSuccess
                {| success := true;
                   requestId := requestId;
                   monthsChecked := totalMonths results;
                   changedMonthsCount := length (changedMonths results);
                   resp_summary := summary results;
                   results := allResults results;
                   webhookSent :=
                     (0 <? length (changedMonths results))%nat |}))
      (fun error =>
       consoleLog (LogMonitorFailed error) ;;;
       ret (RespError error)).

End World.

Arguments mkWorld {Page}.
Arguments baselines {Page} w.
Arguments notifications {Page} w.
Arguments clock {Page} w.
Arguments tzOffset {Page} w.
Arguments endpoint {Page} w.
Arguments posted {Page} w.
Arguments console {Page} w.
Arguments envUsername {Page} w.
Arguments envPassword {Page} w.
Arguments page {Page} w.
Arguments set_baselines {Page} b w.
Arguments set_notifications {Page} n w.
Arguments set_posted {Page} p w.
Arguments set_console {Page} c w.
Arguments set_page {Page} p w.
Arguments set_clock {Page} t w.
Arguments quiet {Page} w w'.

End Monitor.

(** ** Sample runs *)

Module Samples.

Import VisualDiff.
Import Monitor.

Definition september : MonthData := mkMonth "2025-09" "September 2025" 9 2025.
Definition october : MonthData := mkMonth "2025-10" "October 2025" 10 2025.
Definition november : MonthData := mkMonth "2025-11" "November 2025" 11 2025.

(** A dark pixel, and a pixel of the tan availability band that is no
    highlight colour. *)
Definition darkPixel : Buffer := rgba 100 100 100 Byte.xff.
Definition tanPixel : Buffer := rgba 230 205 190 Byte.xff.

(** A browser without state: launch and login succeed, every capture
    shows the tan pixel. *)
Definition launchOk (p : unit) : Result unit * unit := (Ok tt, p).
Definition loginOk (username password : string) (p : unit)
    : Result unit * unit := (Ok tt, p).
Definition captureTan (m : MonthData) (p : unit) : Result Buffer * unit :=
  (Ok tanPixel, p).
Definition closeNothing (p : unit) : unit := p.

(** The same browser, on a site whose October page never shows a month. *)
Definition captureOctoberFails (m : MonthData) (p : unit)
    : Result Buffer * unit :=
  if String.eqb (m_key m) "2025-10"
  then (Throw "Cannot detect month - page structure may have changed or calendar not loaded"%string, p)
  else (Ok tanPixel, p).

Definition onlySeptember (now tz : Z) : list MonthData := [september].
Definition threeMonths (now tz : Z) : list MonthData :=
  [september; october; november].

(** 2025-09-01T10:00:00Z. *)
Definition morning : Z := 1756720800000.

Definition freshWorld : World unit :=
  mkWorld ∅ LogMissing morning 0 FetchOk [] [] None None tt.

(** September has a dark baseline, and two notifications went out earlier
    today. *)
Definition throttledWorld : World unit :=
  mkWorld {[ "2025-09"%string := darkPixel ]}
    (LogArray [EntryRecord (Some (morning - 7200000));
               EntryRecord (Some (morning - 3600000))])
    morning 0 FetchOk [] [] None None tt.

(** The same baseline and an empty log, in front of an endpoint that
    answers 500, or that cannot be reached. *)
Definition rejectingWorld : World unit :=
  mkWorld {[ "2025-09"%string := darkPixel ]} LogMissing
    morning 0 (FetchStatus 500) [] [] None None tt.

Definition unreachableWorld : World unit :=
  mkWorld {[ "2025-09"%string := darkPixel ]} LogMissing
    morning 0 (FetchThrows "connect ECONNREFUSED") [] [] None None tt.

(** Two records of today and a null entry. *)
Definition corruptedWorld : World unit :=
  mkWorld ∅
    (LogArray [EntryRecord (Some (morning - 7200000));
               EntryRecord (Some (morning - 3600000));
               EntryNull])
    morning 0 FetchOk [] [] None None tt.

(** A page whose table shows September 2025, and the same page with
    three more month names in its text. *)
Definition septemberPage (selector : string) : option string :=
  if String.eqb selector "table"
  then Some "September 2025 Su Mo Tu We Th Fr Sa 1 2 3 4 5 6"%string
  else None.

Definition crowdedPage (selector : string) : option string :=
  if String.eqb selector "table"
  then Some "September 2025 Su Mo Tu We Th Fr Sa 1 2 3 4 5 6 March April May"%string
  else None.

(** The world after the iteration for September of a run that started in
    [freshWorld], on the site whose October page fails. *)
Definition afterSeptember : World unit :=
  snd (forEachMonth unit captureOctoberFails [september] [] freshWorld).

Definition octoberError : Error :=
  "Cannot detect month - page structure may have changed or calendar not loaded"%string.

Definition postRequest : Request :=
  mkRequest "POST" (Some "owner@example.com"%string) (Some "secret"%string)
    (Some "req-1"%string).

Definition noResults : RunResults := summarize [].

End Samples.

(** ** The pixels the loop visits, and the colours it can count *)

Module PixelGrid.

Import VisualDiff.

(** The offsets of the whole pixels among [minLength] bytes: the offsets
    that pass the guard [i + 3 < minLength]. *)
Definition wholePixels (minLength : nat) : list nat :=
  List.map (fun k => (4 * k)%nat) (seq 0 (minLength / 4)).

(** The part of the tan availability band that no highlight rule covers:
    blue is at most 200 there. *)
Definition warmTan (r g b : Z) : bool :=
  (210 <=? r) && (r <=? 235) && (205 <=? g) && (g <=? 230)
  && (190 <=? b) && (b <=? 200) && (b + 10 <? r).

Definition warmTanAt (buf : Buffer) (i : nat) : bool :=
  warmTan (byteAt buf i) (byteAt buf (i + 1)) (byteAt buf (i + 2)).

(** Do two buffers have the same colour bytes in their first [pixels]
    pixels? The fourth byte of a pixel is not looked at. *)
Definition sameColours (pixels : nat) (b b' : Buffer) : bool :=
  forallb
    (fun i => (i mod 4 =? 3)%nat || (byteAt b i =? byteAt b' i))
    (seq 0 (4 * pixels)).

End PixelGrid.

(** ** Several notifications in a row *)

Module Schedule.

Import Monitor.

Section Sends.

Variable Page : Type.

(** [sendWebhookNotification] called when the clock shows [t]. *)
Definition sendAt (results : RunResults) (w : World Page) (t : Z)
    : World Page :=
  snd (sendWebhookNotification Page results (set_clock t w)).

(** One call at each of the times [ts], in order. *)
Definition sendAll (results : RunResults) (ts : list Z) (w : World Page)
    : World Page :=
  fold_left (sendAt results) ts w.

(** A record of the log that carries a date, less than seven days before
    [now]. *)
Definition withinWeek (now : Z) (e : LogEntry) : bool :=
  match e with
  | EntryRecord (Some t) => now - 7 * msPerDay <? t
  | _ => false
  end.

End Sends.

End Schedule.

(** ** What a flagged result carries *)

Module Flagged.

Import VisualDiff.
Import Monitor.


End Flagged.

(** ** The signals behind a confidence above 0.8 *)

Module Threshold.

Import TextConfidence.

(** At least two of three signals. *)
Definition twoOf (a b c : bool) : bool := (a && b) || (a && c) || (b && c).

(** The signals that make the confidence exceed 0.8, the threshold of
    [navigateToMonth]: no other month and two signals at least, or all
    three signals and two other months at most. *)
Definition confirms (hasExpectedMonth hasExpectedYear hasExactPattern : bool)
    (otherMonths : nat) : bool :=
  ((otherMonths =? 0)%nat
   && twoOf hasExpectedMonth hasExpectedYear hasExactPattern)
  || (hasExpectedMonth && hasExpectedYear && hasExactPattern
      && (otherMonths <=? 2)%nat).

End Threshold.

(** ** More sample runs *)

Module Scenarios.

Import VisualDiff.
Import Monitor.
Import Samples.

(** A browser that keeps a journal of what was done with it. *)
Inductive Event : Type :=
| Launched
| LoggedIn
| Captured (key : string)
| Closed.

Definition Journal : Type := list Event.

Definition journalLaunch (p : Journal) : Result unit * Journal :=
  (Ok tt, p ++ [Launched]).

(** The site accepts one password only. *)
Definition journalLogin (username password : string) (p : Journal)
    : Result unit * Journal :=
  if String.eqb password "secret" then (Ok tt, p ++ [LoggedIn])
  else (Throw "Timeout 30000ms exceeded", p).

Definition journalCapture (m : MonthData) (p : Journal)
    : Result Buffer * Journal :=
  (Ok tanPixel, p ++ [Captured (m_key m)]).

Definition journalClose (p : Journal) : Journal := p ++ [Closed].

Definition journalWorld : World Journal :=
  mkWorld ∅ LogMissing morning 0 FetchOk [] [] None None [].

Definition wrongPassword : Request :=
  mkRequest "POST" (Some "owner@example.com"%string) (Some "guess"%string)
    None.

(** A log with a record of nine days ago, a record without a valid date
    and a record of yesterday. *)
Definition agedWorld : World unit :=
  mkWorld ∅
    (LogArray [EntryRecord (Some (morning - 9 * 86400000));
               EntryRecord None;
               EntryRecord (Some (morning - 86400000))])
    morning 0 FetchOk [] [] None None tt.

(** Three calls within the same morning. *)
Definition threeCalls : list Z := [morning; morning + 60000; morning + 120000].

(** A result of September that carries the comparison of two buffers
    without a whole pixel. *)
Definition emptyCapture : MonthResult :=
  okResult september
    (compared (performVisualComparison (bytes [1; 2; 3]%N) (bytes []))).

End Scenarios.

(** ** Regular expressions with capture groups

    [String.prototype.match] with a pattern that has no [g] flag: the
    leftmost match, found by backtracking, each quantifier greedy. The
    patterns of [parseMonthHeader] and of [navigateToMonth] are sequences
    of the tokens below. *)

Module Regex.

Import TextConfidence.

Inductive token : Type :=
| Lit (c : ascii)     (* a character (under the [i] flag: in either case) *)
| Opt (c : ascii)     (* c? *)
| Ws0                 (* \s* *)
| Ws1                 (* \s+ *)
| Word                (* (\w+), a capture group *)
| Digits4.            (* (\d{4}), a capture group *)

Definition isDigit (c : ascii) : bool :=
  let n := code c in ((48 <=? n) && (n <=? 57))%N.

(** [\w]: a letter of ASCII, a digit or the underscore. *)
Definition isWordChar (c : ascii) : bool :=
  let n := code c in
  (((48 <=? n) && (n <=? 57)) || ((65 <=? n) && (n <=? 90)) || (n =? 95)
   || ((97 <=? n) && (n <=? 122)))%N.

(** The state of a successful match: the texts of the capture groups, in
    the order of the groups, and the text that follows the match. *)
Definition Match : Type := (list string * string)%type.

(** [\w+] followed by [k]: the longest run first, then shorter ones;
    [acc] is what the group has consumed so far. *)
Fixpoint greedyWord (k : string -> string -> option Match) (acc s : string)
    : option Match :=
  match s with
  | String d s' =>
      if isWordChar d then
        let acc' := (acc ++ String d EmptyString)%string in
        match greedyWord k acc' s' with
        | Some m => Some m
        | None => k acc' s'
        end
      else None
  | EmptyString => None
  end.

(** [\s*] followed by [k]. *)
Fixpoint greedySpaces (k : string -> option Match) (s : string)
    : option Match :=
  match s with
  | String d s' =>
      if isSpace d then
        match greedySpaces k s' with
        | Some m => Some m
        | None => k s
        end
      else k s
  | EmptyString => k s
  end.

(** The pattern [p] at the start of [s], after the groups [caps]. *)
Fixpoint matchFrom (p : list token) (caps : list string) (s : string)
    {struct p} : option Match :=
  match p with
  | [] => Some (caps, s)
  | Lit c :: r =>
      match s with
      | String d s' => if sameLetter c d then matchFrom r caps s' else None
      | EmptyString => None
      end
  | Opt c :: r =>
      match s with
      | String d s' =>
          if sameLetter c d then
            match matchFrom r caps s' with
            | Some m => Some m
            | None => matchFrom r caps s
            end
          else matchFrom r caps s
      | EmptyString => matchFrom r caps s
      end
  | Ws0 :: r => greedySpaces (matchFrom r caps) s
  | Ws1 :: r =>
      match s with
      | String d s' =>
          if isSpace d then greedySpaces (matchFrom r caps) s' else None
      | EmptyString => None
      end
  | Word :: r =>
      greedyWord (fun w rest => matchFrom r (caps ++ [w]) rest) EmptyString s
  | Digits4 :: r =>
      match s with
      | String a (String b (String c (String d rest))) =>
          if isDigit a && isDigit b && isDigit c && isDigit d
          then matchFrom r
                 (caps ++ [String a (String b (String c (String d EmptyString)))])
                 rest
          else None
      | _ => None
      end
  end.

(** [text.match(p)]: the capture groups and [match[0]] of the leftmost
    match, or [None] for [null]. *)
Fixpoint exec (p : list token) (text : string)
    : option (list string * string) :=
  match matchFrom p [] text with
  | Some (caps, rest) =>
      Some (caps,
            String.substring 0 (String.length text - String.length rest) text)
  | None =>
      match text with
      | String _ text' => exec p text'
      | EmptyString => None
      end
  end.

(** [c] occurs in [s]. *)
Definition occursIn (c s : string) : Prop :=
  exists before after : string, s = (before ++ c ++ after)%string.

(** The characters of a word, as literals. *)
Definition lits (s : string) : list token :=
  List.map Lit (list_ascii_of_string s).

End Regex.

(** ** [parseInt], [parseMonthHeader], [calculateNavigationDirection] *)

Module Header.

Import TextConfidence.
Import Regex.

(** The value of a digit in a radix, when it is one. *)
Definition digitValue (radix : Z) (c : ascii) : option Z :=
  let n := Z.of_N (code c) in
  let v := if (48 <=? n) && (n <=? 57) then Some (n - 48)
           else if (97 <=? n) && (n <=? 122) then Some (n - 87)
           else if (65 <=? n) && (n <=? 90) then Some (n - 55)
           else None in
  match v with
  | Some d => if d <? radix then Some d else None
  | None => None
  end.

(** The value of the longest prefix of digits; [acc] is [None] as long as
    no digit was read. *)
Fixpoint digitsValue (radix : Z) (s : string) (acc : option Z) : option Z :=
  match s with
  | String c s' =>
      match digitValue radix c with
      | Some d => digitsValue radix s' (Some (radix * default 0 acc + d))
      | None => acc
      end
  | EmptyString => acc
  end.

Fixpoint trimStart (s : string) : string :=
  match s with
  | String c s' => if isSpace c then trimStart s' else s
  | EmptyString => s
  end.

(** [parseInt(s)] without a radix; [None] is NaN. The result is the exact
    integer: a Number differs from it beyond [2^53] only, and compares
    in the same way with any integer below [2^53]. *)
Definition parseInt (s : string) : option Z :=
  let s := trimStart s in
  let '(sign, s) :=
    match s with
    | String c s' =>
        if Ascii.eqb c "-" then (-1, s')
        else if Ascii.eqb c "+" then (1, s')
        else (1, s)
    | EmptyString => (1, s)
    end in
  let '(radix, s) :=
    match s with
    | String c (String x s') =>
        if Ascii.eqb c "0" && (Ascii.eqb x "x" || Ascii.eqb x "X")
        then (16, s')
        else (10, s)
    | _ => (10, s)
    end in
  option_map (Z.mul sign) (digitsValue radix s None).

(** [{ month, year }]: the month is a string or [undefined], the year a
    Number ([None]: NaN). *)
Record Parsed : Type := mkParsed {
  month : option string;
  year : option Z
}.

Definition unknown : Parsed :=
  {| month := Some "unknown"%string; year := Some 0 |}.

Definition headerPatterns : list (list token) :=
  [ [Word; Ws1; Digits4];                  (* /(\w+)\s+(\d{4})/ *)
    [Word; Opt ","; Ws0; Digits4];         (* /(\w+),?\s*(\d{4})/ *)
    [Digits4; Ws1; Word];                  (* /(\d{4})\s+(\w+)/ *)
    [Word; Ws0; Lit "-"; Ws0; Digits4] ].  (* /(\w+)\s*-\s*(\d{4})/ *)

(** What follows [const [, first, second] = match]. *)
Definition parseGroups (first second : string) : Parsed :=
  let isFirstMonth :=
    match parseInt first with None => true | Some _ => false end in
  {| month := Some (toLowerCase (if isFirstMonth then first else second));
     year := parseInt (if isFirstMonth then second else first) |}.

Fixpoint firstMatch (patterns : list (list token)) (headerText : string)
    : option (list string) :=
  match patterns with
  | [] => None
  | pattern :: rest =>
      match exec pattern headerText with
      | Some (caps, _) => Some caps
      | None => firstMatch rest headerText
      end
  end.

(** [headerText] is a string or [null]. *)
Definition parseMonthHeader (headerText : option string) : Parsed :=
  match headerText with
  | None => unknown
  | Some EmptyString => unknown
  | Some text =>
      match firstMatch headerPatterns text with
      | Some [first; second] => parseGroups first second
      | _ => unknown
      end
  end.

Inductive Direction : Type :=
| AlreadyThere
| Forward
| Backward.

Fixpoint indexFrom (names : list string) (name : string) (i : Z) : Z :=
  match names with
  | [] => -1
  | n :: rest => if String.eqb n name then i else indexFrom rest name (i + 1)
  end.

(** [monthNames.indexOf(month)]. *)
Definition indexOf (names : list string) (month : option string) : Z :=
  match month with
  | Some name => indexFrom names name 0
  | None => -1
  end.

(** [===] on months (strings or [undefined]) and on years, and [<] on
    years: every comparison with NaN is false. *)
Definition sameMonth (a b : option string) : bool :=
  match a, b with
  | Some x, Some y => String.eqb x y
  | None, None => true
  | _, _ => false
  end.

Definition sameYear (a b : option Z) : bool :=
  match a, b with
  | Some x, Some y => x =? y
  | _, _ => false
  end.

Definition yearBefore (a b : option Z) : bool :=
  match a, b with
  | Some x, Some y => x <? y
  | _, _ => false
  end.

Definition sameMonthYear (a b : Parsed) : bool :=
  sameMonth (month a) (month b) && sameYear (year a) (year b).

Definition calculateNavigationDirection (current target : Parsed)
    : Direction :=
  if sameMonthYear current target then AlreadyThere
  else
    let currentIndex := indexOf monthNames (month current) in
    let targetIndex := indexOf monthNames (month target) in
    if yearBefore (year current) (year target) then Forward
    else if yearBefore (year target) (year current) then Backward
    else if currentIndex <? targetIndex then Forward else Backward.

(** The place of a month on the time line: twelve times the year, plus
    the index of the month. *)
Definition timeline (p : Parsed) : option Z :=
  match year p with
  | Some y => Some (12 * y + indexOf monthNames (month p))
  | None => None
  end.

(** Is the month one of the twelve names? *)
Definition knownMonth (p : Parsed) : bool :=
  match month p with
  | Some name => existsb (String.eqb name) monthNames
  | None => false
  end.

Definition isLetter (c : ascii) : bool :=
  let n := code c in
  (((65 <=? n) && (n <=? 90)) || ((97 <=? n) && (n <=? 122)))%N.

Fixpoint allChars (p : ascii -> bool) (s : string) : bool :=
  match s with
  | String c s' => p c && allChars p s'
  | EmptyString => true
  end.

End Header.

(** ** The page, as a capability

    [navigateToMonth] and its helpers act on the Playwright page only.
    What they print on the console is left out. *)

Module Playwright.

Import VisualDiff.
Import Monitor.

Section Page.

Variable Page : Type.

(** A computation on the page: it changes the page and returns or
    throws. *)
Definition Act (A : Type) : Type := Page -> Result A * Page.

Definition pure {A} (a : A) : Act A := fun p => (Ok a, p).
Definition raise {A} (e : Error) : Act A := fun p => (Throw e, p).
Definition andThen {A B} (m : Act A) (k : A -> Act B) : Act B :=
  fun p => match m p with
           | (Ok a, p') => k a p'
           | (Throw e, p') => (Throw e, p')
           end.
(** [try { m } catch (error) { handler }]. *)
Definition attempt {A} (m : Act A) (handler : Error -> Act A) : Act A :=
  fun p => match m p with
           | (Ok a, p') => (Ok a, p')
           | (Throw e, p') => handler e p'
           end.

(** The calls that the program makes on the page and on its locators; a
    timeout is [None] where the call gives none. *)
Record Browser : Type := mkBrowser {
  (* page.goto(url, { waitUntil: 'networkidle', timeout: 20000 }) *)
  goto : string -> Act unit;
  (* page.waitForTimeout(ms) *)
  waitForTimeout : Z -> Act unit;
  (* page.screenshot({ type: 'png' }) *)
  screenshot : Act Buffer;
  (* page.screenshot({ path }) *)
  screenshotTo : string -> Act unit;
  (* page.screenshot({ clip: { x: 400, y: 200, width: 500, height: 400 },
                       type: 'png' }) *)
  clipScreenshot : Act Buffer;
  (* page.locator(selector).textContent(): a text or null *)
  textContent : string -> Act (option string);
  (* page.locator(selector).first().textContent({ timeout }) *)
  firstTextContent : string -> option Z -> Act (option string);
  (* page.locator(selector).first().isVisible({ timeout }) *)
  firstIsVisible : string -> option Z -> Act bool;
  (* page.locator(selector).first().click() *)
  firstClick : string -> Act unit;
  (* page.locator(selector).count() *)
  count : string -> Act Z;
  (* page.locator(selector).first().scrollIntoViewIfNeeded() *)
  firstScrollIntoView : string -> Act unit;
  (* page.locator(selector).first().screenshot({ type: 'png' }) *)
  firstScreenshot : string -> Act Buffer
}.

End Page.

Arguments pure {Page A} a.
Arguments raise {Page A} e.
Arguments andThen {Page A B} m k.
Arguments attempt {Page A} m handler.
Arguments goto {Page} b.
Arguments waitForTimeout {Page} b.
Arguments screenshot {Page} b.
Arguments screenshotTo {Page} b.
Arguments clipScreenshot {Page} b.
Arguments textContent {Page} b.
Arguments firstTextContent {Page} b.
Arguments firstIsVisible {Page} b.
Arguments firstClick {Page} b.
Arguments count {Page} b.
Arguments firstScrollIntoView {Page} b.
Arguments firstScreenshot {Page} b.

End Playwright.

(** ** [navigateToMonth] and [captureMonth] *)

Module Navigation.

Import VisualDiff.
Import TextConfidence.
Import Monitor.
Import Regex.
Import Header.
Import Playwright.

(** Selectors with an attribute test, their argument between double
    quotes. *)
Definition titleContains (tag word : string) : string :=
  (tag ++ "[title*=" ++ doubleQuote ++ word ++ doubleQuote ++ "]")%string.

Definition textIs (text : string) : string :=
  ("text=" ++ doubleQuote ++ text ++ doubleQuote)%string.

Definition nextSelectors : list string :=
  [ ".ui-datepicker-next"; ".calendar-header .next";
    titleContains "button" "Next"; titleContains "a" "Next";
    attributeContains "next" ]%string.

Definition prevSelectors : list string :=
  [ ".ui-datepicker-prev"; ".calendar-header .prev";
    titleContains "button" "Prev"; titleContains "a" "Prev";
    attributeContains "prev" ]%string.

Definition headerSelectors : list string :=
  [ ".ui-datepicker-title"; ".calendar-header h3"; ".calendar-header h2";
    "h2.ui-datepicker-title"; ".datepicker-title";
    attributeContains "month" ++ attributeContains "year";
    attributeContains "calendar" ++ attributeContains "header" ++ " h2";
    attributeContains "calendar" ++ attributeContains "header" ++ " h3"
  ]%string.

Definition dateCells : string :=
  ("td" ++ attributeContains "day"
   ++ ", .calendar-day, .ui-datepicker-calendar td")%string.

(** [s.trim()]. *)
Fixpoint trimEnd (s : string) : string :=
  match s with
  | EmptyString => EmptyString
  | String c s' =>
      match trimEnd s' with
      | EmptyString => if isSpace c then EmptyString
                       else String c EmptyString
      | t => String c t
      end
  end.

Definition trim (s : string) : string := trimEnd (trimStart s).

(** The three patterns of [navigateToMonth] for one month name, under
    the [i] flag. *)
Definition currentMonthPatterns (month : string) : list (list token) :=
  [ lits month ++ [Ws1; Digits4];
    lits month ++ [Opt ","; Ws0; Digits4];
    [Digits4; Ws1] ++ lits month ].

(** [match[0]] of the first pattern that matches. *)
Fixpoint firstMatched (patterns : list (list token)) (text : string)
    : option string :=
  match patterns with
  | [] => None
  | pattern :: rest =>
      match exec pattern text with
      | Some (_, matched) => Some matched
      | None => firstMatched rest text
      end
  end.

(** The two nested loops over the months and their patterns: the text
    of the first match, or the empty text. A match is never empty. *)
Fixpoint findMonthYear (months : list string) (extractedText : string)
    : string :=
  match months with
  | [] => EmptyString
  | month :: rest =>
      match firstMatched (currentMonthPatterns month) extractedText with
      | Some matched =>
          if String.eqb matched EmptyString
          then findMonthYear rest extractedText
          else matched
      | None => findMonthYear rest extractedText
      end
  end.

(** The object that the [catch] of [validateMonthWithTextExtraction]
    returns. *)
Definition validationError : TextValidation :=
  {| confidence := Num.of_Z 0;
     detectedMonth := "error";
     detectedYear := 0%N;
     hasExactPattern := false;
     otherMonthsFound := 0;
     extractedTextLength := 0;
     workingSelector := "none" |}.

(** [`${n}`] for a Number that is an integer or NaN, and for a month. *)
Definition showNumber (n : option Z) : string :=
  match n with
  | Some z => DecimalString.NilZero.string_of_int (Z.to_int z)
  | None => "NaN"
  end.

Definition showMonth (m : option string) : string :=
  match m with
  | Some s => s
  | None => "undefined"
  end.

Definition cannotDetect : Error :=
  "Cannot detect month - page structure may have changed or calendar not loaded"%string.

Definition claimsSuccess : Error :=
  "Navigation claims success but verification failed"%string.

Definition navigationFailed (target finalParsed : Parsed)
    (finalTextExtraction : TextValidation) : Error :=
  ("NAVIGATION FAILED: Target=" ++ showMonth (month target) ++ " "
   ++ showNumber (year target)
   ++ ", Header=" ++ showMonth (month finalParsed) ++ " "
   ++ showNumber (year finalParsed)
   ++ ", Text=" ++ detectedMonth finalTextExtraction ++ " "
   ++ showNumber (Some (Z.of_N (detectedYear finalTextExtraction))))%string.

(** How one round of a loop ends. *)
Inductive Round (A : Type) : Type :=
| Next (a : A)         (* go on with the next round *)
| Leave                (* break *)
| Done.                (* return *)
Arguments Next {A} a.
Arguments Leave {A}.
Arguments Done {A}.

Section Browser.

Variable Page : Type.
Variable browser : Browser Page.

Notation "x <- m ;; k" := (andThen m (fun x => k))
  (at level 100, m at next level, right associativity).
Notation "m ;;; k" := (andThen m (fun _ => k))
  (at level 100, right associativity).

(** *** [clickNavigationButton] *)

Definition buttonSelectors (direction : Direction) : list string :=
  match direction with
  | Forward => nextSelectors
  | _ => prevSelectors
  end.

Fixpoint clickFirstVisible (selectors : list string) : Act Page bool :=
  match selectors with
  | [] => pure false
  | selector :: rest =>
      clicked <-
        attempt
          (visible <- firstIsVisible browser selector (Some 2000) ;;
           if visible
           then firstClick browser selector ;;; pure true
           else pure false)
          (fun e => pure false) ;;
      if clicked then pure true else clickFirstVisible rest
  end.

Definition clickNavigationButton (direction : Direction) : Act Page bool :=
  clickFirstVisible (buttonSelectors direction).

(** *** [waitForCalendarStability] *)

(** [currentText === previousText], on texts that may be null. *)
Definition sameText (a b : option string) : bool :=
  match a, b with
  | Some x, Some y => String.eqb x y
  | None, None => true
  | _, _ => false
  end.

(** The rounds of the loop that are left, with [previousText] and
    [stableCount]. *)
Fixpoint stabilityRounds (headerSelector : string) (rounds : nat)
    (previousText : option string) (stableCount : nat) : Act Page unit :=
  match rounds with
  | O => pure tt
  | S rounds' =>
      waitForTimeout browser 500 ;;;
      round <-
        attempt
          (currentText <-
             firstTextContent browser headerSelector (Some 2000) ;;
           if sameText currentText previousText then
             if (3 <=? stableCount + 1)%nat then pure Done
             else pure (Next (previousText, (stableCount + 1)%nat))
           else pure (Next (currentText, 0%nat)))
          (fun e => pure (Next (previousText, stableCount))) ;;
      match round with
      | Next (previousText, stableCount) =>
          stabilityRounds headerSelector rounds' previousText stableCount
      | _ => pure tt
      end
  end.

Definition waitForCalendarStability (headerSelector : string)
    : Act Page unit :=
  stabilityRounds headerSelector 10 (Some EmptyString) 0.

(** *** [validateMonthWithTextExtraction], on the page *)

(** The loop over the selectors: each lookup changes the page; a lookup
    that throws is skipped. *)
Fixpoint extractTextFrom (selectors : list string)
    (allText workingSelector : string) : Act Page (string * string) :=
  match selectors with
  | [] => pure (allText, workingSelector)
  | selector :: rest =>
      found <-
        attempt
          (text <- firstTextContent browser selector (Some 3000) ;;
           match text with
           | Some text =>
               if negb (String.eqb text EmptyString)
                  && (String.length allText <? String.length text)%nat
               then pure (text, selector)
               else pure (allText, workingSelector)
           | None => pure (allText, workingSelector)
           end)
          (fun e => pure (allText, workingSelector)) ;;
      extractTextFrom rest (fst found) (snd found)
  end.

(** [expectedMonth] is a month name, ['any'] or [undefined]; on
    [undefined] the call of [toLowerCase] throws and the [catch] answers.
    The year is a natural number. *)
Definition validateMonthOnPage (expectedMonth : option string)
    (expectedYear : N) : Act Page TextValidation :=
  found <- extractTextFrom calendarSelectors EmptyString EmptyString ;;
  match expectedMonth with
  | Some expectedMonth =>
      pure (analyzeText (fst found) (snd found) expectedMonth expectedYear)
  | None => pure validationError
  end.

(** *** [validateCalendarDates] *)

Definition validateCalendarDates : Act Page bool :=
  attempt
    (dateElements <- count browser dateCells ;;
     if dateElements <? 20 then pure false
     else
       hasDay1 <- attempt (firstIsVisible browser (textIs "1") None)
                    (fun e => pure false) ;;
       hasDay2 <- attempt (firstIsVisible browser (textIs "2") None)
                    (fun e => pure false) ;;
       pure (hasDay1 && hasDay2))
    (fun e => pure false).

(** *** [navigateToMonth] *)

(** [monthNames[targetMonth - 1]]. *)
Definition targetMonthNameOf (targetMonth : Z) : option string :=
  if (1 <=? targetMonth) && (targetMonth <=? 12)
  then nth_error monthNames (Z.to_nat (targetMonth - 1))
  else None.

Definition targetOf (monthData : MonthData) : Parsed :=
  {| month := targetMonthNameOf (m_month monthData);
     year := Some (m_year monthData) |}.

(** The year of the target, as [validateMonthWithTextExtraction] takes
    it. *)
Definition targetYearOf (monthData : MonthData) : N :=
  Z.to_N (m_year monthData).

(** [text && text.trim()]. *)
Definition trimmedText (text : option string) : string :=
  match text with
  | Some t => if String.eqb t EmptyString then EmptyString else trim t
  | None => EmptyString
  end.

(** The fallback loop over the header selectors: the trimmed text and
    the selector of the first header that has one. *)
Fixpoint findHeader (selectors : list string) : Act Page (string * string) :=
  match selectors with
  | [] => pure (EmptyString, EmptyString)
  | selector :: rest =>
      found <-
        attempt
          (text <- firstTextContent browser selector (Some 3000) ;;
           pure (trimmedText text))
          (fun e => pure EmptyString) ;;
      if String.eqb found EmptyString then findHeader rest
      else pure (found, selector)
  end.

(** Steps 1 and 2 and the fallback: the text of the current month and
    the selector to read the header from. [currentYear] is
    [new Date().getFullYear()]; the validation it goes to is read for
    its text length and its selector only. *)
Definition detectCurrentMonth (currentYear : N) : Act Page (string * string) :=
  currentTextValidation <- validateMonthOnPage (Some "any"%string) currentYear ;;
  primary <-
    (if (0 <? extractedTextLength currentTextValidation)%nat then
       extractedText <-
         (if String.eqb (workingSelector currentTextValidation) EmptyString
          then pure (Some EmptyString)
          else textContent browser (workingSelector currentTextValidation)) ;;
       match extractedText with
       | None => raise "Cannot read properties of null (reading 'match')"
       | Some extractedText =>
           let currentMonthText := findMonthYear monthNames extractedText in
           if String.eqb currentMonthText EmptyString
           then pure (EmptyString, EmptyString)
           else pure (currentMonthText,
                      workingSelector currentTextValidation)
       end
     else pure (EmptyString, EmptyString)) ;;
  found <-
    (if String.eqb (fst primary) EmptyString
     then findHeader headerSelectors
     else pure primary) ;;
  if String.eqb (fst found) EmptyString then raise cannotDetect
  else pure found.

(** The triple verification, once the header matched the target: it
    says whether [navigateToMonth] returns. *)
Definition tripleVerification (monthData : MonthData)
    (workingSelector : string) : Act Page bool :=
  let target := targetOf monthData in
  waitForTimeout browser 2000 ;;;
  doubleCheck <- firstTextContent browser workingSelector None ;;
  let doubleCheckParsed := parseMonthHeader doubleCheck in
  currentScreenshot <- screenshot browser ;;
  textConfirm <-
    validateMonthOnPage (month target) (targetYearOf monthData) ;;
  if sameMonthYear doubleCheckParsed target
     && Num.gt (confidence textConfirm) (Num.literal 8 10)
  then validateCalendarDates
  else pure false.

(** The [try] block of one attempt. *)
Definition attemptNavigation (monthData : MonthData)
    (workingSelector : string) : Act Page (Round unit) :=
  let target := targetOf monthData in
  monthHeaderText <- firstTextContent browser workingSelector (Some 5000) ;;
  let parsedCurrent := parseMonthHeader monthHeaderText in
  verified <-
    (if sameMonthYear parsedCurrent target
     then tripleVerification monthData workingSelector
     else pure false) ;;
  if verified then pure Done
  else
    match calculateNavigationDirection parsedCurrent target with
    | AlreadyThere =>
        screenshotTo browser "./tmp/navigation-error.png" ;;;
        raise claimsSuccess
    | navigationDirection =>
        clickSuccess <- clickNavigationButton navigationDirection ;;
        if negb clickSuccess then pure Leave
        else
          waitForTimeout browser 3000 ;;;
          waitForCalendarStability workingSelector ;;;
          pure (Next tt)
    end.

Definition errorShotPath (attempts : nat) : string :=
  ("./tmp/nav-error-"
   ++ DecimalString.NilZero.string_of_uint (Nat.to_uint attempts)
   ++ ".png")%string.

(** The attempts from [attempts] on, [left] of them: did one of them
    return? *)
Fixpoint navigationAttempts (monthData : MonthData)
    (workingSelector : string) (left attempts : nat) : Act Page bool :=
  match left with
  | O => pure false
  | S left' =>
      round <-
        attempt
          (attemptNavigation monthData workingSelector)
          (fun error =>
           attempt (screenshotTo browser (errorShotPath attempts))
             (fun e => pure tt) ;;;
           pure (Next tt)) ;;
      match round with
      | Next _ =>
          navigationAttempts monthData workingSelector left' (S attempts)
      | Leave => pure false
      | Done => pure true
      end
  end.

(** The final verification: the header or the text has to confirm. *)
Definition finalVerification (monthData : MonthData)
    (workingSelector : string) : Act Page unit :=
  let target := targetOf monthData in
  attempt
    (finalMonthText <- firstTextContent browser workingSelector None ;;
     let finalParsed := parseMonthHeader finalMonthText in
     finalTextExtraction <-
       validateMonthOnPage (month target) (targetYearOf monthData) ;;
     screenshotTo browser "./tmp/final-navigation-state.png" ;;;
     let headerSuccess := sameMonthYear finalParsed target in
     let textSuccess :=
       Num.gt (confidence finalTextExtraction) (Num.literal 8 10)
       && sameMonth (Some (detectedMonth finalTextExtraction)) (month target)
       && (Z.of_N (detectedYear finalTextExtraction) =? m_year monthData) in
     if negb headerSuccess && negb textSuccess
     then raise (navigationFailed target finalParsed finalTextExtraction)
     else pure tt)
    (fun error => raise error).

Definition navigateToMonth (currentYear : N) (monthData : MonthData)
    : Act Page unit :=
  startingScreenshot <- screenshot browser ;;
  found <- detectCurrentMonth currentYear ;;
  let workingSelector := snd found in
  textValidation <-
    validateMonthOnPage (month (targetOf monthData))
      (targetYearOf monthData) ;;
  returned <- navigationAttempts monthData workingSelector 12 0 ;;
  if returned then pure tt
  else finalVerification monthData workingSelector.


(** *** [captureMonth] *)

Definition captureMonth (currentYear : N) (monthData : MonthData)
    : Act Page Buffer :=
  goto browser "https://osrcreservations.com/generalavailability" ;;;
  waitForTimeout browser 3000 ;;;
  navigateToMonth currentYear monthData ;;;
  attempt
    (firstScrollIntoView browser "table" ;;;
     firstScreenshot browser "table")
    (fun error => clipScreenshot browser).

End Browser.

End Navigation.

(** ** Pages that keep a promise

    To say what the navigation does on a site that behaves in some way,
    the pages of that site are given as a set [Inv] that every call on
    the page stays in. *)

Module Site.

Import VisualDiff.
Import TextConfidence.
Import Monitor.
Import Playwright.

Section Pages.

Variable Page : Type.
Variable Inv : Page -> Prop.

(** From a page of the site, [a] ends on a page of the site, and what it
    returns satisfies [Q]. *)
Definition ensures {A} (a : Act Page A) (Q : A -> Prop) : Prop :=
  forall (p : Page) (res : Result A) (p' : Page),
    Inv p -> a p = (res, p') ->
    Inv p' /\ match res with
              | Ok r => Q r
              | Throw _ => True
              end.

Definition stays {A} (a : Act Page A) : Prop := ensures a (fun _ => True).

(** Every call on the page stays on the site. *)
Record closed (b : Browser Page) : Prop := mkClosed {
  closed_goto : forall url, stays (goto b url);
  closed_waitForTimeout : forall ms, stays (waitForTimeout b ms);
  closed_screenshot : stays (screenshot b);
  closed_screenshotTo : forall path, stays (screenshotTo b path);
  closed_clipScreenshot : stays (clipScreenshot b);
  closed_textContent : forall selector, stays (textContent b selector);
  closed_firstTextContent :
    forall selector timeout, stays (firstTextContent b selector timeout);
  closed_firstIsVisible :
    forall selector timeout, stays (firstIsVisible b selector timeout);
  closed_firstClick : forall selector, stays (firstClick b selector);
  closed_count : forall selector, stays (count b selector);
  closed_firstScrollIntoView :
    forall selector, stays (firstScrollIntoView b selector);
  closed_firstScreenshot : forall selector, stays (firstScreenshot b selector)
}.

(** No text that the site shows has [name] in it, in whatever case. *)
Definition withoutName (name : string) (text : option string) : Prop :=
  match text with
  | Some t => includes (toLowerCase t) name = false
  | None => True
  end.

Definition neverShows (b : Browser Page) (name : string) : Prop :=
  forall selector timeout,
    ensures (firstTextContent b selector timeout) (withoutName name).

(** The site shows no text at all: a lookup throws, or gives null or the
    empty text. *)
Definition blank (text : option string) : Prop :=
  match text with
  | Some t => t = EmptyString
  | None => True
  end.

Definition showsNothing (b : Browser Page) : Prop :=
  forall selector timeout,
    ensures (firstTextContent b selector timeout) blank.

(** [a] returns (it does not throw) on the pages of the site, a value
    that satisfies [Q]. *)
Definition returns {A} (a : Act Page A) (Q : A -> Prop) : Prop :=
  forall p : Page,
    Inv p -> exists (r : A) (p' : Page), a p = (Ok r, p') /\ Inv p' /\ Q r.

(** On the pages of the site the first element of [selector] is
    visible and a click on it returns. *)
Definition clickable (b : Browser Page) (selector : string) : Prop :=
  returns (firstIsVisible b selector (Some 2000)) (fun v => v = true)
  /\ returns (firstClick b selector) (fun _ => True).

(** A site that is ready and shows the calendar of one month, with the
    text [header] wherever a text is read. *)
Record showsMonth (b : Browser Page) (header : string) : Prop := mkShowsMonth {
  shows_wait : forall ms, returns (waitForTimeout b ms) (fun _ => True);
  shows_screenshot : returns (screenshot b) (fun _ => True);
  shows_text :
    forall selector,
      returns (textContent b selector) (fun t => t = Some header);
  shows_first :
    forall selector timeout,
      returns (firstTextContent b selector timeout)
        (fun t => t = Some header);
  shows_cells : forall selector, returns (count b selector) (fun n => 20 <= n);
  shows_days :
    forall selector timeout,
      returns (firstIsVisible b selector timeout) (fun v => v = true)
}.

(** A way to count the clicks that went through: a click that returns
    adds one to the count, and nothing else moves it. *)
Variable clicks : Page -> nat.

Definition still {A} (a : Act Page A) : Prop :=
  forall (p : Page) (res : Result A) (p' : Page),
    a p = (res, p') -> clicks p' = clicks p.

Record countsClicks (b : Browser Page) : Prop := mkCountsClicks {
  counts_goto : forall url, still (goto b url);
  counts_waitForTimeout : forall ms, still (waitForTimeout b ms);
  counts_screenshot : still (screenshot b);
  counts_screenshotTo : forall path, still (screenshotTo b path);
  counts_clipScreenshot : still (clipScreenshot b);
  counts_textContent : forall selector, still (textContent b selector);
  counts_firstTextContent :
    forall selector timeout, still (firstTextContent b selector timeout);
  counts_firstIsVisible :
    forall selector timeout, still (firstIsVisible b selector timeout);
  counts_firstClick :
    forall selector (p : Page) (res : Result unit) (p' : Page),
      firstClick b selector p = (res, p') ->
      match res with
      | Ok _ => clicks p' = S (clicks p)
      | Throw _ => clicks p' = clicks p
      end;
  counts_count : forall selector, still (count b selector);
  counts_firstScrollIntoView :
    forall selector, still (firstScrollIntoView b selector);
  counts_firstScreenshot : forall selector, still (firstScreenshot b selector)
}.

(** [a] lets [k] clicks through at most. *)
Definition clicksWithin {A} (k : nat) (a : Act Page A) : Prop :=
  forall (p : Page) (res : Result A) (p' : Page),
    a p = (res, p') -> (clicks p <= clicks p' <= clicks p + k)%nat.

(** One round of waiting and reading the header, as
    [waitForCalendarStability] does it. *)
Definition poll (b : Browser Page) (headerSelector : string) (p : Page)
    : Page :=
  snd (firstTextContent b headerSelector (Some 2000)
         (snd (waitForTimeout b 500 p))).

End Pages.

Arguments ensures {Page} Inv {A} a Q.
Arguments stays {Page} Inv {A} a.
Arguments returns {Page} Inv {A} a Q.
Arguments clickable {Page} Inv b selector.
Arguments still {Page} clicks {A} a.
Arguments clicksWithin {Page} clicks {A} k a.
Arguments poll {Page} b headerSelector p.

End Site.

(** ** Sample sites *)

Module Sites.

Import VisualDiff.
Import TextConfidence.
Import Monitor.
Import Header.
Import Playwright.
Import Samples.

(** The page of a sample site: how many clicks went through and how
    many texts were read. *)
Record Counters : Type := mkCounters {
  clicked : nat;
  readings : nat
}.

Definition start : Counters := mkCounters 0 0.

(** A site that always answers, and shows [header] wherever a text is
    read, however often the buttons are clicked. *)
Definition steadySite (header : option string) : Browser Counters :=
  {| goto := fun _ p => (Ok tt, p);
     waitForTimeout := fun _ p => (Ok tt, p);
     screenshot := fun p => (Ok tanPixel, p);
     screenshotTo := fun _ p => (Ok tt, p);
     clipScreenshot := fun p => (Ok tanPixel, p);
     textContent := fun _ p => (Ok header, p);
     firstTextContent :=
       fun _ _ p => (Ok header, mkCounters (clicked p) (S (readings p)));
     firstIsVisible := fun _ _ p => (Ok true, p);
     firstClick := fun _ p => (Ok tt, mkCounters (S (clicked p)) (readings p));
     count := fun _ p => (Ok 42, p);
     firstScrollIntoView := fun _ p => (Ok tt, p);
     firstScreenshot := fun _ p => (Ok tanPixel, p) |}.

Definition anyPage (p : Counters) : Prop := True.

(** A site like [steadySite], but a click on the first of the buttons
    for the next month throws: only the others can be clicked. *)
Definition stiffSite (header : option string) : Browser Counters :=
  {| goto := fun _ p => (Ok tt, p);
     waitForTimeout := fun _ p => (Ok tt, p);
     screenshot := fun p => (Ok tanPixel, p);
     screenshotTo := fun _ p => (Ok tt, p);
     clipScreenshot := fun p => (Ok tanPixel, p);
     textContent := fun _ p => (Ok header, p);
     firstTextContent :=
       fun _ _ p => (Ok header, mkCounters (clicked p) (S (readings p)));
     firstIsVisible := fun _ _ p => (Ok true, p);
     firstClick :=
       fun selector p =>
         if String.eqb selector ".ui-datepicker-next"
         then (Throw "locator.click: Timeout 30000ms exceeded."%string, p)
         else (Ok tt, mkCounters (S (clicked p)) (readings p));
     count := fun _ p => (Ok 42, p);
     firstScrollIntoView := fun _ p => (Ok tt, p);
     firstScreenshot := fun _ p => (Ok tanPixel, p) |}.

Definition augustSite : Browser Counters :=
  steadySite (Some "August 2025"%string).

Definition septemberSite : Browser Counters :=
  steadySite (Some "September 2025"%string).

Definition blankSite : Browser Counters := steadySite None.

(** A site that shows September of the year after, and the number 2025
    somewhere else in its text. *)
Definition nextYearSite : Browser Counters :=
  steadySite (Some "September 2026, booked until 2025"%string).

Definition siteWorld : World Counters :=
  mkWorld ∅ LogMissing morning 0 FetchOk [] [] None None start.

Definition october2025 : Parsed :=
  {| month := Some "october"%string; year := Some 2025 |}.

Definition january2026 : Parsed :=
  {| month := Some "january"%string; year := Some 2026 |}.

End Sites.

(** ** Dates, and [getMonthsToCheck]

    A [Date] is its time value: the milliseconds since the epoch, in UTC,
    within the range of a [Date] as the current time is. Local time is at
    a fixed offset [tz] from UTC (no daylight saving), as in
    [Monitor.localDay]. The day numbers and the calendar are those of
    ECMAScript: [Day], [TimeWithinDay], [DayFromYear], [YearFromTime],
    [MonthFromTime], [DateFromTime] and [MakeDay]. *)

Module JsDate.

Import Monitor.

Definition Day (t : Z) : Z := t / msPerDay.

Definition TimeWithinDay (t : Z) : Z := t mod msPerDay.

(** The day number of the first day of year [y]. *)
Definition DayFromYear (y : Z) : Z :=
  365 * (y - 1970) + (y - 1969) / 4 - (y - 1901) / 100 + (y - 1601) / 400.

Definition InLeapYear (y : Z) : bool :=
  ((y mod 4 =? 0) && negb (y mod 100 =? 0)) || (y mod 400 =? 0).

(** The largest year whose first day is not after [day]: the quotient by
    the mean length of a year is that year or one of its neighbours. *)
Definition YearFromDay (day : Z) : Z :=
  let y := 1970 + (400 * day) / 146097 in
  if DayFromYear (y + 1) <=? day then y + 1
  else if DayFromYear y <=? day then y
  else y - 1.

Definition DayWithinYear (day : Z) : Z := day - DayFromYear (YearFromDay day).

(** The number of days of the year before month [m] (from 0), and the
    number of days of the year for [m = 12]. *)
Definition daysBeforeMonth (leap : bool) (m : Z) : Z :=
  let l := if leap then 1 else 0 in
  if m <=? 0 then 0
  else if m =? 1 then 31
  else if m =? 2 then 59 + l
  else if m =? 3 then 90 + l
  else if m =? 4 then 120 + l
  else if m =? 5 then 151 + l
  else if m =? 6 then 181 + l
  else if m =? 7 then 212 + l
  else if m =? 8 then 243 + l
  else if m =? 9 then 273 + l
  else if m =? 10 then 304 + l
  else if m =? 11 then 334 + l
  else 365 + l.

Definition MonthFromDay (day : Z) : Z :=
  let leap := InLeapYear (YearFromDay day) in
  let d := DayWithinYear day in
  if d <? daysBeforeMonth leap 1 then 0
  else if d <? daysBeforeMonth leap 2 then 1
  else if d <? daysBeforeMonth leap 3 then 2
  else if d <? daysBeforeMonth leap 4 then 3
  else if d <? daysBeforeMonth leap 5 then 4
  else if d <? daysBeforeMonth leap 6 then 5
  else if d <? daysBeforeMonth leap 7 then 6
  else if d <? daysBeforeMonth leap 8 then 7
  else if d <? daysBeforeMonth leap 9 then 8
  else if d <? daysBeforeMonth leap 10 then 9
  else if d <? daysBeforeMonth leap 11 then 10
  else 11.

Definition DateFromDay (day : Z) : Z :=
  DayWithinYear day
  - daysBeforeMonth (InLeapYear (YearFromDay day)) (MonthFromDay day) + 1.

(** [MakeDay(year, month, date)]: the month may be past December. *)
Definition MakeDay (year month date : Z) : Z :=
  let ym := year + month / 12 in
  let mn := month mod 12 in
  DayFromYear ym + daysBeforeMonth (InLeapYear ym) mn + date - 1.

(** The methods of a [Date], in local time. *)
Definition getFullYear (tz t : Z) : Z := YearFromDay (Day (t + tz)).
Definition getMonth (tz t : Z) : Z := MonthFromDay (Day (t + tz)).
Definition getDate (tz t : Z) : Z := DateFromDay (Day (t + tz)).

(** [new Date(year, month, date)]: a year from 0 to 99 is one of the
    twentieth century. *)
Definition newDate (tz year month date : Z) : Z :=
  let yr := if (0 <=? year) && (year <=? 99) then 1900 + year else year in
  MakeDay yr month date * msPerDay - tz.

(** [d.setMonth(month)]: the time value after the call. *)
Definition setMonth (tz t month : Z) : Z :=
  MakeDay (getFullYear tz t) month (getDate tz t) * msPerDay
  + TimeWithinDay (t + tz) - tz.

Definition longMonthNames : list string :=
  [ "January"; "February"; "March"; "April"; "May"; "June";
    "July"; "August"; "September"; "October"; "November"; "December"
  ]%string.

Definition showYear (y : Z) : string :=
  DecimalString.NilZero.string_of_int (Z.to_int y).

(** [String(n).padStart(2, '0')]. *)
Definition padStart2 (n : Z) : string :=
  let s := DecimalString.NilZero.string_of_int (Z.to_int n) in
  if (String.length s <? 2)%nat then ("0" ++ s)%string else s.

(** [toLocaleDateString('en-US', { month: 'long', year: 'numeric' })],
    for a year of the common era. *)
Definition monthAndYear (tz t : Z) : string :=
  (nth (Z.to_nat (getMonth tz t)) longMonthNames EmptyString
   ++ " " ++ showYear (getFullYear tz t))%string.

(** The object pushed for [currentDate] ([startDate] and [endDate],
    which nothing reads, are left out). *)
Definition monthDataOf (tz currentDate : Z) : MonthData :=
  {| m_key := (showYear (getFullYear tz currentDate) ++ "-"
               ++ padStart2 (getMonth tz currentDate + 1))%string;
     m_name := monthAndYear tz currentDate;
     m_month := getMonth tz currentDate + 1;
     m_year := getFullYear tz currentDate |}.

(** The [while] loop, for [fuel] rounds at most. *)
Fixpoint monthsUntil (fuel : nat) (tz currentDate ninetyDaysFromNow : Z)
    : list MonthData :=
  match fuel with
  | O => []
  | S fuel' =>
      if currentDate <=? ninetyDaysFromNow then
        monthDataOf tz currentDate
        :: monthsUntil fuel' tz
             (setMonth tz currentDate (getMonth tz currentDate + 1))
             ninetyDaysFromNow
      else []
  end.

(** [getMonthsToCheck] at the instant [now], its loop given [fuel]
    rounds; the two lines it writes to the console are left out. *)
Definition getMonthsToCheckIn (fuel : nat) (now tz : Z) : list MonthData :=
  let ninetyDaysFromNow := now + 90 * 24 * 60 * 60 * 1000 in
  let currentDate := newDate tz (getFullYear tz now) (getMonth tz now) 1 in
  monthsUntil fuel tz currentDate ninetyDaysFromNow.

(** The loop ends by its own test in five rounds at most (see
    [DateProperties]); twelve are more than enough. *)
Definition getMonthsToCheck (now tz : Z) : list MonthData :=
  getMonthsToCheckIn 12 now tz.

(** Months counted from the year 0: [12 * year + month - 1]. *)
Definition monthNumber (m : MonthData) : Z := 12 * m_year m + (m_month m - 1).

(** The first instant, in local time, of the month numbered [n]. *)
Definition startOf (tz n : Z) : Z :=
  (DayFromYear (n / 12) + daysBeforeMonth (InLeapYear (n / 12)) (n mod 12))
  * msPerDay - tz.

(** The number of the month of the instant [t]. *)
Definition monthOf (tz t : Z) : Z := 12 * getFullYear tz t + getMonth tz t.

(** The [k] months from the month numbered [n] on. *)
Fixpoint monthsFrom (tz n : Z) (k : nat) : list MonthData :=
  match k with
  | O => []
  | S k' => monthDataOf tz (startOf tz n) :: monthsFrom tz (n + 1) k'
  end.

(** Sample instants: the last millisecond of January 2025 in UTC, and
    Mountain Standard Time. *)
Definition lateJanuary : Z := 1738367999999.

Definition mountainTime : Z := - (7 * 60 * 60 * 1000).

Definition may2025 : MonthData := mkMonth "2025-05" "May 2025" 5 2025.

End JsDate.

(** ** The request as it arrives

    [Monitor.Request] is a request whose body is an object with texts
    for properties. Here the body may also be undefined or null, and a
    credential null: [handler] destructures the body inside its [try],
    and a default value is taken for an undefined property only. *)

Module Wire.

Import VisualDiff.
Import Monitor.

(** A credential of the body: undefined, null or a text. *)
Inductive Value : Type :=
| Undefined
| Null
| Text (s : string).

(** [req.body]: undefined or null, or a value with properties, of which
    [snowmassUsername], [snowmassPassword] and [requestId] are read
    ([requestId]: undefined or a text). *)
Inductive Body : Type :=
| NoBody
| Fields (snowmassUsername snowmassPassword : Value)
    (requestId : option string).

Record Request : Type := mkRequest {
  method : string;
  body : Body
}.

(** [property = fallback] in a destructuring pattern: the default is
    taken when the property is undefined, not when it is null. *)
Definition orDefault (property : Value) (fallback : option string) : Value :=
  match property with
  | Undefined =>
      match fallback with
      | Some s => Text s
      | None => Undefined
      end
  | _ => property
  end.

(** [!v]: undefined, null and the empty text are falsy. *)
Definition falsy (v : Value) : bool :=
  match v with
  | Text s => String.eqb s EmptyString
  | _ => true
  end.

Definition textOf (v : Value) : string :=
  match v with
  | Text s => s
  | _ => EmptyString
  end.

Section Handler.

Variable Page : Type.
Variable launchBrowser : Page -> Result unit * Page.
Variable doLogin : string -> string -> Page -> Result unit * Page.
Variable captureMonth : MonthData -> Page -> Result Buffer * Page.
Variable closeBrowser : Page -> Page.
Variable getMonthsToCheck : Z -> Z -> list MonthData.

(** The message of the TypeError that the engine throws when a body
    that is undefined or null is destructured. *)
Variable cannotDestructure : Error.

Notation "x <- m ;; k" := (bind Page m (fun x => k))
  (at level 100, m at next level, right associativity).
Notation "m ;;; k" := (bind Page m (fun _ => k))
  (at level 100, right associativity).

Definition handler (req : Request) : M Page Response :=
  if String.eqb (method req) "GET" then ret Page RespHealthy
  else if negb (String.eqb (method req) "POST")
  then ret Page RespMethodNotAllowed
  else
    tryCatch Page
      (match body req with
       | NoBody => throw Page cannotDestructure
       | Fields username password id =>
           w <- get Page ;;
           let snowmassUsername := orDefault username (envUsername w) in
           let snowmassPassword := orDefault password (envPassword w) in
           let requestId :=
             match id with
             | Some id => GivenId id
             | None => LocalId (clock w)
             end in
           if falsy snowmassUsername || falsy snowmassPassword
           then ret Page RespMissingCredentials
           else
             results <- runMonitor Page launchBrowser doLogin captureMonth
                          closeBrowser getMonthsToCheck
                          (textOf snowmassUsername)
                          (textOf snowmassPassword) ;;
             (if (0 <? length (changedMonths results))%nat
              then sendWebhookNotification Page results
              else ret Page tt) ;;;
             ret Page
               (RespSuccess
                  {| success := true;
                     requestId := requestId;
                     monthsChecked := totalMonths results;
                     changedMonthsCount := length (changedMonths results);
                     resp_summary := summary results;
                     results := allResults results;
                     webhookSent :=
                       (0 <? length (changedMonths results))%nat |})
       end)
      (fun error =>
       consoleLog Page (LogMonitorFailed error) ;;;
       ret Page (RespError error)).

End Handler.

(** The requests that [Monitor.Request] holds: a body with properties,
    no credential null. *)
Definition ofValue (v : option string) : Value :=
  match v with
  | Some s => Text s
  | None => Undefined
  end.

Definition ofRequest (req : Monitor.Request) : Request :=
  {| method := req_method req;
     body := Fields (ofValue (req_username req)) (ofValue (req_password req))
               (req_requestId req) |}.

(** Sample requests: a POST without a body, and one whose username is
    null. *)
Definition bodylessPost : Request := mkRequest "POST" NoBody.

Definition nullUsernamePost : Request :=
  mkRequest "POST" (Fields Null (Text "secret") None).

(** A world whose environment holds both credentials. *)
Definition configuredWorld : World unit :=
  mkWorld ∅ LogMissing Samples.morning 0 FetchOk [] []
    (Some "owner@example.com"%string) (Some "secret"%string) tt.

End Wire.

(** * Properties *)

(** ** Numbers *)

Example num_literal_2 : Num.of_Z 2 = S754_finite false 4503599627370496 (-51).
Proof. vm_compute. reflexivity. Qed.

Example num_literal_001 :
  Num.literal 1 100 = S754_finite false 5764607523034235 (-59).
Proof. vm_compute. reflexivity. Qed.

Example num_zero_div_zero : Num.div (Num.of_Z 0) (Num.of_Z 0) = Num.NaN.
Proof. vm_compute. reflexivity. Qed.

Example num_sqrt_3025 : Num.sqrt (Num.of_Z 3025) = Num.of_Z 55.
Proof. vm_compute. reflexivity. Qed.

Example num_toFixed_100 :
  Num.fixed_text (Num.toFixed3 (Num.of_Z 100)) = Some "100.000"%string.
Proof. vm_compute. reflexivity. Qed.

Example num_toFixed_third :
  Num.fixed_text (Num.toFixed3 (Num.mul (Num.div (Num.of_Z 1) (Num.of_Z 3)) (Num.of_Z 100)))
  = Some "33.333"%string.
Proof. vm_compute. reflexivity. Qed.

Section NumFacts.

Import Num.

Lemma shr_1_m (r : shr_record) :
  0 <= shr_m r -> shr_m (shr_1 r) = shr_m r / 2.
Proof.
  destruct r as [m r s]; simpl; intros Hm.
  destruct m as [|p|p]; try lia; [reflexivity|].
  destruct p as [p|p|]; simpl.
  - rewrite Pos2Z.inj_xI. apply Z.div_unique with 1; lia.
  - rewrite Pos2Z.inj_xO. apply Z.div_unique with 0; lia.
  - reflexivity.
Qed.

Lemma iter_shr_1_m (n : positive) : forall r : shr_record,
  0 <= shr_m r -> shr_m (SpecFloat.iter_pos shr_1 n r) = shr_m r / 2 ^ Zpos n.
Proof.
  induction n as [n IH|n IH|]; intros r Hr; simpl SpecFloat.iter_pos.
  - assert (H1 : 0 <= shr_m (shr_1 r)).
    { rewrite shr_1_m by assumption. apply Z.div_pos; lia. }
    assert (H2 : 0 <= shr_m (SpecFloat.iter_pos shr_1 n (shr_1 r))).
    { rewrite IH by assumption. apply Z.div_pos; lia. }
    rewrite IH, IH, shr_1_m by assumption.
    assert (Hp : 2 ^ Zpos n~1 = 2 * 2 ^ Zpos n * 2 ^ Zpos n).
    { rewrite <- (Z.pow_1_r 2) at 2.
      rewrite <- !Z.pow_add_r by lia. f_equal. lia. }
    rewrite Hp, !Z.div_div by lia; f_equal; ring.
  - assert (H2 : 0 <= shr_m (SpecFloat.iter_pos shr_1 n r)).
    { rewrite IH by assumption. apply Z.div_pos; lia. }
    rewrite IH, IH by assumption.
    assert (Hp : 2 ^ Zpos n~0 = 2 ^ Zpos n * 2 ^ Zpos n).
    { rewrite <- Z.pow_add_r by lia. f_equal. lia. }
    rewrite Hp, !Z.div_div by lia; f_equal; ring.
  - rewrite shr_1_m by assumption. reflexivity.
Qed.

Lemma digits2_pos_lower (p : positive) :
  2 ^ (Zpos (digits2_pos p) - 1) <= Zpos p.
Proof.
  induction p as [p IH|p IH|]; simpl digits2_pos.
  - rewrite Pos2Z.inj_succ.
    replace (Z.succ (Zpos (digits2_pos p)) - 1) with (1 + (Zpos (digits2_pos p) - 1)) by lia.
    rewrite Z.pow_add_r, Z.pow_1_r by lia. lia.
  - rewrite Pos2Z.inj_succ.
    replace (Z.succ (Zpos (digits2_pos p)) - 1) with (1 + (Zpos (digits2_pos p) - 1)) by lia.
    rewrite Z.pow_add_r, Z.pow_1_r by lia. lia.
  - simpl. lia.
Qed.

Lemma shr_record_of_loc_m (m : Z) (l : location) :
  shr_m (shr_record_of_loc m l) = m.
Proof. destruct l as [|[]]; reflexivity. Qed.

(** Shifting a positive mantissa to its format keeps it positive, as long
    as the exponent is far from the subnormal range. *)
Lemma shr_fexp_positive (p : positive) (e : Z) (l : location) :
  -1000 <= e ->
  0 < shr_m (fst (shr_fexp prec emax (Zpos p) e l))
  /\ -1000 <= snd (shr_fexp prec emax (Zpos p) e l).
Proof.
  intros He. unfold shr_fexp, shr, fexp, emin, prec, emax. simpl Zdigits2.
  pose proof (digits2_pos_lower p) as Hd.
  set (d := Zpos (digits2_pos p)) in *.
  assert (Hd1 : 1 <= d) by (unfold d; lia).
  replace (Z.max (d + e - 53) (3 - 1024 - 53) - e) with (d - 53) by lia.
  destruct (d - 53) as [|n|n] eqn:Hn; simpl fst; simpl snd;
    rewrite ?shr_record_of_loc_m; try lia.
  split; [|lia].
  rewrite iter_shr_1_m by (rewrite shr_record_of_loc_m; lia).
  rewrite shr_record_of_loc_m.
  apply Z.div_str_pos. split; [lia|].
  apply Z.le_trans with (2 ^ (d - 1)); [|assumption].
  apply Z.pow_le_mono_r; lia.
Qed.

Lemma round_nearest_even_positive (m : Z) (l : location) :
  0 < m -> 0 < round_nearest_even m l.
Proof.
  intros Hm. destruct l as [|[]]; simpl; try lia.
  destruct (Z.even m); lia.
Qed.

Lemma binary_round_aux_positive (s : bool) (p : positive) (e : Z) (l : location) :
  -1000 <= e ->
  (exists m' e', binary_round_aux prec emax s (Zpos p) e l = S754_finite s m' e')
  \/ binary_round_aux prec emax s (Zpos p) e l = S754_infinity s.
Proof.
  intros He. unfold binary_round_aux.
  destruct (shr_fexp_positive p e l He) as [H1 H1e].
  destruct (shr_fexp prec emax (Zpos p) e l) as [mrs' e'] eqn:E1.
  simpl fst in H1; simpl snd in H1e.
  pose proof (round_nearest_even_positive (shr_m mrs') (loc_of_shr_record mrs') H1) as H2.
  destruct (round_nearest_even (shr_m mrs') (loc_of_shr_record mrs')) as [|q|q];
    try lia.
  destruct (shr_fexp_positive q e' loc_Exact H1e) as [H3 _].
  destruct (shr_fexp prec emax (Zpos q) e' loc_Exact) as [mrs'' e''] eqn:E2.
  simpl fst in H3.
  destruct (shr_m mrs'') as [|m|m]; try lia.
  destruct (e'' <=? emax - prec); eauto.
Qed.

Lemma of_Z_positive (z : Z) :
  0 < z ->
  (exists m e, of_Z z = S754_finite false m e) \/ of_Z z = S754_infinity false.
Proof.
  intros Hz. destruct z as [|p|p]; try lia.
  unfold of_Z, binary_normalize, binary_round.
  destruct (shl_align p 0 (fexp prec emax (Zpos (digits2_pos p) + 0))) as [mz ez] eqn:E.
  apply binary_round_aux_positive.
  unfold shl_align, fexp, emin, prec, emax in E.
  destruct (Z.max (Zpos (digits2_pos p) + 0 - 53) (3 - 1024 - 53) - 0) eqn:E'; inversion E; lia.
Qed.
Lemma digits2_pos_shift (p k : positive) :
  Zpos (digits2_pos (Pos.iter xO p k)) = Zpos (digits2_pos p) + Zpos k.
Proof.
  induction k as [|k IH] using Pos.peano_ind.
  - simpl. lia.
  - rewrite Pos.iter_succ. simpl digits2_pos. lia.
Qed.

Lemma digits2_pos_upper (p : positive) :
  Zpos p < 2 ^ Zpos (digits2_pos p).
Proof.
  induction p as [p IH|p IH|]; simpl digits2_pos;
    rewrite ?Pos2Z.inj_succ, ?Z.pow_succ_r by lia; lia.
Qed.

(** An integer whose binary length [L] is at most 53 is the Number
    [p * 2^(53-L) * 2^(L-53)]. *)
Lemma of_Z_exact (p : positive) :
  Zpos (digits2_pos p) < 53 ->
  of_Z (Zpos p) =
  S754_finite false
    (Pos.iter xO p (Z.to_pos (53 - Zpos (digits2_pos p))))
    (Zpos (digits2_pos p) - 53).
Proof.
  intros Hd. set (L := Zpos (digits2_pos p)) in *.
  assert (HL : 1 <= L) by (unfold L; lia).
  unfold of_Z, binary_normalize, binary_round, shl_align, fexp, emin, prec, emax.
  fold L.
  replace (Z.max (L + 0 - 53) (3 - 1024 - 53) - 0) with (L - 53) by lia.
  replace (Z.max (L + 0 - 53) (3 - 1024 - 53)) with (L - 53) by lia.
  destruct (L - 53) as [|n|n] eqn:En; try lia.
  replace (Z.to_pos (53 - L)) with n by lia.
  unfold binary_round_aux, shr_fexp, shr, fexp, emin. simpl Zdigits2.
  rewrite digits2_pos_shift. fold L.
  replace (Z.max (L + Zpos n + Zneg n - 53) (3 - 1024 - 53) - Zneg n) with 0
    by lia.
  simpl. rewrite digits2_pos_shift. fold L.
  replace (Z.max (L + Zpos n + Zneg n - 53) (3 - 1024 - 53) - Zneg n) with 0
    by lia.
  simpl.
  destruct (Zneg n <=? 971) eqn:E; [reflexivity|].
  apply Z.leb_gt in E. lia.
Qed.

Lemma shr_fexp_exponent (p : positive) (e : Z) (l : location) :
  -1000 <= e -> e <= snd (shr_fexp prec emax (Zpos p) e l).
Proof.
  intros He. unfold shr_fexp, shr.
  destruct (fexp prec emax (Zdigits2 (Zpos p) + e) - e) as [|n|n];
    simpl snd; lia.
Qed.

(** Rounding a positive mantissa whose exponent is far from the subnormal
    range gives a positive Number whose exponent is no smaller. *)
Lemma binary_round_aux_exponent (s : bool) (p : positive) (e : Z)
    (l : location) :
  -1000 <= e ->
  (exists m' e',
      binary_round_aux prec emax s (Zpos p) e l = S754_finite s m' e'
      /\ e <= e')
  \/ binary_round_aux prec emax s (Zpos p) e l = S754_infinity s.
Proof.
  intros He. unfold binary_round_aux.
  destruct (shr_fexp_positive p e l He) as [H1 H1e].
  pose proof (shr_fexp_exponent p e l He) as H1g.
  destruct (shr_fexp prec emax (Zpos p) e l) as [mrs' e'] eqn:E1.
  simpl fst in H1; simpl snd in H1e, H1g.
  pose proof (round_nearest_even_positive (shr_m mrs')
                (loc_of_shr_record mrs') H1) as H2.
  destruct (round_nearest_even (shr_m mrs') (loc_of_shr_record mrs'))
    as [|q|q]; try lia.
  destruct (shr_fexp_positive q e' loc_Exact H1e) as [H3 _].
  pose proof (shr_fexp_exponent q e' loc_Exact H1e) as H3g.
  destruct (shr_fexp prec emax (Zpos q) e' loc_Exact) as [mrs'' e''] eqn:E2.
  simpl fst in H3. simpl snd in H3g.
  destruct (shr_m mrs'') as [|m|m]; try lia.
  destruct (e'' <=? emax - prec); [left|right; reflexivity].
  eexists _, _. split; [reflexivity|lia].
Qed.

(** The square root of an integer of at least 11 bits is above 30. *)
Lemma sqrt_above_30 (p : positive) :
  11 <= Zpos (digits2_pos p) < 53 ->
  gt (sqrt (of_Z (Zpos p))) (of_Z 30) = true.
Proof.
  intros HL. rewrite of_Z_exact by lia.
  set (L := Zpos (digits2_pos p)) in *.
  set (mz := Pos.iter xO p (Z.to_pos (53 - L))).
  assert (Hmz : Zpos (digits2_pos mz) = 53).
  { unfold mz. rewrite digits2_pos_shift. fold L. lia. }
  unfold sqrt, SFsqrt, SFsqrt_core_binary. simpl Zdigits2. rewrite Hmz.
  unfold fexp, emin, prec, emax. rewrite !Z.div2_div.
  set (e' := Z.min (Z.max ((53 + (L - 53) + 1) / 2 - 53) (3 - 1024 - 53))
                   ((L - 53) / 2)).
  assert (He' : -47 <= e' <= -27)
    by (unfold e'; Z.to_euclidean_division_equations; lia).
  assert (Hs : 0 < L - 53 - 2 * e')
    by (unfold e'; Z.to_euclidean_division_equations; lia).
  destruct (L - 53 - 2 * e') as [|n|n] eqn:En; try lia.
  assert (Hm' : 0 < Z.shiftl (Zpos mz) (Zpos n)).
  { rewrite Z.shiftl_mul_pow2 by lia. apply Z.mul_pos_pos; [lia|].
    apply Z.pow_pos_nonneg; lia. }
  pose proof (Z.sqrtrem_sqrt (Z.shiftl (Zpos mz) (Zpos n))) as Hq.
  destruct (Z.sqrtrem (Z.shiftl (Zpos mz) (Zpos n))) as [q r].
  simpl fst in Hq.
  assert (Hqpos : 0 < q) by (rewrite Hq; apply Z.sqrt_pos; exact Hm').
  destruct q as [|q|q]; try lia.
  match goal with
  | |- gt (binary_round_aux _ _ _ _ _ ?l) _ = true =>
      pose proof (binary_round_aux_exponent false q e' l) as Hround;
      unfold prec, emax in Hround;
      destruct Hround as [(m'' & e'' & -> & Hge)| ->];
        [lia| |reflexivity]
  end.
  assert (H30 : of_Z 30 = S754_finite false 8444249301319680 (-48))
    by (vm_compute; reflexivity).
  rewrite H30. unfold gt, SFltb, SFcompare. cbv beta iota.
  destruct (Z.compare_spec (-48) e''); reflexivity || lia.
Qed.

Lemma all_from_spec (n : positive) (f : Z -> bool) : forall base z : Z,
  all_from n f base = true -> base <= z < base + Zpos n -> f z = true.
Proof.
  induction n as [q IH|q IH|]; intros base z H Hz; simpl in H.
  - apply andb_true_iff in H. destruct H as [H H2].
    apply andb_true_iff in H. destruct H as [H0 H1].
    destruct (Z.eq_dec z base) as [->|Hne]; [exact H0|].
    destruct (Z_lt_dec z (base + 1 + Zpos q)).
    + apply (IH (base + 1)); [exact H1|lia].
    + apply (IH (base + 1 + Zpos q)); [exact H2|lia].
  - apply andb_true_iff in H. destruct H as [H1 H2].
    destruct (Z_lt_dec z (base + Zpos q)).
    + apply (IH base); [exact H1|lia].
    + apply (IH (base + Zpos q)); [exact H2|lia].
  - replace z with base by lia. exact H.
Qed.

(** Below 1024 the comparison is settled by evaluation. *)
Lemma sqrt_below_1024 : all_from 1024 sqrt_exceeds_30_check 0 = true.
Proof. vm_compute. reflexivity. Qed.

(** The correctly rounded square root of an integer exceeds 30 exactly
    when the integer exceeds 900. *)
Lemma sqrt_exceeds_30 (s : Z) :
  0 <= s < 2 ^ 52 ->
  gt (sqrt (of_Z s)) (of_Z 30) = (900 <? s).
Proof.
  intros Hs. destruct (Z_lt_dec s 1024) as [Hsmall|Hlarge].
  - pose proof (all_from_spec 1024 sqrt_exceeds_30_check 0 s sqrt_below_1024)
      as H.
    unfold sqrt_exceeds_30_check in H.
    apply Bool.eqb_prop. apply H. lia.
  - destruct s as [|p|p]; try lia.
    pose proof (digits2_pos_upper p) as Hu.
    pose proof (digits2_pos_lower p) as Hl.
    assert (Hd : 11 <= Zpos (digits2_pos p) < 53).
    { split.
      - destruct (Z_lt_dec (Zpos (digits2_pos p)) 11) as [Hlt|]; [|lia].
        assert (2 ^ Zpos (digits2_pos p) <= 2 ^ 10)
          by (apply Z.pow_le_mono_r; lia).
        change (2 ^ 10) with 1024 in *. lia.
      - destruct (Z_lt_dec (Zpos (digits2_pos p)) 53) as [|Hge]; [lia|].
        assert (2 ^ 52 <= 2 ^ (Zpos (digits2_pos p) - 1))
          by (apply Z.pow_le_mono_r; lia).
        lia. }
    rewrite (sqrt_above_30 p Hd). symmetry. apply Z.ltb_lt. lia.
Qed.

End NumFacts.

(** ** The pixel classifier *)

Section VisualDiffFacts.

Import VisualDiff.

Lemma countIf_cons (p : nat -> bool) (i : nat) (l : list nat) :
  countIf p (i :: l) = b2z (p i) + countIf p l.
Proof.
  unfold countIf. simpl. destruct (p i); simpl b2z; simpl length; lia.
Qed.

Lemma countIf_nil (p : nat -> bool) : countIf p [] = 0.
Proof. reflexivity. Qed.

Lemma countIf_nonneg (p : nat -> bool) (l : list nat) : 0 <= countIf p l.
Proof. unfold countIf. lia. Qed.

Lemma countIf_false (p : nat -> bool) (l : list nat) :
  (forall i, In i l -> p i = false) -> countIf p l = 0.
Proof.
  induction l as [|i l IH]; intros H; [reflexivity|].
  rewrite countIf_cons, H by (simpl; auto).
  rewrite IH; [reflexivity|]. intros j Hj. apply H. simpl; auto.
Qed.

Variables baselineBuffer currentBuffer : Buffer.
Variable minLength : nat.

Let inRange := pixelInRange minLength.
Let changed := pixelChanged baselineBuffer currentBuffer.
Let highlighted := pixelHighlighted baselineBuffer currentBuffer.
Let increase := pixelIncrease baselineBuffer currentBuffer.
Let unrelated := pixelUnrelated baselineBuffer currentBuffer.

(** One iteration adds one to the counters whose test the pixel passes. *)
Lemma loopBody_step (c : counters) (i : nat) :
  loopBody baselineBuffer currentBuffer minLength c i =
  mkCounters
    (c_totalPixels c + b2z (inRange i))
    (c_changedPixels c + b2z (inRange i && changed i && negb (highlighted i)))
    (c_availabilityIncrease c
     + b2z (inRange i && changed i && negb (highlighted i) && increase i))
    (c_dateHighlightChanges c + b2z (inRange i && changed i && highlighted i))
    (c_nonAvailabilityChanges c
     + b2z (inRange i && changed i && negb (highlighted i)
            && negb (increase i) && unrelated i)).
Proof.
  unfold loopBody, comparePixel, inRange, changed, highlighted, increase,
    unrelated, pixelInRange, pixelChanged, pixelHighlighted, pixelIncrease,
    pixelUnrelated, highlightAt, availableAt, backgroundAt.
  destruct c as [t ch av hl na]; simpl.
  destruct (i + 3 <? minLength)%nat; simpl; [|f_equal; lia].
  destruct (Num.gt _ _); simpl; [|f_equal; lia].
  destruct (isDateHighlight (byteAt currentBuffer i) _ _); simpl;
    [f_equal; lia|].
  destruct (isDateHighlight (byteAt baselineBuffer i) _ _); simpl;
    [f_equal; lia|].
  destruct (isAvailable (byteAt currentBuffer i) _ _),
           (isAvailable (byteAt baselineBuffer i) _ _),
           (isBackground (byteAt baselineBuffer i) _ _);
    simpl; f_equal; lia.
Qed.

(** The loop, over any list of offsets. *)
Lemma fold_loopBody (l : list nat) : forall c : counters,
  fold_left (loopBody baselineBuffer currentBuffer minLength) l c =
  mkCounters
    (c_totalPixels c + countIf inRange l)
    (c_changedPixels c
     + countIf (fun i => inRange i && changed i && negb (highlighted i)) l)
    (c_availabilityIncrease c
     + countIf (fun i => inRange i && changed i && negb (highlighted i)
                         && increase i) l)
    (c_dateHighlightChanges c
     + countIf (fun i => inRange i && changed i && highlighted i) l)
    (c_nonAvailabilityChanges c
     + countIf (fun i => inRange i && changed i && negb (highlighted i)
                         && negb (increase i) && unrelated i) l).
Proof.
  induction l as [|i l IH]; intros c.
  - simpl fold_left. rewrite !countIf_nil. destruct c; simpl; f_equal; lia.
  - simpl fold_left. rewrite IH, loopBody_step, !countIf_cons. simpl.
    f_equal; lia.
Qed.

End VisualDiffFacts.

Section ComparisonFacts.

Import VisualDiff.

(** The counters after the loop, each as the number of pixels that pass
    its tests. *)
Lemma scanPixels_counts (baselineBuffer currentBuffer : Buffer) :
  let n := Nat.min (length baselineBuffer) (length currentBuffer) in
  let changed := pixelChanged baselineBuffer currentBuffer in
  let highlighted := pixelHighlighted baselineBuffer currentBuffer in
  let increase := pixelIncrease baselineBuffer currentBuffer in
  let unrelated := pixelUnrelated baselineBuffer currentBuffer in
  scanPixels baselineBuffer currentBuffer =
  mkCounters
    (countIf (pixelInRange n) (offsets n))
    (countIf (fun i => pixelInRange n i && changed i && negb (highlighted i))
       (offsets n))
    (countIf (fun i => pixelInRange n i && changed i && negb (highlighted i)
                       && increase i) (offsets n))
    (countIf (fun i => pixelInRange n i && changed i && highlighted i)
       (offsets n))
    (countIf (fun i => pixelInRange n i && changed i && negb (highlighted i)
                       && negb (increase i) && unrelated i) (offsets n)).
Proof.
  intros n changed highlighted increase unrelated.
  unfold scanPixels. fold n. rewrite fold_loopBody. reflexivity.
Qed.

(** The loop reads bytes that exist: at a pixel that passes the guard, the
    three colour bytes of both buffers are below [minLength]. *)
Lemma offsets_in_range (baselineBuffer currentBuffer : Buffer) (i k : nat) :
  pixelInRange (Nat.min (length baselineBuffer) (length currentBuffer)) i = true ->
  (k <= 2)%nat ->
  (exists b, baselineBuffer !! (i + k)%nat = Some b)
  /\ (exists b, currentBuffer !! (i + k)%nat = Some b).
Proof.
  unfold pixelInRange. intros H Hk. apply Nat.ltb_lt in H.
  split; apply lookup_lt_is_Some_2; lia.
Qed.

Lemma byteAt_range (buf : Buffer) (i : nat) : 0 <= byteAt buf i < 256.
Proof.
  unfold byteAt. destruct (buf !! i) as [b|]; [|lia].
  pose proof (Byte.to_N_bounded b) as H. lia.
Qed.

(** The test [colorDiff > 30] of the loop, on Numbers, is the test that
    the Euclidean distance of the two colours exceeds 30. *)
Lemma colorDiff_exceeds_30 (cR cG cB bR bG bB : Z) :
  0 <= cR < 256 -> 0 <= cG < 256 -> 0 <= cB < 256 ->
  0 <= bR < 256 -> 0 <= bG < 256 -> 0 <= bB < 256 ->
  Num.gt (colorDiff cR cG cB bR bG bB) (Num.of_Z 30)
  = (900 <? (cR - bR) ^ 2 + (cG - bG) ^ 2 + (cB - bB) ^ 2).
Proof.
  intros H1 H2 H3 H4 H5 H6. unfold colorDiff.
  apply sqrt_exceeds_30.
  assert (Hsq : forall x y, 0 <= x < 256 -> 0 <= y < 256 ->
                            0 <= (x - y) ^ 2 <= 65025).
  { intros x y Hx Hy. rewrite Z.pow_2_r.
    set (d := x - y). assert (Hd : -255 <= d <= 255) by (unfold d; lia).
    clearbody d. split; [apply Z.square_nonneg|].
    assert (0 <= (255 - d) * (255 + d))
      by (apply Z.mul_nonneg_nonneg; lia).
    nia. }
  pose proof (Hsq cR bR H1 H4). pose proof (Hsq cG bG H2 H5).
  pose proof (Hsq cB bB H3 H6).
  change (2 ^ 52) with 4503599627370496. lia.
Qed.

Lemma pixelChanged_distance (baselineBuffer currentBuffer : Buffer) (i : nat) :
  pixelChanged baselineBuffer currentBuffer i
  = (900 <? squaredDistance baselineBuffer currentBuffer i).
Proof.
  unfold pixelChanged, squaredDistance.
  apply colorDiff_exceeds_30; apply byteAt_range.
Qed.

Lemma offsets_head (n : nat) :
  (1 <= n)%nat -> exists l, offsets n = 0%nat :: l.
Proof.
  intros Hn. unfold offsets.
  assert (H : (1 <= (n + 3) / 4)%nat) by (apply Nat.div_le_lower_bound; lia).
  destruct ((n + 3) / 4)%nat as [|k]; [lia|].
  simpl. eauto.
Qed.

(** Every colour of the first (neutral) availability band is a highlight
    colour; an available colour that is no highlight is in the tan band,
    with blue at most 200. *)
Lemma available_not_highlight (r g b : Z) :
  isAvailable r g b = true -> isDateHighlight r g b = false ->
  210 <= r <= 235 /\ 205 <= g <= 230 /\ 190 <= b <= 200 /\ b + 10 < r.
Proof.
  unfold isAvailable, isDateHighlight. intros Ha Hh.
  repeat (apply orb_false_iff in Hh; destruct Hh as [? Hh]).
  repeat match goal with
         | H : (_ && _) = false |- _ => apply andb_false_iff in H
         | H : (_ || _) = true |- _ => apply orb_true_iff in H
         | H : (_ && _) = true |- _ => apply andb_true_iff in H; destruct H
         | H : (_ <? _) = true |- _ => apply Z.ltb_lt in H
         | H : (_ <=? _) = true |- _ => apply Z.leb_le in H
         | H : (_ <? _) = false |- _ => apply Z.ltb_ge in H
         | H : (_ <=? _) = false |- _ => apply Z.leb_gt in H
         end.
  lia.
Qed.

(** A changed pixel pair with a highlight pixel on either side only moves
    the discard counter. *)
Lemma comparePixel_highlight_discarded (cR cG cB bR bG bB : Z) (c : counters) :
  Num.gt (colorDiff cR cG cB bR bG bB) (Num.of_Z 30) = true ->
  isDateHighlight cR cG cB || isDateHighlight bR bG bB = true ->
  comparePixel cR cG cB bR bG bB c =
  mkCounters (c_totalPixels c + 1) (c_changedPixels c)
    (c_availabilityIncrease c) (c_dateHighlightChanges c + 1)
    (c_nonAvailabilityChanges c).
Proof.
  intros Hd Hh. unfold comparePixel. rewrite Hd. simpl. rewrite Hh. reflexivity.
Qed.

Lemma colorDiff_same (r g b : Z) :
  Num.gt (colorDiff r g b r g b) (Num.of_Z 30) = false.
Proof. unfold colorDiff. rewrite !Z.sub_diag. vm_compute. reflexivity. Qed.

Lemma percentOf_zero (total : Z) :
  0 < total -> percentOf 0 total = S754_zero false.
Proof.
  intros Ht. unfold percentOf.
  destruct (of_Z_positive total Ht) as [(m & e & H)|H]; rewrite H;
    reflexivity.
Qed.

Lemma percentOf_zero_zero : percentOf 0 0 = Num.NaN.
Proof. vm_compute. reflexivity. Qed.

End ComparisonFacts.

Section ComparisonClaims.

Import VisualDiff.
Import Monitor.

(** C7 (noise immunity). Whatever the two buffers, [changedPixels] counts
    exactly the pixel pairs whose colour distance exceeds 30 and of which
    neither side is a highlight pixel, and the discard counter
    [dateHighlightChanges] counts exactly the pairs whose distance exceeds 30
    and of which either side is a highlight pixel: such a pair is never in
    [changedPixels], however large its distance, nor in the two counters
    that refine [changedPixels]. The distance exceeds 30 exactly when the
    sum of the squares of the three colour differences exceeds 900. *)
Theorem highlight_pixels_excluded_from_changedPixels
    (baselineBuffer currentBuffer : Buffer) :
  let n := Nat.min (length baselineBuffer) (length currentBuffer) in
  let changed := pixelChanged baselineBuffer currentBuffer in
  let highlighted := pixelHighlighted baselineBuffer currentBuffer in
  let r := performVisualComparison baselineBuffer currentBuffer in
  changedPixels r =
    countIf (fun i => pixelInRange n i && changed i && negb (highlighted i))
      (offsets n)
  /\ dateHighlightChanges r =
       countIf (fun i => pixelInRange n i && changed i && highlighted i)
         (offsets n)
  /\ availabilityIncrease r =
       countIf (fun i => pixelInRange n i && changed i && negb (highlighted i)
                         && pixelIncrease baselineBuffer currentBuffer i)
         (offsets n)
  /\ nonAvailabilityChanges r =
       countIf (fun i => pixelInRange n i && changed i && negb (highlighted i)
                         && negb (pixelIncrease baselineBuffer currentBuffer i)
                         && pixelUnrelated baselineBuffer currentBuffer i)
         (offsets n)
  /\ (forall i : nat,
        changed i = (900 <? squaredDistance baselineBuffer currentBuffer i)).
Proof.
  intros n changed highlighted r. subst r.
  unfold performVisualComparison.
  rewrite scanPixels_counts. fold n. simpl.
  repeat split. intros i. apply pixelChanged_distance.
Qed.

(** C1 (minimal trigger), as the code has it. For two one-pixel images
    that differ in their colour only, baseline (255,255,255) and current
    (225,225,220), the pair is discarded as date highlighting: both colours
    are highlight colours. No pixel is counted as changed or as an
    availability increase, both ratios print as 0.000 and nothing is
    notified. *)
Theorem minimal_trigger_is_discarded (a : Byte.byte) :
  let r := performVisualComparison (rgba 255 255 255 a) (rgba 225 225 220 a) in
  totalPixels r = 1
  /\ dateHighlightChanges r = 1
  /\ changedPixels r = 0
  /\ availabilityIncrease r = 0
  /\ Num.fixed_text (availabilityScore r) = Some "0.000"%string
  /\ Num.fixed_text (changePercentage r) = Some "0.000"%string
  /\ shouldNotify (compared r) = false.
Proof.
  destruct a; vm_compute; repeat split; reflexivity.
Qed.

(** C1, as stated, fails on the image pair it names. *)
Lemma minimal_trigger_counterexample :
  let r := performVisualComparison
             (rgba 255 255 255 Byte.xff) (rgba 225 225 220 Byte.xff) in
  ~ (availabilityIncrease r = 1
     /\ Num.fixed_text (availabilityScore r) = Some "100.000"%string
     /\ shouldNotify (compared r) = true).
Proof.
  vm_compute. intros (H & _). discriminate H.
Qed.

(** A one-pixel pair that does trigger: a dark baseline and a colour of
    the tan band that is no highlight. *)
Example tan_pixel_triggers :
  let r := performVisualComparison
             (rgba 100 100 100 Byte.xff) (rgba 230 205 190 Byte.xff) in
  availabilityIncrease r = 1
  /\ Num.fixed_text (availabilityScore r) = Some "100.000"%string
  /\ shouldNotify (compared r) = true.
Proof. vm_compute. repeat split; reflexivity. Qed.

Lemma scanPixels_same (b : Buffer) :
  scanPixels b b =
  mkCounters (countIf (pixelInRange (length b)) (offsets (length b))) 0 0 0 0.
Proof.
  rewrite scanPixels_counts. rewrite Nat.min_id.
  assert (Hc : forall i, pixelChanged b b i = false)
    by (intros i; apply colorDiff_same).
  f_equal; apply countIf_false; intros i _; rewrite Hc;
    rewrite ?andb_false_r; reflexivity.
Qed.

Lemma comparisonOf_unchanged (total : Z) :
  0 <= total ->
  let r := comparisonOf (mkCounters total 0 0 0 0) in
  changedPixels r = 0
  /\ significantChange r = false
  /\ likelyNewAvailability r = false
  /\ (0 < total -> changePercentage r = Num.FxDecimal false 0).
Proof.
  intros Ht. unfold comparisonOf. simpl.
  assert (Hs : Num.gt (percentOf 0 total) (Num.of_Z 2) = false).
  { destruct (Z.eq_dec total 0) as [->|Hne].
    - rewrite percentOf_zero_zero. reflexivity.
    - rewrite percentOf_zero by lia. reflexivity. }
  repeat split; try assumption.
  intros Hpos. rewrite percentOf_zero by assumption. reflexivity.
Qed.

(** C3 (idempotence), as the code has it. Comparing a buffer against
    itself counts no changed pixel and never notifies; when the buffer
    holds at least one whole pixel (four bytes) the change percentage is 0,
    printed 0.000. *)
Theorem self_comparison_never_notifies (b : Buffer) :
  let r := performVisualComparison b b in
  changedPixels r = 0
  /\ significantChange r = false
  /\ likelyNewAvailability r = false
  /\ shouldNotify (compared r) = false
  /\ ((4 <= length b)%nat ->
      changePercentage r = Num.FxDecimal false 0
      /\ Num.fixed_text (changePercentage r) = Some "0.000"%string).
Proof.
  intros r. subst r. unfold performVisualComparison.
  rewrite scanPixels_same.
  set (total := countIf (pixelInRange (length b)) (offsets (length b))).
  assert (Ht : 0 <= total) by apply countIf_nonneg.
  destruct (comparisonOf_unchanged total Ht) as (H1 & H2 & H3 & H4).
  repeat split; try assumption.
  - cbn [compared shouldNotify]. rewrite H2. reflexivity.
  - apply H4. subst total.
    destruct (offsets_head (length b)) as [l Hl]; [lia|].
    rewrite Hl, countIf_cons.
    assert (Hr : pixelInRange (length b) 0 = true)
      by (apply Nat.ltb_lt; lia).
    rewrite Hr. pose proof (countIf_nonneg (pixelInRange (length b)) l).
    simpl b2z. lia.
  - rewrite H4; [reflexivity|]. subst total.
    destruct (offsets_head (length b)) as [l Hl]; [lia|].
    rewrite Hl, countIf_cons.
    assert (Hr : pixelInRange (length b) 0 = true)
      by (apply Nat.ltb_lt; lia).
    rewrite Hr. pose proof (countIf_nonneg (pixelInRange (length b)) l).
    simpl b2z. lia.
Qed.

Lemma self_comparison_never_notifies_witness :
  (4 <= length (rgba 10 20 30 Byte.xff))%nat
  /\ changePercentage
       (performVisualComparison (rgba 10 20 30 Byte.xff) (rgba 10 20 30 Byte.xff))
     = Num.FxDecimal false 0.
Proof.
  split; [simpl; lia|].
  apply (self_comparison_never_notifies (rgba 10 20 30 Byte.xff)).
  simpl; lia.
Defined.

(** C3, as stated, fails on the empty buffer: no pixel is sampled and the
    change percentage is 0/0, not 0. *)
Lemma self_comparison_counterexample :
  let r := performVisualComparison [] [] in
  totalPixels r = 0
  /\ percentOf (changedPixels r) (totalPixels r) = Num.NaN
  /\ changePercentage r = Num.FxNaN
  /\ changePercentage r <> Num.FxDecimal false 0.
Proof. vm_compute. repeat split; try reflexivity. discriminate. Qed.

(** C9. When the shorter buffer has fewer than four bytes no pixel is
    sampled, both ratios are 0/0, and the comparison still returns, with
    [significantChange], [likelyNewAvailability] and [shouldNotify] all
    false. *)
Theorem degenerate_capture_never_notifies
    (baselineBuffer currentBuffer : Buffer) :
  (Nat.min (length baselineBuffer) (length currentBuffer) < 4)%nat ->
  let r := performVisualComparison baselineBuffer currentBuffer in
  totalPixels r = 0
  /\ percentOf (changedPixels r) (totalPixels r) = Num.NaN
  /\ percentOf (availabilityIncrease r) (totalPixels r) = Num.NaN
  /\ changePercentage r = Num.FxNaN
  /\ availabilityScore r = Num.FxNaN
  /\ significantChange r = false
  /\ likelyNewAvailability r = false
  /\ shouldNotify (compared r) = false
  /\ shouldUpdateBaseline (compared r) = false.
Proof.
  intros Hn r. subst r. unfold performVisualComparison.
  rewrite scanPixels_counts.
  set (n := Nat.min (length baselineBuffer) (length currentBuffer)) in *.
  assert (Hr : forall i, pixelInRange n i = false).
  { intros i. unfold pixelInRange. apply Nat.ltb_ge. lia. }
  rewrite !countIf_false by (intros i _; rewrite Hr; reflexivity).
  vm_compute. repeat split; reflexivity.
Qed.

Lemma degenerate_capture_never_notifies_witness :
  (Nat.min (length (bytes [1; 2; 3]%N)) (length (rgba 230 205 190 Byte.xff)) < 4)%nat
  /\ shouldNotify
       (compared (performVisualComparison (bytes [1; 2; 3]%N)
                    (rgba 230 205 190 Byte.xff))) = false.
Proof.
  split; [simpl; lia|].
  apply (degenerate_capture_never_notifies (bytes [1; 2; 3]%N)
           (rgba 230 205 190 Byte.xff)).
  simpl; lia.
Defined.

End ComparisonClaims.

(** ** Baselines and the throttle *)

Section StoreFacts.

Import VisualDiff.
Import Monitor.

Variable Page : Type.

Ltac run :=
  unfold compareWithBaseline, saveBaseline, readBaseline, checkNotificationLimit,
    logNotification, readNotificationLog, jsFilter, jsPush, consoleLog, modify,
    get, bind, tryCatch, ret, throw; simpl.

Lemma savesOf_app (key : string) (c1 c2 : list LogLine) :
  savesOf key (c1 ++ c2) = (savesOf key c1 + savesOf key c2)%nat.
Proof. unfold savesOf. rewrite List.filter_app, length_app. reflexivity. Qed.

Lemma comparisonsIn_app (c1 c2 : list LogLine) :
  comparisonsIn (c1 ++ c2) = (comparisonsIn c1 + comparisonsIn c2)%nat.
Proof. unfold comparisonsIn. rewrite List.filter_app, length_app. reflexivity. Qed.

(** Without a stored baseline, [compareWithBaseline] saves the screenshot
    and returns the baseline-created object. *)
Lemma compareWithBaseline_missing (monthData : MonthData) (shot : Buffer)
    (w : World Page) :
  baselines w !! m_key monthData = None ->
  compareWithBaseline Page monthData shot w =
  (Ok (baselineCreated monthData),
   set_console
     (console w ++ [LogNoBaseline (m_key monthData)]
      ++ [LogBaselineSaved (m_key monthData)])
     (set_baselines (<[m_key monthData := shot]> (baselines w)) w)).
Proof.
  intros H. run. rewrite H. simpl.
  rewrite <- app_assoc. reflexivity.
Qed.

(** With a stored baseline, it compares and saves nothing. *)
Lemma compareWithBaseline_present (monthData : MonthData) (shot base : Buffer)
    (w : World Page) :
  baselines w !! m_key monthData = Some base ->
  compareWithBaseline Page monthData shot w =
  (Ok (compared (performVisualComparison base shot)),
   set_console (console w ++ [LogComparing (m_name monthData)]) w).
Proof. intros H. run. rewrite H. reflexivity. Qed.

Lemma compareWithBaseline_returns (monthData : MonthData) (shot : Buffer)
    (w : World Page) :
  exists c w', compareWithBaseline Page monthData shot w = (Ok c, w')
               /\ page w' = page w.
Proof.
  destruct (baselines w !! m_key monthData) as [base|] eqn:E.
  - rewrite (compareWithBaseline_present _ _ base) by assumption. eauto.
  - rewrite compareWithBaseline_missing by assumption. eauto.
Qed.

(** *** [checkNotificationLimit] *)

Lemma filterEntries_records (p : option Z -> bool) (l : list LogEntry) :
  forallb isRecord l = true ->
  filterEntries p l =
  Ok (List.filter (fun e => match e with
                            | EntryRecord t => p t
                            | EntryNull => false
                            end) l).
Proof.
  induction l as [|[|t] l IH]; simpl; intros H; try discriminate.
  - reflexivity.
  - rewrite IH by assumption. destruct (p t); reflexivity.
Qed.

Lemma filterEntries_null (p : option Z -> bool) (l : list LogEntry) :
  In EntryNull l -> exists e, filterEntries p l = Throw e.
Proof.
  induction l as [|[|t] l IH]; simpl; intros H.
  - contradiction.
  - eauto.
  - destruct H as [H|H]; [discriminate|].
    destruct (IH H) as [e ->]. eauto.
Qed.

Lemma checkNotificationLimit_records (w : World Page) :
  recordsOnly (notifications w) = true ->
  fst (checkNotificationLimit Page w) =
  Ok (recordsToday (tzOffset w) (clock w) (notifications w)
      <? MAX_DAILY_NOTIFICATIONS)%nat.
Proof.
  intros H. run.
  destruct (notifications w) as [| | |l] eqn:E; simpl; try reflexivity.
  simpl in H. rewrite filterEntries_records by assumption. simpl.
  reflexivity.
Qed.

Lemma checkNotificationLimit_fails_open (w : World Page) :
  notifications w = LogMissing \/ notifications w = LogUnparsable
  \/ notifications w = LogNotArray
  \/ (exists l, notifications w = LogArray l /\ In EntryNull l) ->
  fst (checkNotificationLimit Page w) = Ok true.
Proof.
  intros [H|[H|[H|(l & H & Hn)]]]; run; rewrite H; simpl; try reflexivity.
  destruct (filterEntries_null (isToday (tzOffset w) (clock w)) l Hn) as [e ->].
  reflexivity.
Qed.


Lemma isRecent_now (now : Z) : isRecent now (Some now) = true.
Proof. unfold isRecent, msPerDay. apply Z.ltb_lt. lia. Qed.

Lemma filter_recent_records (now : Z) (l : list LogEntry) :
  forallb isRecord (List.filter (recentEntry now) l) = true.
Proof.
  induction l as [|[|t] l IH]; simpl; [reflexivity|assumption|].
  destruct (isRecent now t); simpl; assumption.
Qed.

(** [logNotification] on a log that can be extended: the old entries that
    are less than seven days old, then the new record. *)
Lemma logNotification_writes (w : World Page) :
  recordsOnly (notifications w) = true ->
  notifications w <> LogNotArray ->
  logNotification Page w =
  (Ok tt,
   set_console (console w ++ [LogNotificationLogged])
     (set_notifications
        (LogArray (List.filter (recentEntry (clock w))
                     (entriesOf (notifications w))
                   ++ [EntryRecord (Some (clock w))]))
        w)).
Proof.
  intros H Hn. pose proof (isRecent_now (clock w)) as Hr.
  run. unfold isRecent in Hr.
  destruct (notifications w) as [| | |l] eqn:E; simpl;
    try congruence; try (rewrite Hr; reflexivity).
  simpl in H.
  rewrite filterEntries_records
    by (rewrite forallb_app, H; reflexivity).
  simpl. rewrite List.filter_app. simpl. rewrite Hr. reflexivity.
Qed.

(** Both throttle operations return; the first one only writes to the
    console, the second one to the console and the log. *)
Lemma checkNotificationLimit_returns (w : World Page) :
  exists b c, checkNotificationLimit Page w = (Ok b, set_console c w).
Proof.
  run. destruct (notifications w) as [| | |l]; simpl; eauto.
  destruct (filterEntries _ l); simpl; eauto.
Qed.

Lemma logNotification_returns (w : World Page) :
  exists n c,
    logNotification Page w = (Ok tt, set_console c (set_notifications n w)).
Proof.
  run. destruct w as [bs n t tz ep ps c u p pg]; simpl.
  destruct n as [| | |l]; simpl;
    try (eexists _, _; unfold set_console, set_notifications; simpl;
         reflexivity).
  destruct (filterEntries _ _); simpl;
    eexists _, _; unfold set_console, set_notifications; simpl; reflexivity.
Qed.

Lemma todays_filter_app (tz now : Z) (l1 l2 : list LogEntry) :
  length (List.filter (isTodaysRecord tz now) (l1 ++ l2)) =
  (length (List.filter (isTodaysRecord tz now) l1)
   + length (List.filter (isTodaysRecord tz now) l2))%nat.
Proof. rewrite List.filter_app, length_app. reflexivity. Qed.

Lemma localDay_mono (tz t1 t2 : Z) :
  t1 <= t2 -> localDay tz t1 <= localDay tz t2.
Proof.
  intros H. unfold localDay, msPerDay. apply Z.div_le_mono; lia.
Qed.

(** On a later day no record that is not after [now] is of that day. *)
Lemma no_record_on_later_day (tz now later : Z) (l : list LogEntry) :
  forallb (notAfter now) l = true ->
  localDay tz now < localDay tz later ->
  List.filter (isTodaysRecord tz later) l = [].
Proof.
  intros H Hd. induction l as [|e l IH]; [reflexivity|].
  simpl in H. apply andb_true_iff in H. destruct H as [He Hl].
  simpl. rewrite (IH Hl).
  destruct e as [|[t|]]; simpl; try reflexivity.
  simpl in He. apply Z.leb_le in He.
  pose proof (localDay_mono tz t now He).
  destruct (Z.eqb_spec (localDay tz t) (localDay tz later)); [lia|reflexivity].
Qed.

Lemma notAfter_filter (now : Z) (p : LogEntry -> bool) (l : list LogEntry) :
  forallb (notAfter now) l = true ->
  forallb (notAfter now) (List.filter p l) = true.
Proof.
  induction l as [|e l IH]; simpl; [reflexivity|].
  intros H. apply andb_true_iff in H. destruct H as [He Hl].
  destruct (p e); simpl; rewrite ?He; auto.
Qed.


Lemma isTodaysRecord_now (tz now : Z) :
  isTodaysRecord tz now (EntryRecord (Some now)) = true.
Proof. simpl. apply Z.eqb_refl. Qed.

Lemma recent_now_kept (now : Z) :
  List.filter (recentEntry now) [EntryRecord (Some now)]
  = [EntryRecord (Some now)].
Proof.
  pose proof (isRecent_now now) as H.
  cbn [List.filter recentEntry]. rewrite H. reflexivity.
Qed.

Lemma today_now_counted (tz now : Z) :
  length (List.filter (isTodaysRecord tz now) [EntryRecord (Some now)]) = 1%nat.
Proof.
  pose proof (isTodaysRecord_now tz now) as H.
  cbn [List.filter]. rewrite H. reflexivity.
Qed.

(** C5 (throttle cap). On a log whose entries are records (or that does
    not exist yet), [canSend] is true exactly when fewer than two records
    carry today's date. Once two notifications have been logged today, the
    next [canSend] is false; and on any later day, when those records no
    longer carry the date of the day, it is true again. *)
Theorem throttle_cap (w : World Page) :
  recordsOnly (notifications w) = true ->
  fst (checkNotificationLimit Page w) =
    Ok (recordsToday (tzOffset w) (clock w) (notifications w) <? 2)%nat
  /\ (notifications w <> LogNotArray ->
      let w2 := snd (logNotification Page (snd (logNotification Page w))) in
      (2 <= recordsToday (tzOffset w) (clock w) (notifications w2))%nat
      /\ fst (checkNotificationLimit Page w2) = Ok false
      /\ forall later : Z,
           noFutureRecord (clock w) (notifications w) = true ->
           localDay (tzOffset w) (clock w) < localDay (tzOffset w) later ->
           fst (checkNotificationLimit Page (set_clock later w2)) = Ok true).
Proof.
  intros H. split; [apply checkNotificationLimit_records; assumption|].
  intros Hn w2. subst w2.
  rewrite (logNotification_writes w) by assumption. simpl snd.
  set (now := clock w). set (tz := tzOffset w).
  set (l1 := List.filter (recentEntry now) (entriesOf (notifications w))
             ++ [EntryRecord (Some now)]).
  set (w1 := set_console _ (set_notifications (LogArray l1) w)).
  assert (H1 : recordsOnly (notifications w1) = true).
  { simpl. unfold l1. rewrite forallb_app, filter_recent_records. reflexivity. }
  rewrite (logNotification_writes w1) by (assumption || (simpl; discriminate)).
  simpl snd.
  fold now.
  set (l2 := List.filter (recentEntry now) l1 ++ [EntryRecord (Some now)]).
  set (w2 := set_console _ (set_notifications (LogArray l2) w1)).
  assert (H2 : recordsOnly (notifications w2) = true).
  { simpl. unfold l2. rewrite forallb_app, filter_recent_records. reflexivity. }
  assert (Hc : (2 <= recordsToday tz now (LogArray l2))%nat).
  { unfold recordsToday, l2, l1.
    rewrite (List.filter_app (recentEntry now)), recent_now_kept,
      !todays_filter_app, today_now_counted. lia. }
  split; [exact Hc|]. split.
  - rewrite checkNotificationLimit_records by assumption.
    change (tzOffset w2) with tz. change (clock w2) with now.
    change (notifications w2) with (LogArray l2).
    f_equal. apply Nat.ltb_ge. exact Hc.
  - intros later Hf Hd.
    rewrite checkNotificationLimit_records by assumption.
    change (tzOffset (set_clock later w2)) with tz.
    change (clock (set_clock later w2)) with later.
    change (notifications (set_clock later w2)) with (LogArray l2).
    f_equal. apply Nat.ltb_lt. simpl.
    rewrite (no_record_on_later_day tz now later);
      [unfold MAX_DAILY_NOTIFICATIONS; simpl; lia| |assumption].
    assert (Hes : forallb (notAfter now) (entriesOf (notifications w)) = true).
    { unfold noFutureRecord in Hf. fold now in Hf.
      destruct (notifications w); simpl; auto. }
    assert (Hnow : notAfter now (EntryRecord (Some now)) = true)
      by (simpl; apply Z.leb_le; lia).
    assert (Hl1 : forallb (notAfter now) l1 = true).
    { unfold l1. rewrite forallb_app. apply andb_true_iff. split.
      - apply notAfter_filter. exact Hes.
      - cbn [forallb]. rewrite Hnow. reflexivity. }
    unfold l2. rewrite forallb_app. apply andb_true_iff. split.
    + apply notAfter_filter. exact Hl1.
    + cbn [forallb]. rewrite Hnow. reflexivity.
Qed.

(** C10 (the throttle fails open). When the log cannot be read or parsed,
    and also when what it holds is no array or has a null entry, [canSend]
    is true, whatever else the log holds; the webhook is then posted. *)
Theorem throttle_fails_open (w : World Page) (results : RunResults) :
  notifications w = LogMissing \/ notifications w = LogUnparsable
  \/ notifications w = LogNotArray
  \/ (exists l, notifications w = LogArray l /\ In EntryNull l) ->
  fst (checkNotificationLimit Page w) = Ok true
  /\ (endpoint w = FetchOk ->
      posted (snd (sendWebhookNotification Page results w))
      = posted w ++ [payloadOf results]).
Proof.
  intros H. pose proof (checkNotificationLimit_fails_open w H) as Hc.
  split; [exact Hc|]. intros He.
  unfold sendWebhookNotification, tryCatch, bind.
  destruct (checkNotificationLimit_returns w) as (b & c & Hr).
  rewrite Hr in Hc |- *. simpl in Hc. injection Hc as ->. simpl.
  unfold consoleLog, modify, fetch. simpl. rewrite He. simpl.
  match goal with
  | |- context [logNotification Page ?w'] =>
      destruct (logNotification_returns w') as (n & c' & ->)
  end.
  reflexivity.
Qed.

End StoreFacts.

(** ** The run *)

Section RunFacts.

Import VisualDiff.
Import Monitor.

Variable Page : Type.
Variable launchBrowser : Page -> Result unit * Page.
Variable doLogin : string -> string -> Page -> Result unit * Page.
Variable captureMonth : MonthData -> Page -> Result Buffer * Page.
Variable closeBrowser : Page -> Page.
Variable getMonthsToCheck : Z -> Z -> list MonthData.

Lemma quiet_refl (w : World Page) : quiet w w.
Proof. repeat split. Qed.

Lemma quiet_trans (w1 w2 w3 : World Page) :
  quiet w1 w2 -> quiet w2 w3 -> quiet w1 w3.
Proof.
  intros (A1 & B1 & C1 & D1) (A2 & B2 & C2 & D2).
  split; [congruence|]. split; [congruence|]. split; [|congruence].
  intros key. rewrite C2. apply C1.
Qed.

Lemma captureAttempts_quiet (monthData : MonthData) (maxRetries : nat)
    (retriesLeft : nat) : forall (attempt : nat) (w : World Page),
  quiet w
    (snd (captureAttempts Page captureMonth monthData maxRetries retriesLeft
            attempt w)).
Proof.
  induction retriesLeft as [|n IH]; intros attempt w;
    simpl; unfold tryCatch, onPage, bind, consoleLog, modify, throw;
    destruct (captureMonth monthData (page w)) as [[shot|e] p]; simpl.
  - repeat split.
  - repeat split; simpl.
    + intros key. rewrite savesOf_app. unfold savesOf. simpl. lia.
    + rewrite comparisonsIn_app. unfold comparisonsIn. simpl. lia.
  - repeat split.
  - eapply quiet_trans; [|apply IH].
    repeat split; simpl.
    + intros key. rewrite savesOf_app. unfold savesOf. simpl. lia.
    + rewrite comparisonsIn_app. unfold comparisonsIn. simpl. lia.
Qed.

Lemma captureMonthWithRetry_quiet (monthData : MonthData) (w : World Page) :
  quiet w (snd (captureMonthWithRetry Page captureMonth monthData w)).
Proof. apply captureAttempts_quiet. Qed.

(** Three failed attempts in a row: two retries are announced, with delays
    of one and two seconds, and the third error is thrown. *)
Lemma capture_fails_after_three (monthData : MonthData) (w : World Page)
    (e1 e2 e3 : Error) (p1 p2 p3 : Page) :
  captureMonth monthData (page w) = (Throw e1, p1) ->
  captureMonth monthData p1 = (Throw e2, p2) ->
  captureMonth monthData p2 = (Throw e3, p3) ->
  captureMonthWithRetry Page captureMonth monthData w =
  (Throw e3,
   set_console
     (console w
      ++ [LogRetry 1 3 (m_name monthData) 1000;
          LogRetry 2 3 (m_name monthData) 2000;
          LogFinalAttemptFailed (m_name monthData) e3])
     (set_page p3 w)).
Proof.
  intros H1 H2 H3.
  unfold captureMonthWithRetry. simpl.
  unfold tryCatch, onPage, bind, consoleLog, modify, throw. simpl.
  rewrite H1. simpl. rewrite H2. simpl. rewrite H3. simpl.
  rewrite <- !app_assoc. reflexivity.
Qed.

(** One iteration of the loop always returns, with one more result, for
    the month of the iteration. *)
Lemma processMonth_returns (results : list MonthResult) (month : MonthData)
    (w : World Page) :
  exists r w',
    processMonth Page captureMonth results month w = (Ok (results ++ [r]), w')
    /\ r_month r = m_key month
    /\ (r_error r <> None -> r_shouldNotify r = false).
Proof.
  unfold processMonth, bind, tryCatch, consoleLog, modify. simpl.
  destruct (captureMonthWithRetry Page captureMonth month _)
    as [[shot|e] w1] eqn:Ec.
  - destruct (compareWithBaseline_returns Page month shot w1)
      as (c & w2 & Hc & _).
    rewrite Hc. unfold ret, saveBaseline, bind, modify, consoleLog.
    destruct (shouldUpdateBaseline c); simpl;
      eexists _, _; (split; [reflexivity|]); simpl; split; congruence.
  - simpl. unfold ret. eexists _, _. split; [reflexivity|].
    simpl. split; reflexivity.
Qed.

Lemma processMonth_capture_fails (results : list MonthResult)
    (month : MonthData) (w w1 : World Page) (e : Error) :
  captureMonthWithRetry Page captureMonth month (processing Page month w)
    = (Throw e, w1) ->
  processMonth Page captureMonth results month w =
  (Ok (results ++ [errorResult month e]),
   set_console (console w1 ++ [LogErrorProcessing (m_name month) e]) w1).
Proof.
  intros H. unfold processMonth, bind, tryCatch, consoleLog, modify. simpl.
  unfold processing in H. rewrite H. reflexivity.
Qed.

Lemma forEachMonth_app (l1 l2 : list MonthData) :
  forall (results : list MonthResult) (w : World Page),
  forEachMonth Page captureMonth (l1 ++ l2) results w =
  match forEachMonth Page captureMonth l1 results w with
  | (Ok rs, w') => forEachMonth Page captureMonth l2 rs w'
  | (Throw e, w') => (Throw e, w')
  end.
Proof.
  induction l1 as [|m l1 IH]; intros results w; simpl.
  - reflexivity.
  - unfold bind.
    destruct (processMonth Page captureMonth results m w) as [[rs|e] w'].
    + apply IH.
    + reflexivity.
Qed.

(** The loop returns, with one result a month, in the order of the
    months. *)
Lemma forEachMonth_returns (months : list MonthData) :
  forall (results : list MonthResult) (w : World Page),
  exists rs w',
    forEachMonth Page captureMonth months results w = (Ok (results ++ rs), w')
    /\ List.map r_month rs = List.map m_key months
    /\ Forall (fun r => r_error r <> None -> r_shouldNotify r = false) rs.
Proof.
  induction months as [|m months IH]; intros results w; simpl.
  - exists [], w. rewrite app_nil_r. repeat split; constructor.
  - unfold bind.
    destruct (processMonth_returns results m w) as (r & w1 & -> & Hk & Hn).
    destruct (IH (results ++ [r]) w1) as (rs & w2 & -> & Hks & Hns).
    exists (r :: rs), w2. rewrite <- app_assoc. simpl.
    repeat split; [congruence|]. constructor; assumption.
Qed.

Lemma sendWebhookNotification_returns (results : RunResults) (w : World Page) :
  exists w', sendWebhookNotification Page results w = (Ok tt, w').
Proof.
  unfold sendWebhookNotification, tryCatch, bind.
  destruct (checkNotificationLimit_returns Page w) as (b & c & ->).
  destruct b; simpl.
  - unfold consoleLog, modify, fetch. simpl.
    destruct (endpoint w); simpl; eauto.
    match goal with
    | |- context [logNotification Page ?w'] =>
        destruct (logNotification_returns Page w') as (n & c' & ->)
    end.
    eauto.
  - unfold consoleLog, modify. simpl. eauto.
Qed.


Lemma savesOf_bootstrap (key k : string) (c : list LogLine) :
  savesOf key (c ++ [LogNoBaseline k; LogBaselineSaved key]) = S (savesOf key c).
Proof.
  rewrite savesOf_app. unfold savesOf. simpl. rewrite String.eqb_refl.
  simpl. lia.
Qed.

Lemma comparisonsIn_bootstrap (k k' : string) (c : list LogLine) :
  comparisonsIn (c ++ [LogNoBaseline k; LogBaselineSaved k']) = comparisonsIn c.
Proof. rewrite comparisonsIn_app. unfold comparisonsIn. simpl. lia. Qed.

Lemma console_processing (month : MonthData) (w : World Page) (key : string) :
  savesOf key (console (processing Page month w)) = savesOf key (console w)
  /\ comparisonsIn (console (processing Page month w))
     = comparisonsIn (console w).
Proof.
  unfold processing. simpl. rewrite savesOf_app, comparisonsIn_app.
  unfold savesOf, comparisonsIn. simpl. lia.
Qed.

Lemma savesOf_snoc_other (key : string) (c : list LogLine) (l : LogLine) :
  isSaveOf key l = false -> savesOf key (c ++ [l]) = savesOf key c.
Proof.
  intros H. rewrite savesOf_app. unfold savesOf at 2. simpl. rewrite H.
  simpl. lia.
Qed.

(** The iteration for another period saves nothing under [key]. *)
Lemma processMonth_other_key (key : string) (results : list MonthResult)
    (month : MonthData) (w : World Page) :
  m_key month <> key ->
  savesOf key (console (snd (processMonth Page captureMonth results month w)))
  = savesOf key (console w).
Proof.
  intros Hk.
  assert (Hs : isSaveOf key (LogBaselineSaved (m_key month)) = false)
    by (simpl; apply String.eqb_neq; assumption).
  unfold processMonth, bind, tryCatch, consoleLog, modify. simpl.
  pose proof (captureMonthWithRetry_quiet month
                (processing Page month w)) as (_ & _ & Hq & _).
  specialize (Hq key).
  destruct (console_processing month w key) as (Hp & _).
  unfold processing in Hq, Hp. simpl in Hp.
  destruct (captureMonthWithRetry Page captureMonth month _)
    as [[shot|e] w1]; simpl in Hq |- *.
  - destruct (baselines w1 !! m_key month) as [base|] eqn:Eb.
    + rewrite (compareWithBaseline_present Page month shot base w1 Eb).
      unfold ret, saveBaseline, bind, modify, consoleLog.
      destruct (shouldUpdateBaseline _); simpl;
        rewrite ?(savesOf_snoc_other key _ _ Hs),
                (savesOf_snoc_other key _ (LogComparing (m_name month)))
          by reflexivity; congruence.
    + rewrite (compareWithBaseline_missing Page month shot w1 Eb).
      simpl. rewrite savesOf_app. unfold savesOf at 2. simpl in Hs |- *.
      rewrite Hs. simpl. rewrite Nat.add_0_r. congruence.
  - rewrite (savesOf_snoc_other key _ (LogErrorProcessing (m_name month) e))
      by reflexivity.
    congruence.
Qed.
(** C4 (baseline bootstrap). Without a stored baseline for the period,
    [compareWithBaseline] compares no pixels (it returns no comparison and
    the console gets no comparison line), reports [hasBaseline],
    [shouldNotify] and [shouldUpdateBaseline] all false, and saves the
    screenshot once; the iteration of [runMonitor] that called it saves
    nothing more, and the iterations for the other periods save nothing
    under its key: the period has exactly one save. *)
Theorem baseline_bootstrap (monthData : MonthData) (w : World Page) :
  baselines w !! m_key monthData = None ->
  (forall shot : Buffer,
     exists w',
       compareWithBaseline Page monthData shot w
         = (Ok (baselineCreated monthData), w')
       /\ comparisonsIn (console w') = comparisonsIn (console w)
       /\ savesOf (m_key monthData) (console w')
          = S (savesOf (m_key monthData) (console w))
       /\ baselines w' !! m_key monthData = Some shot)
  /\ hasBaseline (baselineCreated monthData) = false
  /\ shouldNotify (baselineCreated monthData) = false
  /\ shouldUpdateBaseline (baselineCreated monthData) = false
  /\ comparison (baselineCreated monthData) = None
  /\ (forall (results : list MonthResult) (shot : Buffer) (w1 : World Page),
        captureMonthWithRetry Page captureMonth monthData
          (processing Page monthData w) = (Ok shot, w1) ->
        exists w2,
          processMonth Page captureMonth results monthData w
            = (Ok (results ++ [okResult monthData (baselineCreated monthData)]),
               w2)
          /\ comparisonsIn (console w2) = comparisonsIn (console w)
          /\ savesOf (m_key monthData) (console w2)
             = S (savesOf (m_key monthData) (console w))
          /\ baselines w2 !! m_key monthData = Some shot)
  /\ (forall (other : MonthData) (results : list MonthResult)
             (w0 : World Page),
        m_key other <> m_key monthData ->
        savesOf (m_key monthData)
          (console (snd (processMonth Page captureMonth results other w0)))
        = savesOf (m_key monthData) (console w0)).
Proof.
  intros Hnone. split; [|repeat split];
    [| |intros other results w0 Hk; apply processMonth_other_key; exact Hk].
  - intros shot. eexists. split; [apply compareWithBaseline_missing; assumption|].
    simpl. repeat split.
    + apply comparisonsIn_bootstrap.
    + apply savesOf_bootstrap.
    + apply lookup_insert_eq.
  - intros results shot w1 Hc.
    pose proof (captureMonthWithRetry_quiet monthData
                  (processing Page monthData w)) as Hq.
    rewrite Hc in Hq. simpl in Hq.
    destruct Hq as (Hb & _ & Hs & Hcmp).
    destruct (console_processing monthData w (m_key monthData)) as (Hs0 & Hc0).
    assert (Hnone1 : baselines w1 !! m_key monthData = None)
      by (rewrite Hb; assumption).
    unfold processMonth, bind, tryCatch, consoleLog, modify. simpl.
    unfold processing in Hc. rewrite Hc.
    rewrite compareWithBaseline_missing by assumption.
    simpl. unfold ret. eexists. split; [reflexivity|]. simpl.
    repeat split.
    + rewrite comparisonsIn_bootstrap. congruence.
    + rewrite savesOf_bootstrap, Hs. congruence.
    + apply lookup_insert_eq.
Qed.

(** The run, once the browser is open and the login done. *)
Lemma runMonitor_returns (username password : string) (w : World Page)
    (pLaunch pLogin : Page) :
  launchBrowser (page w) = (Ok tt, pLaunch) ->
  doLogin username password pLaunch = (Ok tt, pLogin) ->
  runMonitor Page launchBrowser doLogin captureMonth closeBrowser
    getMonthsToCheck username password w =
  match forEachMonth Page captureMonth
          (getMonthsToCheck (clock w) (tzOffset w)) [] (set_page pLogin w) with
  | (Ok rs, w') => (Ok (summarize rs), set_page (closeBrowser (page w')) w')
  | (Throw e, w') => (Throw e, set_page (closeBrowser (page w')) w')
  end.
Proof.
  intros Hl Hd.
  unfold runMonitor, bind, onPage, tryFinally, get, ret. simpl.
  rewrite Hl. simpl. rewrite Hd. simpl.
  change (set_page pLogin (set_page pLaunch w)) with (set_page pLogin w).
  destruct (forEachMonth Page captureMonth _ [] (set_page pLogin w))
    as [[rs|e] w']; reflexivity.
Qed.

(** The answer to a POST with credentials, once [runMonitor] returned. *)
Lemma handler_success (req : Request) (w w' : World Page)
    (username password : string) (run : RunResults) :
  req_method req = "POST"%string ->
  orDefault (req_username req) (envUsername w) = Some username ->
  orDefault (req_password req) (envPassword w) = Some password ->
  username <> EmptyString -> password <> EmptyString ->
  runMonitor Page launchBrowser doLogin captureMonth closeBrowser
    getMonthsToCheck username password w = (Ok run, w') ->
  exists body w'',
    handler Page launchBrowser doLogin captureMonth closeBrowser
      getMonthsToCheck req w = (Ok (RespSuccess body), w'')
    /\ success body = true
    /\ results body = allResults run
    /\ monthsChecked body = totalMonths run
    /\ webhookSent body = (0 <? length (changedMonths run))%nat.
Proof.
  intros Hm Hu Hp Hun Hpn Hr.
  unfold handler. rewrite Hm. simpl.
  unfold tryCatch, bind, get. rewrite Hu, Hp. simpl.
  destruct (String.eqb_spec username EmptyString) as [|_]; [contradiction|].
  destruct (String.eqb_spec password EmptyString) as [|_]; [contradiction|].
  simpl. rewrite Hr.
  destruct (0 <? length (changedMonths run))%nat eqn:Hc.
  - destruct (sendWebhookNotification_returns run w') as (w'' & ->).
    unfold ret. eexists _, _. split; [reflexivity|]. simpl. repeat split.
  - unfold ret. eexists _, _. split; [reflexivity|]. simpl. repeat split.
Qed.


(** Whatever became of the webhook, the answer says [webhookSent] exactly
    when some month is notable. *)
Lemma webhookSent_is_changed_flag (req : Request) (w w' : World Page)
    (body : SuccessBody) :
  handler Page launchBrowser doLogin captureMonth closeBrowser
    getMonthsToCheck req w = (Ok (RespSuccess body), w') ->
  webhookSent body = (0 <? changedMonthsCount body)%nat.
Proof.
  unfold handler.
  destruct (String.eqb (req_method req) "GET"); [discriminate|].
  destruct (String.eqb (req_method req) "POST"); simpl; [|discriminate].
  unfold tryCatch, bind, get.
  destruct (falsy _ || falsy _); simpl; [discriminate|].
  destruct (runMonitor _ _ _ _ _ _ _ _ w) as [[run|e] w1]; simpl;
    [|unfold consoleLog, modify, ret; simpl; discriminate].
  destruct (0 <? length (changedMonths run))%nat eqn:Hc.
  - destruct (sendWebhookNotification_returns run w1) as (w2 & ->).
    unfold ret. intros H. injection H as <- _. simpl. rewrite Hc. reflexivity.
  - unfold ret. intros H. injection H as <- _. simpl. rewrite Hc. reflexivity.
Qed.

(** Whatever the captures do, a POST with credentials is answered with a
    200 whose [success] is true and that has one result for each period, in
    the order of the periods, once the browser is open and the login done:
    no failure of a period escapes the loop. *)
Lemma run_survives_period_failures (req : Request) (w : World Page)
    (username password : string) (pLaunch pLogin : Page) :
  req_method req = "POST"%string ->
  orDefault (req_username req) (envUsername w) = Some username ->
  orDefault (req_password req) (envPassword w) = Some password ->
  username <> EmptyString -> password <> EmptyString ->
  launchBrowser (page w) = (Ok tt, pLaunch) ->
  doLogin username password pLaunch = (Ok tt, pLogin) ->
  exists (body : SuccessBody) (w' : World Page),
    handler Page launchBrowser doLogin captureMonth closeBrowser
      getMonthsToCheck req w = (Ok (RespSuccess body), w')
    /\ success body = true
    /\ List.map r_month (results body)
       = List.map m_key (getMonthsToCheck (clock w) (tzOffset w))
    /\ Forall (fun r => r_error r <> None -> r_shouldNotify r = false)
         (results body).
Proof.
  intros Hm Hu Hp Hun Hpn Hl Hd.
  destruct (forEachMonth_returns (getMonthsToCheck (clock w) (tzOffset w)) []
              (set_page pLogin w)) as (rs & w1 & Hall & Hkeys & Herr).
  pose proof (runMonitor_returns username password w pLaunch pLogin Hl Hd)
    as Hrun.
  rewrite Hall in Hrun. simpl in Hrun.
  destruct (handler_success req w _ username password _ Hm Hu Hp Hun Hpn Hrun)
    as (body & w' & Hh & Hs & Hres & _).
  exists body, w'. rewrite Hres. simpl. auto.
Qed.

(** C8 (partial-failure isolation). In a run over the periods
    [before ++ failing :: after], when the three capture attempts of
    [failing] all throw, that period is recorded as an error result with
    [shouldNotify] false, the periods after it are still processed, one
    result each, and the answer is a 200 whose [success] is true. *)
Theorem partial_failure_isolation
    (req : Request) (w w1 : World Page) (username password : string)
    (pLaunch pLogin p1 p2 p3 : Page)
    (before after : list MonthData) (failing : MonthData)
    (rs1 : list MonthResult) (e1 e2 e3 : Error) :
  req_method req = "POST"%string ->
  orDefault (req_username req) (envUsername w) = Some username ->
  orDefault (req_password req) (envPassword w) = Some password ->
  username <> EmptyString -> password <> EmptyString ->
  launchBrowser (page w) = (Ok tt, pLaunch) ->
  doLogin username password pLaunch = (Ok tt, pLogin) ->
  getMonthsToCheck (clock w) (tzOffset w) = before ++ failing :: after ->
  forEachMonth Page captureMonth before [] (set_page pLogin w) = (Ok rs1, w1) ->
  captureMonth failing (page w1) = (Throw e1, p1) ->
  captureMonth failing p1 = (Throw e2, p2) ->
  captureMonth failing p2 = (Throw e3, p3) ->
  exists (rs3 : list MonthResult) (body : SuccessBody) (w' : World Page),
    handler Page launchBrowser doLogin captureMonth closeBrowser
      getMonthsToCheck req w = (Ok (RespSuccess body), w')
    /\ success body = true
    /\ results body = rs1 ++ [errorResult failing e3] ++ rs3
    /\ r_error (errorResult failing e3) = Some e3
    /\ r_shouldNotify (errorResult failing e3) = false
    /\ List.map r_month rs1 = List.map m_key before
    /\ List.map r_month rs3 = List.map m_key after
    /\ monthsChecked body = length (before ++ failing :: after).
Proof.
  intros Hm Hu Hp Hun Hpn Hl Hd Hmonths Hbefore H1 H2 H3.
  (* the periods before the failing one *)
  destruct (forEachMonth_returns before [] (set_page pLogin w))
    as (rs & w0 & Hb & Hkeys1 & _).
  rewrite Hbefore in Hb. simpl in Hb. injection Hb as <- <-.
  (* the failing period *)
  assert (Hfail :
    captureMonthWithRetry Page captureMonth failing (processing Page failing w1)
    = (Throw e3,
       set_console
         (console (processing Page failing w1)
          ++ [LogRetry 1 3 (m_name failing) 1000;
              LogRetry 2 3 (m_name failing) 2000;
              LogFinalAttemptFailed (m_name failing) e3])
         (set_page p3 (processing Page failing w1))))
    by (apply (capture_fails_after_three failing _ e1 e2 e3 p1 p2 p3);
        assumption).
  pose proof (processMonth_capture_fails rs1 failing w1 _ e3 Hfail) as Hproc.
  (* the periods after it *)
  match type of Hproc with
  | _ = (_, ?wf) =>
      destruct (forEachMonth_returns after
                  (rs1 ++ [errorResult failing e3]) wf)
        as (rs3 & w3 & Hafter & Hkeys3 & _)
  end.
  assert (Hall :
    forEachMonth Page captureMonth (before ++ failing :: after) []
      (set_page pLogin w)
    = (Ok ((rs1 ++ [errorResult failing e3]) ++ rs3), w3)).
  { rewrite forEachMonth_app, Hbefore. simpl. unfold bind.
    rewrite Hproc. exact Hafter. }
  (* the run and the answer *)
  pose proof (runMonitor_returns username password w pLaunch pLogin Hl Hd)
    as Hrun.
  rewrite Hmonths, Hall in Hrun.
  destruct (handler_success req w _ username password _ Hm Hu Hp Hun Hpn Hrun)
    as (body & w' & Hh & Hs & Hres & Hcount & _).
  exists rs3, body, w'.
  split; [exact Hh|]. split; [exact Hs|].
  split; [rewrite Hres; simpl; rewrite <- app_assoc; reflexivity|].
  split; [reflexivity|]. split; [reflexivity|].
  split; [exact Hkeys1|]. split; [exact Hkeys3|].
  rewrite Hcount. simpl.
  apply (f_equal (@length string)) in Hkeys1, Hkeys3.
  rewrite !length_map in Hkeys1, Hkeys3.
  rewrite !length_app. simpl. lia.
Qed.

(** Nothing before [sendWebhookNotification] posts anything. *)
Lemma captureAttempts_posted (monthData : MonthData) (maxRetries : nat)
    (retriesLeft : nat) : forall (attempt : nat) (w : World Page),
  posted (snd (captureAttempts Page captureMonth monthData maxRetries
                 retriesLeft attempt w)) = posted w.
Proof.
  induction retriesLeft as [|n IH]; intros attempt w;
    simpl; unfold tryCatch, onPage, bind, consoleLog, modify, throw;
    destruct (captureMonth monthData (page w)) as [[shot|e] p]; simpl;
    try reflexivity.
  rewrite IH. reflexivity.
Qed.

Lemma processMonth_posted (results : list MonthResult) (month : MonthData)
    (w : World Page) :
  posted (snd (processMonth Page captureMonth results month w)) = posted w.
Proof.
  unfold processMonth, bind, tryCatch, consoleLog, modify. simpl.
  pose proof (captureAttempts_posted month 3 2 1 (processing Page month w))
    as Hc.
  unfold captureMonthWithRetry. simpl Nat.sub. unfold processing in Hc.
  destruct (captureAttempts Page captureMonth month 3 2 1 _)
    as [[shot|e] w1]; simpl in Hc |- *; [|exact Hc].
  destruct (baselines w1 !! m_key month) as [base|] eqn:Eb.
  - rewrite (compareWithBaseline_present Page month shot base w1 Eb).
    unfold ret, saveBaseline, bind, modify, consoleLog.
    destruct (shouldUpdateBaseline _); simpl; exact Hc.
  - rewrite (compareWithBaseline_missing Page month shot w1 Eb).
    simpl. exact Hc.
Qed.

Lemma forEachMonth_posted (months : list MonthData) :
  forall (results : list MonthResult) (w : World Page),
  posted (snd (forEachMonth Page captureMonth months results w)) = posted w.
Proof.
  induction months as [|m months IH]; intros results w; simpl; [reflexivity|].
  unfold bind.
  pose proof (processMonth_posted results m w) as Hp.
  destruct (processMonth Page captureMonth results m w) as [[rs|e] w1];
    simpl in Hp |- *; [|exact Hp].
  rewrite IH. exact Hp.
Qed.

Lemma runMonitor_posted (username password : string) (w : World Page) :
  posted (snd (runMonitor Page launchBrowser doLogin captureMonth closeBrowser
                 getMonthsToCheck username password w)) = posted w.
Proof.
  unfold runMonitor, bind, onPage, tryFinally, get, ret.
  destruct (launchBrowser (page w)) as [[[]|e] p1]; simpl; [|reflexivity].
  destruct (doLogin username password p1) as [[[]|e] p2]; simpl;
    [|reflexivity].
  match goal with
  | |- context [forEachMonth Page captureMonth ?ms [] ?w0] =>
      pose proof (forEachMonth_posted ms [] w0) as Hf;
      destruct (forEachMonth Page captureMonth ms [] w0) as [[rs|e] w1]
  end; simpl in Hf |- *; exact Hf.
Qed.

(** The half of C2 that holds: when the run posted a webhook, the answer
    says [webhookSent]. *)
Lemma posted_implies_webhookSent (req : Request) (w w' : World Page)
    (body : SuccessBody) :
  handler Page launchBrowser doLogin captureMonth closeBrowser
    getMonthsToCheck req w = (Ok (RespSuccess body), w') ->
  posted w' <> posted w ->
  webhookSent body = true.
Proof.
  unfold handler.
  destruct (String.eqb (req_method req) "GET"); [discriminate|].
  destruct (String.eqb (req_method req) "POST"); simpl; [|discriminate].
  unfold tryCatch, bind, get.
  destruct (falsy _ || falsy _); simpl; [discriminate|].
  match goal with
  | |- context [runMonitor _ _ _ _ _ _ ?u ?p w] =>
      pose proof (runMonitor_posted u p w) as Hr;
      destruct (runMonitor Page launchBrowser doLogin captureMonth
                  closeBrowser getMonthsToCheck u p w) as [[run|e] w1]
  end; simpl in Hr |- *;
    [|unfold consoleLog, modify, ret; simpl; discriminate].
  destruct (0 <? length (changedMonths run))%nat eqn:Hc.
  - destruct (sendWebhookNotification_returns run w1) as (w2 & ->).
    unfold ret. intros H _. injection H as <- _. reflexivity.
  - unfold ret. intros H Hne. injection H as <- <-. congruence.
Qed.
End RunFacts.

(** ** The confidence score *)

Section ConfidenceFacts.

Import TextConfidence.

Lemma rawScore_band (m y p : bool) (k : nat) :
  rawScore m y p k = rawScore m y p (band k).
Proof. destruct k as [|[|[|k]]]; reflexivity. Qed.

Lemma specScore_band (m y p : bool) (k : nat) :
  specScore m y p k = specScore m y p (band k).
Proof. destruct k as [|[|[|k]]]; reflexivity. Qed.

Lemma band_cases (k : nat) : band k = 0%nat \/ band k = 1%nat \/ band k = 3%nat.
Proof. destruct k as [|[|[|k]]]; simpl; auto. Qed.

(** The Number that the code computes is the rational weighted sum,
    clamped, up to the rounding of IEEE 754 additions. *)
Lemma clamp_rawScore_close (m y p : bool) (k : nat) :
  exists q : Q,
    Num.to_Q (clamp (rawScore m y p k)) = Some q
    /\ (specConfidence m y p k - (1 # 2 ^ 52) <= q)%Q
    /\ (q <= specConfidence m y p k + (1 # 2 ^ 52))%Q
    /\ (0 <= q)%Q /\ (q <= 1)%Q.
Proof.
  unfold specConfidence. rewrite rawScore_band, specScore_band.
  destruct (band_cases k) as [-> | [-> | ->]]; destruct m, y, p;
    (eexists; split; [vm_compute; reflexivity|];
     repeat split; apply Qle_bool_iff; vm_compute; reflexivity).
Qed.

Lemma rawScore_three_others (m y p : bool) (k : nat) :
  (2 < k)%nat ->
  exists q0 q3 : Q,
    Num.to_Q (rawScore m y p 0) = Some q0
    /\ Num.to_Q (rawScore m y p k) = Some q3
    /\ (q3 <= q0 - (3 # 10))%Q.
Proof.
  intros Hk. rewrite (rawScore_band m y p k).
  assert (Hb : band k = 3%nat).
  { destruct k as [|[|[|k]]]; try lia; reflexivity. }
  rewrite Hb.
  destruct m, y, p;
    (eexists _, _; split; [vm_compute; reflexivity|];
     split; [vm_compute; reflexivity|];
     apply Qle_bool_iff; vm_compute; reflexivity).
Qed.


Lemma toLowerCase_app (s e : string) :
  toLowerCase (s ++ e) = (toLowerCase s ++ toLowerCase e)%string.
Proof. induction s as [|c s IH]; simpl; [reflexivity|]. rewrite IH. reflexivity. Qed.

Lemma startsWith_app (needle hay e : string) :
  startsWith needle hay = true -> startsWith needle (hay ++ e) = true.
Proof.
  revert hay. induction needle as [|c n IH]; intros hay H; [reflexivity|].
  destruct hay as [|d h]; simpl in *; [discriminate|].
  apply andb_true_iff in H. destruct H as [H1 H2].
  rewrite H1, (IH h H2). reflexivity.
Qed.

Lemma includes_app (hay needle e : string) :
  includes hay needle = true -> includes (hay ++ e) needle = true.
Proof.
  induction hay as [|d h IH]; intros H.
  - simpl in H. rewrite orb_false_r in H.
    destruct needle; [|discriminate]. destruct e; reflexivity.
  - simpl in H. apply orb_true_iff in H. simpl.
    destruct H as [H|H].
    + change (String d (h ++ e)) with (String d h ++ e)%string.
      rewrite (startsWith_app _ _ e H). reflexivity.
    + rewrite (IH H). apply orb_true_r.
Qed.

Lemma matchHere_app (p : list atom) : forall s e : string,
  matchHere p s = true -> matchHere p (s ++ e) = true.
Proof.
  induction p as [|a r IH]; intros s e H; [reflexivity|].
  assert (Hskip : forall s : string,
            (fix skip (s : string) : bool :=
               matchHere r s
               || match s with
                  | String d s' => isSpace d && skip s'
                  | EmptyString => false
                  end) s = true ->
            (fix skip (s : string) : bool :=
               matchHere r s
               || match s with
                  | String d s' => isSpace d && skip s'
                  | EmptyString => false
                  end) (s ++ e)%string = true).
  { induction s0 as [|d s' IHs]; intros Hs.
    - rewrite orb_false_r in Hs.
      pose proof (IH EmptyString e Hs) as Hr.
      change (matchHere r e = true) in Hr.
      change (EmptyString ++ e)%string with e.
      destruct e; rewrite Hr; reflexivity.
    - apply orb_true_iff in Hs.
      change (String d s' ++ e)%string with (String d (s' ++ e)%string).
      destruct Hs as [Hs|Hs].
      + pose proof (IH _ e Hs) as Hr.
        change (String d s' ++ e)%string with (String d (s' ++ e)%string) in Hr.
        rewrite Hr. reflexivity.
      + apply andb_true_iff in Hs. destruct Hs as [Hd Hs].
        rewrite Hd, (IHs Hs). apply orb_true_r. }
  destruct a as [c|c| |]; simpl in H |- *.
  - destruct s as [|d s']; [discriminate|]. simpl.
    apply andb_true_iff in H. destruct H as [H1 H2].
    rewrite H1, (IH _ e H2). reflexivity.
  - apply orb_true_iff in H. destruct H as [H|H].
    + rewrite (IH _ e H). reflexivity.
    + destruct s as [|d s']; [discriminate|]. simpl.
      apply andb_true_iff in H. destruct H as [H1 H2].
      rewrite H1, (IH _ e H2). apply orb_true_r.
  - apply Hskip. exact H.
  - destruct s as [|d s']; [discriminate|]. simpl.
    apply andb_true_iff in H. destruct H as [H1 H2].
    rewrite H1. simpl. apply Hskip. exact H2.
Qed.

Lemma test_app (p : list atom) (s e : string) :
  test p s = true -> test p (s ++ e) = true.
Proof.
  induction s as [|d s IH]; intros H.
  - simpl in H. rewrite orb_false_r in H.
    pose proof (matchHere_app p EmptyString e H) as Hr.
    change (matchHere p e = true) in Hr.
    change (EmptyString ++ e)%string with e.
    destruct e; cbn [test]; rewrite Hr; reflexivity.
  - simpl in H. apply orb_true_iff in H.
    change (String d s ++ e)%string with (String d (s ++ e)%string).
    destruct H as [H|H].
    + pose proof (matchHere_app p _ e H) as Hr.
      change (String d s ++ e)%string with (String d (s ++ e)%string) in Hr.
      cbn [test]. rewrite Hr. reflexivity.
    + cbn [test]. rewrite (IH H). apply orb_true_r.
Qed.

(** Text that is added after the text of the calendar cannot hide the
    month, the year or the pattern. *)
Lemma signals_survive_append (allText extra expectedMonth : string)
    (expectedYear : N) :
  (hasExpectedMonthIn allText expectedMonth = true ->
   hasExpectedMonthIn (allText ++ extra) expectedMonth = true)
  /\ (hasExpectedYearIn allText expectedYear = true ->
      hasExpectedYearIn (allText ++ extra) expectedYear = true)
  /\ (hasExactPatternIn allText expectedMonth expectedYear = true ->
      hasExactPatternIn (allText ++ extra) expectedMonth expectedYear = true).
Proof.
  unfold hasExpectedMonthIn, hasExpectedYearIn, hasExactPatternIn.
  repeat split.
  - intros H. apply orb_true_iff in H. apply orb_true_iff.
    destruct H as [H|H]; [left; exact H|right].
    rewrite toLowerCase_app. apply includes_app. exact H.
  - apply includes_app.
  - intros H. apply orb_true_iff in H. apply orb_true_iff.
    destruct H as [H|H]; [left; exact H|right].
    apply existsb_exists in H. destruct H as (p & Hin & Hp).
    apply existsb_exists. exists p. split; [exact Hin|].
    apply test_app. exact Hp.
Qed.

Lemma includes_app_l (hay needle s : string) :
  includes hay needle = true -> includes (s ++ hay) needle = true.
Proof.
  intros H. induction s as [|c s IH]; [exact H|].
  change (String c s ++ hay)%string with (String c (s ++ hay)%string).
  cbn [includes]. rewrite IH. apply orb_true_r.
Qed.

(** Every month name that occurs in the text, the expected one apart, is
    counted among the other months. *)
Lemma otherMonthsIn_counts (allText expectedMonth : string)
    (names : list string) :
  isAny expectedMonth = false ->
  List.NoDup names ->
  (forall n, In n names ->
     In n monthNames /\ n <> toLowerCase expectedMonth
     /\ includes (toLowerCase allText) n = true) ->
  (length names <= length (otherMonthsIn allText expectedMonth))%nat.
Proof.
  intros Hany Hd Hn. apply List.NoDup_incl_length; [exact Hd|].
  intros n Hin. destruct (Hn n Hin) as (Hm & Hne & Hi).
  unfold otherMonthsIn. rewrite Hany. apply List.filter_In.
  split; [exact Hm|]. rewrite Hi, andb_true_r.
  destruct (String.eqb_spec n (toLowerCase expectedMonth)); [contradiction|].
  reflexivity.
Qed.

(** C6 (navigation confidence). The confidence that
    [validateMonthWithTextExtraction] returns is the sum of the weights
    +0.4 (expected month present), +0.3 (expected year present), +0.4 (a
    month-year pattern matches), +0.2 (no other month name) and -0.3 (more
    than two other month names), clamped to [[0,1]]: as a Number it is
    within 2^-52 of that rational. With all three signals and no other
    month it is exactly 1. When text in which three other month names or
    more occur is added to such a text, the three signals stay, the other
    months are found, and the confidence that is returned is the Number
    0.8: the weighted sum (the score before the clamp) falls from 1.3 to
    0.8, by at least 0.3, and the confidence that is returned falls from
    1 to 0.8, by less than 0.3. *)
Theorem confidence_weighted_sum (textContent : string -> option string)
    (expectedMonth : string) (expectedYear : N) :
  let allText := fst (extractText textContent) in
  let selector := snd (extractText textContent) in
  let v := validateMonthWithTextExtraction textContent expectedMonth
             expectedYear in
  let m := hasExpectedMonthIn allText expectedMonth in
  let y := hasExpectedYearIn allText expectedYear in
  let p := hasExactPatternIn allText expectedMonth expectedYear in
  let k := length (otherMonthsIn allText expectedMonth) in
  confidence v = clamp (rawScore m y p k)
  /\ (exists q : Q,
        Num.to_Q (confidence v) = Some q
        /\ (specConfidence m y p k - (1 # 2 ^ 52) <= q)%Q
        /\ (q <= specConfidence m y p k + (1 # 2 ^ 52))%Q
        /\ (0 <= q)%Q /\ (q <= 1)%Q)
  /\ (m = true -> y = true -> p = true -> k = 0%nat ->
      confidence v = Num.of_Z 1)
  /\ (forall (extra : string) (names : list string),
      m = true -> y = true -> p = true -> k = 0%nat ->
      isAny expectedMonth = false ->
      List.NoDup names -> (2 < length names)%nat ->
      (forall n, In n names ->
         In n monthNames /\ n <> toLowerCase expectedMonth
         /\ includes (toLowerCase extra) n = true) ->
      let longer := (allText ++ extra)%string in
      let v' := analyzeText longer selector expectedMonth expectedYear in
      let m' := hasExpectedMonthIn longer expectedMonth in
      let y' := hasExpectedYearIn longer expectedYear in
      let p' := hasExactPatternIn longer expectedMonth expectedYear in
      let k' := length (otherMonthsIn longer expectedMonth) in
      m' = true /\ y' = true /\ p' = true
      /\ (2 < k')%nat /\ otherMonthsFound v' = k'
      /\ confidence v' = Num.literal 8 10
      /\ Num.gt (confidence v') (Num.literal 8 10) = false
      /\ (exists q0 q3 : Q,
            Num.to_Q (rawScore m y p k) = Some q0
            /\ Num.to_Q (rawScore m' y' p' k') = Some q3
            /\ (q3 <= q0 - (3 # 10))%Q)
      /\ (exists c0 c3 : Q,
            Num.to_Q (confidence v) = Some c0
            /\ Num.to_Q (confidence v') = Some c3
            /\ (c0 - (3 # 10) < c3)%Q)).
Proof.
  intros allText selector v m y p k. subst allText selector v m y p k.
  unfold validateMonthWithTextExtraction.
  destruct (extractText textContent) as [allText sel]. simpl fst. simpl snd.
  cbn [analyzeText confidence].
  split; [reflexivity|]. split; [apply clamp_rawScore_close|]. split.
  - intros -> -> -> ->. vm_compute. reflexivity.
  - intros extra names Hm Hy Hp Hk Hany Hd Hl Hn.
    cbn [otherMonthsFound].
    set (longer := (allText ++ extra)%string).
    set (m' := hasExpectedMonthIn longer expectedMonth).
    set (y' := hasExpectedYearIn longer expectedYear).
    set (p' := hasExactPatternIn longer expectedMonth expectedYear).
    set (k' := length (otherMonthsIn longer expectedMonth)).
    destruct (signals_survive_append allText extra expectedMonth expectedYear)
      as (Sm & Sy & Sp).
    assert (Hm' : m' = true) by (apply Sm; exact Hm).
    assert (Hy' : y' = true) by (apply Sy; exact Hy).
    assert (Hp' : p' = true) by (apply Sp; exact Hp).
    assert (Hk' : (2 < k')%nat).
    { assert (Hc : (length names <= k')%nat).
      { apply otherMonthsIn_counts; [exact Hany|exact Hd|].
        intros n Hin. destruct (Hn n Hin) as (H1 & H2 & H3).
        split; [exact H1|]. split; [exact H2|].
        unfold longer. rewrite toLowerCase_app. apply includes_app_l.
        exact H3. }
      lia. }
    assert (Hb : band k' = 3%nat).
    { revert Hk'. generalize k'. intros [|[|[|n]]]; try lia; reflexivity. }
    split; [exact Hm'|]. split; [exact Hy'|]. split; [exact Hp'|].
    split; [exact Hk'|]. split; [reflexivity|].
    rewrite Hm, Hy, Hp, Hk, Hm', Hy', Hp'.
    rewrite (rawScore_band true true true k'), Hb.
    clear Hm Hy Hp Hk Hany Hd Hl Hn Sm Sy Sp Hm' Hy' Hp' Hk' Hb.
    clear m' y' p' k' longer.
    split; [vm_compute; reflexivity|]. split; [vm_compute; reflexivity|].
    split.
    + eexists _, _. split; [vm_compute; reflexivity|].
      split; [vm_compute; reflexivity|].
      apply Qle_bool_iff. vm_compute. reflexivity.
    + eexists _, _. split; [vm_compute; reflexivity|].
      split; [vm_compute; reflexivity|].
      vm_compute. reflexivity.
Qed.

End ConfidenceFacts.

(** ** The claims on the sample runs *)

Section SampleRuns.

Import VisualDiff.
Import TextConfidence.
Import Monitor.
Import Samples.

Lemma confidence_weighted_sum_witness :
  let allText := fst (extractText septemberPage) in
  let longer := (allText ++ " March April May")%string in
  let v := validateMonthWithTextExtraction septemberPage "september" 2025 in
  let v' := analyzeText longer (snd (extractText septemberPage))
              "september" 2025 in
  hasExpectedMonthIn allText "september" = true
  /\ hasExpectedYearIn allText 2025 = true
  /\ hasExactPatternIn allText "september" 2025 = true
  /\ length (otherMonthsIn allText "september") = 0%nat
  /\ confidence v = Num.of_Z 1
  /\ hasExpectedMonthIn longer "september" = true
  /\ hasExpectedYearIn longer 2025 = true
  /\ hasExactPatternIn longer "september" 2025 = true
  /\ (2 < length (otherMonthsIn longer "september"))%nat
  /\ otherMonthsFound v' = length (otherMonthsIn longer "september")
  /\ confidence v' = Num.literal 8 10
  /\ Num.gt (confidence v') (Num.literal 8 10) = false
  /\ (exists q0 q3 : Q,
        Num.to_Q
          (rawScore (hasExpectedMonthIn allText "september")
             (hasExpectedYearIn allText 2025)
             (hasExactPatternIn allText "september" 2025)
             (length (otherMonthsIn allText "september"))) = Some q0
        /\ Num.to_Q
             (rawScore (hasExpectedMonthIn longer "september")
                (hasExpectedYearIn longer 2025)
                (hasExactPatternIn longer "september" 2025)
                (length (otherMonthsIn longer "september"))) = Some q3
        /\ (q3 <= q0 - (3 # 10))%Q)
  /\ (exists c0 c3 : Q,
        Num.to_Q (confidence v) = Some c0
        /\ Num.to_Q (confidence v') = Some c3
        /\ (c0 - (3 # 10) < c3)%Q).
Proof.
  intros allText longer v v'.
  pose proof (confidence_weighted_sum septemberPage "september" 2025)
    as (_ & _ & H1 & H4).
  assert (Hm : hasExpectedMonthIn allText "september" = true)
    by (vm_compute; reflexivity).
  assert (Hy : hasExpectedYearIn allText 2025 = true)
    by (vm_compute; reflexivity).
  assert (Hp : hasExactPatternIn allText "september" 2025 = true)
    by (vm_compute; reflexivity).
  assert (Hk : length (otherMonthsIn allText "september") = 0%nat)
    by (vm_compute; reflexivity).
  split; [exact Hm|]. split; [exact Hy|]. split; [exact Hp|].
  split; [exact Hk|]. split; [exact (H1 Hm Hy Hp Hk)|].
  apply (H4 " March April May"%string
            [ "march"; "april"; "may" ]%string Hm Hy Hp Hk).
  - reflexivity.
  - apply List.NoDup_cons; [intros [H|[H|[]]]; discriminate H|].
    apply List.NoDup_cons; [intros [H|[]]; discriminate H|].
    apply List.NoDup_cons; [intros []|]. apply List.NoDup_nil.
  - simpl. lia.
  - intros n [<- | [<- | [<- | []]]];
      (split; [simpl; tauto|]; split; [discriminate|];
       vm_compute; reflexivity).
Defined.

(** C6, as stated, fails on the text it names: with three other month
    names added, the confidence that is returned is not 0.3 below the
    confidence of the text without them (it falls from 1 to 0.8). *)
Lemma confidence_drop_counterexample :
  ~ (exists c0 c3 : Q,
       Num.to_Q
         (confidence
            (validateMonthWithTextExtraction septemberPage "september" 2025))
       = Some c0
       /\ Num.to_Q
            (confidence
               (validateMonthWithTextExtraction crowdedPage "september" 2025))
          = Some c3
       /\ (c3 <= c0 - (3 # 10))%Q).
Proof.
  intros (c0 & c3 & H0 & H3 & H).
  vm_compute in H0. vm_compute in H3.
  injection H0 as <-. injection H3 as <-.
  apply Qle_bool_iff in H. vm_compute in H. discriminate H.
Qed.

(** The sample page with three more month names: the pattern, the month
    and the year are still found, the weighted sum falls from 1.3 to 0.8,
    and the confidence that is returned from 1 to 0.8. *)
Example crowded_page_confidence :
  otherMonthsFound (validateMonthWithTextExtraction crowdedPage "september" 2025)
  = 3%nat
  /\ confidence (validateMonthWithTextExtraction septemberPage "september" 2025)
     = Num.of_Z 1
  /\ Num.to_Q (confidence
                 (validateMonthWithTextExtraction crowdedPage "september" 2025))
     = Some (7205759403792794 # 9007199254740992)%Q
  /\ Num.toFixed3
       (confidence (validateMonthWithTextExtraction crowdedPage "september" 2025))
     = Num.FxDecimal false 800.
Proof. vm_compute. repeat split; reflexivity. Qed.

Lemma baseline_bootstrap_witness :
  baselines freshWorld !! m_key september = None
  /\ shouldNotify (baselineCreated september) = false
  /\ exists w2,
       processMonth unit captureTan [] september freshWorld
         = (Ok ([] ++ [okResult september (baselineCreated september)]), w2)
       /\ comparisonsIn (console w2) = comparisonsIn (console freshWorld)
       /\ savesOf (m_key september) (console w2)
          = S (savesOf (m_key september) (console freshWorld))
       /\ baselines w2 !! m_key september = Some tanPixel.
Proof.
  assert (H : baselines freshWorld !! m_key september = None)
    by (vm_compute; reflexivity).
  pose proof (baseline_bootstrap unit captureTan september freshWorld H)
    as (_ & _ & Hn & _ & _ & Hrun & _).
  split; [exact H|]. split; [exact Hn|].
  apply (Hrun [] tanPixel (processing unit september freshWorld)).
  vm_compute. reflexivity.
Defined.

Lemma throttle_cap_witness :
  recordsOnly (notifications freshWorld) = true
  /\ fst (checkNotificationLimit unit freshWorld) = Ok true
  /\ fst (checkNotificationLimit unit
            (snd (logNotification unit (snd (logNotification unit freshWorld)))))
     = Ok false
  /\ fst (checkNotificationLimit unit
            (set_clock (morning + 24 * 60 * 60 * 1000)
               (snd (logNotification unit
                       (snd (logNotification unit freshWorld))))))
     = Ok true.
Proof.
  assert (H : recordsOnly (notifications freshWorld) = true) by reflexivity.
  pose proof (throttle_cap unit freshWorld H) as (H1 & H2).
  assert (Hn : notifications freshWorld <> LogNotArray) by discriminate.
  destruct (H2 Hn) as (_ & Hfalse & Hlater).
  split; [exact H|]. split; [exact H1|]. split; [exact Hfalse|].
  apply Hlater; vm_compute; reflexivity.
Defined.

(** C5, as stated, fails on a log that holds a null entry: two records
    carry today's date and [canSend] is true. *)
Lemma throttle_cap_counterexample :
  ~ (fst (checkNotificationLimit unit corruptedWorld) = Ok true
     <-> (recordsToday (tzOffset corruptedWorld) (clock corruptedWorld)
            (notifications corruptedWorld) < 2)%nat).
Proof.
  intros [H _].
  assert (Hc : fst (checkNotificationLimit unit corruptedWorld) = Ok true)
    by (vm_compute; reflexivity).
  specialize (H Hc). vm_compute in H. lia.
Qed.

Lemma throttle_fails_open_witness :
  (exists l, notifications corruptedWorld = LogArray l /\ In EntryNull l)
  /\ (2 <= recordsToday (tzOffset corruptedWorld) (clock corruptedWorld)
            (notifications corruptedWorld))%nat
  /\ fst (checkNotificationLimit unit corruptedWorld) = Ok true
  /\ posted (snd (sendWebhookNotification unit noResults corruptedWorld))
     = posted corruptedWorld ++ [payloadOf noResults].
Proof.
  assert (H : exists l, notifications corruptedWorld = LogArray l
                        /\ In EntryNull l).
  { eexists. split; [reflexivity|]. simpl. auto. }
  pose proof (throttle_fails_open unit corruptedWorld noResults
                (or_intror (or_intror (or_intror H)))) as (H1 & H2).
  split; [exact H|]. split; [vm_compute; lia|]. split; [exact H1|].
  apply H2. reflexivity.
Defined.

Lemma partial_failure_isolation_witness :
  exists (rs3 : list MonthResult) (body : SuccessBody) (w' : World unit),
    handler unit launchOk loginOk captureOctoberFails closeNothing threeMonths
      postRequest freshWorld = (Ok (RespSuccess body), w')
    /\ success body = true
    /\ results body
       = [okResult september (baselineCreated september)]
         ++ [errorResult october octoberError] ++ rs3
    /\ r_error (errorResult october octoberError) = Some octoberError
    /\ r_shouldNotify (errorResult october octoberError) = false
    /\ List.map r_month [okResult september (baselineCreated september)]
       = List.map m_key [september]
    /\ List.map r_month rs3 = List.map m_key [november]
    /\ monthsChecked body = length ([september] ++ october :: [november]).
Proof.
  apply (partial_failure_isolation unit launchOk loginOk captureOctoberFails
           closeNothing threeMonths postRequest freshWorld afterSeptember
           "owner@example.com" "secret" tt tt tt tt tt
           [september] [november] october
           [okResult september (baselineCreated september)]
           octoberError octoberError octoberError);
    try reflexivity; try discriminate.
Defined.

(** C2, on a run that finds new availability in September when two
    notifications already went out today: the throttle refuses, nothing is
    posted and the log is unchanged, and the answer says
    [webhookSent: true]. *)
Theorem webhookSent_without_delivery :
  let run := handler unit launchOk loginOk captureTan closeNothing
               onlySeptember postRequest throttledWorld in
  (exists body,
      fst run = Ok (RespSuccess body)
      /\ changedMonthsCount body = 1%nat
      /\ webhookSent body = true)
  /\ posted (snd run) = []
  /\ notifications (snd run) = notifications throttledWorld
  /\ fst (checkNotificationLimit unit throttledWorld) = Ok false
  /\ In LogLimitReached (console (snd run)).
Proof.
  vm_compute. split; [eexists; repeat split|].
  repeat split. auto 10.
Qed.

(** The same answer when the endpoint rejects the POST, and when it cannot
    be reached: nothing is delivered, no notification is recorded. *)
Example webhookSent_when_rejected :
  let run := handler unit launchOk loginOk captureTan closeNothing
               onlySeptember postRequest rejectingWorld in
  (exists body, fst run = Ok (RespSuccess body) /\ webhookSent body = true)
  /\ posted (snd run) = []
  /\ notifications (snd run) = LogMissing
  /\ In (LogWebhookFailedStatus 500) (console (snd run)).
Proof.
  vm_compute. split; [eexists; repeat split|].
  repeat split. auto 10.
Qed.

Example webhookSent_when_unreachable :
  let run := handler unit launchOk loginOk captureTan closeNothing
               onlySeptember postRequest unreachableWorld in
  (exists body, fst run = Ok (RespSuccess body) /\ webhookSent body = true)
  /\ posted (snd run) = []
  /\ notifications (snd run) = LogMissing
  /\ In (LogWebhookFailed "connect ECONNREFUSED") (console (snd run)).
Proof.
  vm_compute. split; [eexists; repeat split|].
  repeat split. auto 10.
Qed.

(** A delivery that does happen: the payload is posted once and one
    notification is recorded. *)
Example webhook_delivered :
  let w := mkWorld (baselines throttledWorld) LogMissing morning 0 FetchOk
             [] [] None None tt in
  let run := handler unit launchOk loginOk captureTan closeNothing
               onlySeptember postRequest w in
  (exists body, fst run = Ok (RespSuccess body) /\ webhookSent body = true)
  /\ length (posted (snd run)) = 1%nat
  /\ notifications (snd run) = LogArray [EntryRecord (Some morning)].
Proof.
  vm_compute. split; [eexists; repeat split|].
  repeat split.
Qed.

End SampleRuns.

(** ** More on the pixel classifier *)

Section PixelGridFacts.

Import VisualDiff.
Import PixelGrid.

Lemma countIf_app (p : nat -> bool) (l1 l2 : list nat) :
  countIf p (l1 ++ l2) = countIf p l1 + countIf p l2.
Proof. unfold countIf. rewrite List.filter_app, length_app. lia. Qed.

Lemma countIf_ext (p q : nat -> bool) (l : list nat) :
  (forall i, In i l -> p i = q i) -> countIf p l = countIf q l.
Proof.
  induction l as [|i l IH]; intros H; [reflexivity|].
  rewrite !countIf_cons, H, IH; [reflexivity| |simpl; auto].
  intros j Hj. apply H. simpl; auto.
Qed.

Lemma countIf_le (p q : nat -> bool) (l : list nat) :
  (forall i, In i l -> p i = true -> q i = true) ->
  countIf p l <= countIf q l.
Proof.
  induction l as [|i l IH]; intros H; [reflexivity|].
  rewrite !countIf_cons.
  assert (Hl : countIf p l <= countIf q l)
    by (apply IH; intros j Hj; apply H; simpl; auto).
  assert (Hi : p i = true -> q i = true) by (apply H; simpl; auto).
  destruct (p i), (q i); simpl b2z;
    first [lia | specialize (Hi eq_refl); discriminate].
Qed.

Lemma countIf_split (p q : nat -> bool) (l : list nat) :
  countIf (fun i => p i && q i) l + countIf (fun i => p i && negb (q i)) l
  = countIf p l.
Proof.
  induction l as [|i l IH]; [reflexivity|].
  rewrite !countIf_cons. destruct (p i), (q i); simpl b2z; lia.
Qed.

Lemma countIf_all (p : nat -> bool) (l : list nat) :
  (forall i, In i l -> p i = true) -> countIf p l = Z.of_nat (length l).
Proof.
  induction l as [|i l IH]; intros H; [reflexivity|].
  rewrite countIf_cons, H by (simpl; auto).
  rewrite IH by (intros j Hj; apply H; simpl; auto).
  simpl b2z. simpl length. lia.
Qed.

(** The offsets of the loop are those of the whole pixels, followed by the
    offset of an incomplete pixel when the length is no multiple of 4. *)
Lemma offsets_wholePixels (n : nat) :
  offsets n =
  wholePixels n ++ (if (n mod 4 =? 0)%nat then [] else [(4 * (n / 4))%nat]).
Proof.
  unfold offsets, wholePixels.
  pose proof (Nat.div_mod_eq n 4) as Hn.
  pose proof (Nat.mod_upper_bound n 4 ltac:(lia)) as Hr.
  destruct (Nat.eqb_spec (n mod 4) 0) as [E|E].
  - rewrite app_nil_r. do 2 f_equal.
    symmetry. apply (Nat.div_unique _ _ _ 3); lia.
  - assert (Hq : ((n + 3) / 4 = n / 4 + 1)%nat).
    { symmetry. apply (Nat.div_unique _ _ _ (n mod 4 - 1)); lia. }
    rewrite Hq, seq_app, map_app. reflexivity.
Qed.

Lemma wholePixels_in_range (n i : nat) :
  In i (wholePixels n) -> pixelInRange n i = true.
Proof.
  unfold wholePixels, pixelInRange. intros H.
  apply in_map_iff in H. destruct H as (k & <- & Hk).
  apply in_seq in Hk. apply Nat.ltb_lt.
  pose proof (Nat.div_mod_eq n 4). lia.
Qed.

Lemma wholePixels_offset (n i : nat) :
  In i (wholePixels n) -> (i mod 4 = 0 /\ i + 3 < 4 * (n / 4) + 3)%nat.
Proof.
  unfold wholePixels. intros H.
  apply in_map_iff in H. destruct H as (k & <- & Hk).
  apply in_seq in Hk. split; [|lia].
  rewrite Nat.mul_comm. apply Nat.Div0.mod_mul.
Qed.

(** A counter of the loop counts whole pixels only. *)
Lemma countIf_offsets (n : nat) (p : nat -> bool) :
  countIf (fun i => pixelInRange n i && p i) (offsets n)
  = countIf p (wholePixels n).
Proof.
  rewrite offsets_wholePixels, countIf_app.
  rewrite (countIf_ext (fun i => pixelInRange n i && p i) p (wholePixels n))
    by (intros i Hi; rewrite (wholePixels_in_range n i Hi); reflexivity).
  destruct (Nat.eqb_spec (n mod 4) 0) as [E|E]; [rewrite countIf_nil; lia|].
  rewrite countIf_cons, countIf_nil.
  assert (H : pixelInRange n (4 * (n / 4)) = false).
  { unfold pixelInRange. apply Nat.ltb_ge.
    pose proof (Nat.div_mod_eq n 4).
    pose proof (Nat.mod_upper_bound n 4 ltac:(lia)). lia. }
  rewrite H. simpl. lia.
Qed.

Lemma wholePixels_length (n : nat) : length (wholePixels n) = (n / 4)%nat.
Proof. unfold wholePixels. rewrite length_map, length_seq. reflexivity. Qed.

(** The five counters over the whole pixels. *)
Lemma scanPixels_wholePixels (baselineBuffer currentBuffer : Buffer) :
  let n := Nat.min (length baselineBuffer) (length currentBuffer) in
  let changed := pixelChanged baselineBuffer currentBuffer in
  let highlighted := pixelHighlighted baselineBuffer currentBuffer in
  let increase := pixelIncrease baselineBuffer currentBuffer in
  let unrelated := pixelUnrelated baselineBuffer currentBuffer in
  scanPixels baselineBuffer currentBuffer =
  mkCounters
    (Z.of_nat (n / 4))
    (countIf (fun i => changed i && negb (highlighted i)) (wholePixels n))
    (countIf (fun i => changed i && negb (highlighted i) && increase i)
       (wholePixels n))
    (countIf (fun i => changed i && highlighted i) (wholePixels n))
    (countIf (fun i => changed i && negb (highlighted i)
                       && negb (increase i) && unrelated i) (wholePixels n)).
Proof.
  intros n changed highlighted increase unrelated.
  rewrite scanPixels_counts. fold n changed highlighted increase unrelated.
  f_equal.
  - rewrite <- (wholePixels_length n). rewrite <- (countIf_all (fun _ => true))
      by reflexivity.
    rewrite <- countIf_offsets. apply countIf_ext. intros i _.
    rewrite andb_true_r. reflexivity.
  - rewrite <- countIf_offsets. apply countIf_ext. intros i _.
    rewrite !andb_assoc. reflexivity.
  - rewrite <- countIf_offsets. apply countIf_ext. intros i _.
    rewrite !andb_assoc. reflexivity.
  - rewrite <- countIf_offsets. apply countIf_ext. intros i _.
    rewrite !andb_assoc. reflexivity.
  - rewrite <- countIf_offsets. apply countIf_ext. intros i _.
    rewrite !andb_assoc. reflexivity.
Qed.

End PixelGridFacts.

Section PixelGridProperties.

Import VisualDiff.
Import PixelGrid.
Import Monitor.

Lemma sameColours_at (pixels : nat) (b b' : Buffer) (i k : nat) :
  sameColours pixels b b' = true ->
  In i (wholePixels (4 * pixels)) -> (k <= 2)%nat ->
  byteAt b (i + k) = byteAt b' (i + k).
Proof.
  unfold sameColours, wholePixels. intros H Hi Hk.
  apply in_map_iff in Hi. destruct Hi as (q & <- & Hq). apply in_seq in Hq.
  replace (4 * pixels / 4)%nat with pixels in Hq
    by (rewrite Nat.mul_comm, Nat.div_mul; lia).
  rewrite forallb_forall in H.
  specialize (H (4 * q + k)%nat).
  assert (Hin : In (4 * q + k)%nat (seq 0 (4 * pixels)))
    by (apply in_seq; lia).
  specialize (H Hin). apply orb_true_iff in H. destruct H as [H|H].
  - apply Nat.eqb_eq in H.
    assert (Hm : ((4 * q + k) mod 4 = k)%nat).
    { rewrite Nat.add_comm, Nat.mul_comm, Nat.Div0.mod_add.
      apply Nat.mod_small. lia. }
    lia.
  - apply Z.eqb_eq in H. exact H.
Qed.

Lemma wholePixels_multiple (n : nat) :
  wholePixels (4 * (n / 4)) = wholePixels n.
Proof.
  unfold wholePixels. rewrite (Nat.mul_comm 4), Nat.div_mul by lia.
  reflexivity.
Qed.

(** X1. The result depends on the colour bytes of the whole pixels of the
    common prefix only: two pairs of buffers with the same number of
    whole pixels in their common prefix and the same red, green and blue
    bytes there give the same result, whatever their alpha bytes, their
    trailing bytes and their lengths are. *)
Theorem comparison_reads_whole_pixel_colours
    (baseline current baseline' current' : Buffer) :
  let n := Nat.min (length baseline) (length current) in
  let n' := Nat.min (length baseline') (length current') in
  (n / 4 = n' / 4)%nat ->
  sameColours (n / 4) baseline baseline' = true ->
  sameColours (n / 4) current current' = true ->
  performVisualComparison baseline current
  = performVisualComparison baseline' current'.
Proof.
  intros n n' Hn Hb Hc. unfold performVisualComparison. f_equal.
  rewrite !scanPixels_wholePixels. fold n n'.
  rewrite <- (wholePixels_multiple n), <- (wholePixels_multiple n'), <- Hn.
  assert (Hch : forall i, In i (wholePixels (4 * (n / 4))) ->
            pixelChanged baseline current i = pixelChanged baseline' current' i).
  { intros i Hi. unfold pixelChanged.
    rewrite <- (Nat.add_0_r i) at 1 4.
    rewrite !(sameColours_at _ _ _ i _ Hb Hi), !(sameColours_at _ _ _ i _ Hc Hi)
      by lia.
    rewrite Nat.add_0_r. reflexivity. }
  assert (Hat : forall (f : Z -> Z -> Z -> bool) b b' i,
            sameColours (n / 4) b b' = true ->
            In i (wholePixels (4 * (n / 4))) ->
            f (byteAt b i) (byteAt b (i + 1)) (byteAt b (i + 2))
            = f (byteAt b' i) (byteAt b' (i + 1)) (byteAt b' (i + 2))).
  { intros f b b' i H Hi.
    rewrite (sameColours_at _ _ _ i 1 H Hi), (sameColours_at _ _ _ i 2 H Hi)
      by lia.
    pose proof (sameColours_at _ _ _ i 0 H Hi ltac:(lia)) as H0.
    rewrite Nat.add_0_r in H0. rewrite H0. reflexivity. }
  assert (Hhl : forall i, In i (wholePixels (4 * (n / 4))) ->
            pixelHighlighted baseline current i
            = pixelHighlighted baseline' current' i).
  { intros i Hi. unfold pixelHighlighted, highlightAt.
    rewrite (Hat isDateHighlight _ _ i Hb Hi), (Hat isDateHighlight _ _ i Hc Hi).
    reflexivity. }
  assert (Hin : forall i, In i (wholePixels (4 * (n / 4))) ->
            pixelIncrease baseline current i
            = pixelIncrease baseline' current' i).
  { intros i Hi. unfold pixelIncrease, availableAt, backgroundAt.
    rewrite (Hat isAvailable _ _ i Hb Hi), (Hat isAvailable _ _ i Hc Hi),
      (Hat isBackground _ _ i Hb Hi).
    reflexivity. }
  assert (Hun : forall i, In i (wholePixels (4 * (n / 4))) ->
            pixelUnrelated baseline current i
            = pixelUnrelated baseline' current' i).
  { intros i Hi. unfold pixelUnrelated, availableAt.
    rewrite (Hat isAvailable _ _ i Hb Hi), (Hat isAvailable _ _ i Hc Hi).
    reflexivity. }
  f_equal; try (rewrite Hn; reflexivity);
    apply countIf_ext; intros i Hi;
    rewrite ?(Hch i Hi), ?(Hhl i Hi), ?(Hin i Hi), ?(Hun i Hi); reflexivity.
Qed.

Lemma comparison_reads_whole_pixel_colours_witness :
  let baseline := bytes [100; 100; 100; 255; 7; 7]%N in
  let current := bytes [230; 205; 190; 255]%N in
  let baseline' := bytes [100; 100; 100; 0]%N in
  let current' := bytes [230; 205; 190; 0; 1; 2; 3]%N in
  performVisualComparison baseline current
  = performVisualComparison baseline' current'
  /\ shouldNotify (compared (performVisualComparison baseline' current'))
     = true.
Proof.
  split.
  - apply (comparison_reads_whole_pixel_colours
             (bytes [100; 100; 100; 255; 7; 7]%N)
             (bytes [230; 205; 190; 255]%N)
             (bytes [100; 100; 100; 0]%N)
             (bytes [230; 205; 190; 0; 1; 2; 3]%N));
      vm_compute; reflexivity.
  - vm_compute; reflexivity.
Defined.

(** X2. The counters partition the pixels: [totalPixels] is the number of
    whole pixels of the common prefix; the changed pixels and the
    discarded highlight changes are disjoint sets of them; and among the
    changed pixels, those counted as an availability increase and those
    counted as unrelated are disjoint. *)
Theorem counters_partition (baseline current : Buffer) :
  let r := performVisualComparison baseline current in
  totalPixels r
  = Z.of_nat (Nat.min (length baseline) (length current) / 4)
  /\ 0 <= changedPixels r /\ 0 <= dateHighlightChanges r
  /\ 0 <= availabilityIncrease r /\ 0 <= nonAvailabilityChanges r
  /\ changedPixels r + dateHighlightChanges r <= totalPixels r
  /\ availabilityIncrease r + nonAvailabilityChanges r <= changedPixels r.
Proof.
  intros r. subst r. unfold performVisualComparison.
  rewrite scanPixels_wholePixels.
  set (n := Nat.min (length baseline) (length current)).
  set (changed := pixelChanged baseline current).
  set (highlighted := pixelHighlighted baseline current).
  set (increase := pixelIncrease baseline current).
  set (unrelated := pixelUnrelated baseline current).
  cbn [comparisonOf totalPixels changedPixels dateHighlightChanges
       availabilityIncrease nonAvailabilityChanges
       c_totalPixels c_changedPixels c_availabilityIncrease
       c_dateHighlightChanges c_nonAvailabilityChanges].
  split; [reflexivity|].
  repeat (split; [apply countIf_nonneg|]).
  split.
  - rewrite Z.add_comm, (countIf_split changed highlighted).
    rewrite <- (wholePixels_length n), <- (countIf_all (fun _ => true))
      by reflexivity.
    apply countIf_le. reflexivity.
  - set (kept := fun i => changed i && negb (highlighted i)).
    rewrite <- (countIf_split kept increase (wholePixels n)).
    apply Z.add_le_mono_l. apply countIf_le. intros i _ H.
    unfold kept.
    destruct (changed i), (highlighted i), (increase i), (unrelated i);
      simpl in *; congruence.
Qed.

Lemma squaredDistance_sym (b c : Buffer) (i : nat) :
  squaredDistance b c i = squaredDistance c b i.
Proof. unfold squaredDistance. ring. Qed.

(** X3. Which image is the baseline does not matter for the size of a
    change: [totalPixels], [changedPixels], [dateHighlightChanges],
    [changePercentage] and [significantChange] (hence
    [shouldUpdateBaseline]) are the same when the two buffers are
    exchanged. *)
Theorem change_size_symmetric (baseline current : Buffer) :
  let r := performVisualComparison baseline current in
  let r' := performVisualComparison current baseline in
  totalPixels r = totalPixels r'
  /\ changedPixels r = changedPixels r'
  /\ dateHighlightChanges r = dateHighlightChanges r'
  /\ changePercentage r = changePercentage r'
  /\ significantChange r = significantChange r'
  /\ shouldUpdateBaseline (compared r) = shouldUpdateBaseline (compared r').
Proof.
  intros r r'. subst r r'. unfold performVisualComparison.
  rewrite !scanPixels_wholePixels.
  rewrite (Nat.min_comm (length current)).
  set (n := Nat.min (length baseline) (length current)).
  assert (Hc : forall i, pixelChanged current baseline i
                         = pixelChanged baseline current i).
  { intros i. rewrite !pixelChanged_distance, squaredDistance_sym.
    reflexivity. }
  assert (Hh : forall i, pixelHighlighted current baseline i
                         = pixelHighlighted baseline current i).
  { intros i. unfold pixelHighlighted. apply orb_comm. }
  assert (H1 : countIf (fun i => pixelChanged current baseline i
                                 && negb (pixelHighlighted current baseline i))
                 (wholePixels n)
               = countIf (fun i => pixelChanged baseline current i
                                   && negb (pixelHighlighted baseline current i))
                   (wholePixels n)).
  { apply countIf_ext. intros i _. rewrite Hc, Hh. reflexivity. }
  assert (H2 : countIf (fun i => pixelChanged current baseline i
                                 && pixelHighlighted current baseline i)
                 (wholePixels n)
               = countIf (fun i => pixelChanged baseline current i
                                   && pixelHighlighted baseline current i)
                   (wholePixels n)).
  { apply countIf_ext. intros i _. rewrite Hc, Hh. reflexivity. }
  unfold comparisonOf, compared.
  cbn [totalPixels changedPixels dateHighlightChanges changePercentage
       significantChange shouldUpdateBaseline
       c_totalPixels c_changedPixels c_dateHighlightChanges].
  rewrite H1, H2. repeat split; reflexivity.
Qed.

Lemma warmTan_available (r g b : Z) :
  isAvailable r g b = true -> isDateHighlight r g b = false ->
  warmTan r g b = true.
Proof.
  intros Ha Hh.
  destruct (available_not_highlight r g b Ha Hh) as (? & ? & ? & ?).
  unfold warmTan.
  repeat (apply andb_true_iff; split);
    first [apply Z.leb_le | apply Z.ltb_lt]; lia.
Qed.

(** X4. Only a pixel whose current colour lies in the tan band with blue
    at most 200 can count as an availability increase: the neutral band
    of [isAvailable] is shadowed by the highlight rules. An image without
    such a pixel never produces a notification, whatever the baseline
    is. *)
Theorem availability_needs_warm_tan (baseline current : Buffer) :
  let n := Nat.min (length baseline) (length current) in
  let r := performVisualComparison baseline current in
  availabilityIncrease r <= countIf (warmTanAt current) (wholePixels n)
  /\ (countIf (warmTanAt current) (wholePixels n) = 0 ->
      availabilityIncrease r = 0
      /\ likelyNewAvailability r = false
      /\ shouldNotify (compared r) = false).
Proof.
  intros n r.
  assert (H : availabilityIncrease r
              <= countIf (warmTanAt current) (wholePixels n)).
  { subst r. unfold performVisualComparison.
    rewrite scanPixels_wholePixels. fold n.
    cbn [comparisonOf availabilityIncrease c_availabilityIncrease].
    apply countIf_le. intros i _ Hi.
    repeat (apply andb_true_iff in Hi; destruct Hi as [Hi ?]).
    unfold pixelIncrease in *. unfold pixelHighlighted in *.
    repeat match goal with
           | H : (_ && _) = true |- _ => apply andb_true_iff in H; destruct H
           | H : negb _ = true |- _ => apply negb_true_iff in H
           | H : (_ || _) = false |- _ => apply orb_false_iff in H; destruct H
           end.
    unfold warmTanAt. apply warmTan_available; assumption. }
  split; [exact H|]. intros H0.
  assert (Ha : availabilityIncrease r = 0).
  { assert (0 <= availabilityIncrease r); [|lia].
    subst r. unfold performVisualComparison.
    rewrite scanPixels_wholePixels. apply countIf_nonneg. }
  split; [exact Ha|].
  assert (Hl : likelyNewAvailability r = false).
  { subst r. unfold performVisualComparison in *.
    unfold comparisonOf in *.
    cbn [likelyNewAvailability availabilityIncrease] in *.
    rewrite Ha. reflexivity. }
  split; [exact Hl|].
  unfold compared. cbn [shouldNotify]. rewrite Hl. apply andb_false_r.
Qed.

End PixelGridProperties.

(** ** More on the run *)

Section RunProperties.

Import VisualDiff.
Import Monitor.

Variable Page : Type.
Variable launchBrowser : Page -> Result unit * Page.
Variable doLogin : string -> string -> Page -> Result unit * Page.
Variable captureMonth : MonthData -> Page -> Result Buffer * Page.
Variable closeBrowser : Page -> Page.
Variable getMonthsToCheck : Z -> Z -> list MonthData.

Lemma self_comparison_insignificant (b : Buffer) :
  significantChange (performVisualComparison b b) = false.
Proof.
  unfold performVisualComparison. rewrite scanPixels_same.
  apply comparisonOf_unchanged. apply countIf_nonneg.
Qed.

(** What the iteration for a period leaves in the baseline store, by the
    outcome of its capture. *)
Lemma processMonth_store (results : list MonthResult) (month : MonthData)
    (w : World Page) :
  let w2 := snd (processMonth Page captureMonth results month w) in
  match captureMonthWithRetry Page captureMonth month
          (processing Page month w) with
  | (Throw _, _) => baselines w2 = baselines w
  | (Ok shot, _) =>
      match baselines w !! m_key month with
      | None => baselines w2 = <[m_key month := shot]> (baselines w)
      | Some base =>
          if significantChange (performVisualComparison base shot)
          then baselines w2 = <[m_key month := shot]> (baselines w)
          else baselines w2 = baselines w
      end
  end.
Proof.
  intros w2. subst w2.
  pose proof (captureMonthWithRetry_quiet Page captureMonth month
                (processing Page month w)) as (Hb & _).
  unfold processMonth, bind, tryCatch.
  change (consoleLog Page (LogProcessing (m_name month)) w)
    with (Ok tt, processing Page month w).
  cbv beta iota.
  destruct (captureMonthWithRetry Page captureMonth month _)
    as [[shot|e] w1]; cbv beta iota; cbn [snd] in Hb;
    [|unfold consoleLog, modify, ret; cbn [snd baselines set_console];
      exact Hb].
  change (baselines (processing Page month w)) with (baselines w) in Hb.
  rewrite <- Hb.
  destruct (baselines w1 !! m_key month) as [base|] eqn:Eb.
  - rewrite (compareWithBaseline_present Page month shot base w1 Eb).
    unfold ret, saveBaseline, bind, modify, consoleLog.
    change (shouldUpdateBaseline
              (compared (performVisualComparison base shot)))
      with (significantChange (performVisualComparison base shot)).
    destruct (significantChange (performVisualComparison base shot));
      reflexivity.
  - rewrite (compareWithBaseline_missing Page month shot w1 Eb).
    reflexivity.
Qed.

(** X5. The baseline of a period after its iteration: the screenshot when
    there was no baseline, or when the change was significant (whether
    or not it was notified); the old baseline otherwise, and when the
    capture failed. The baselines of the other periods are never
    touched. *)
Theorem baseline_update_policy (results : list MonthResult)
    (month : MonthData) (w : World Page) :
  let w2 := snd (processMonth Page captureMonth results month w) in
  (forall key : string,
     key <> m_key month -> baselines w2 !! key = baselines w !! key)
  /\ match captureMonthWithRetry Page captureMonth month
             (processing Page month w) with
     | (Throw _, _) => baselines w2 = baselines w
     | (Ok shot, _) =>
         baselines w2 !! m_key month =
         match baselines w !! m_key month with
         | None => Some shot
         | Some base =>
             if significantChange (performVisualComparison base shot)
             then Some shot else Some base
         end
     end.
Proof.
  intros w2. pose proof (processMonth_store results month w) as H.
  fold w2 in H. cbv zeta in H.
  destruct (captureMonthWithRetry Page captureMonth month _) as [[shot|e] w1].
  - destruct (baselines w !! m_key month) as [base|] eqn:Eb.
    + destruct (significantChange _).
      * rewrite H. split; [|apply lookup_insert_eq].
        intros key Hk. apply lookup_insert_ne. congruence.
      * rewrite H. split; [reflexivity|exact Eb].
    + rewrite H. split; [|apply lookup_insert_eq].
      intros key Hk. apply lookup_insert_ne. congruence.
  - rewrite H. split; reflexivity.
Qed.

(** X6. Processing a period is idempotent on its screenshot: once the
    iteration for a period has run on a screenshot, comparing the same
    screenshot again finds a baseline, asks for no notification and for
    no baseline update, and leaves the store as it is. *)
Theorem second_look_changes_nothing (results : list MonthResult)
    (month : MonthData) (w w1 : World Page) (shot : Buffer) :
  captureMonthWithRetry Page captureMonth month (processing Page month w)
    = (Ok shot, w1) ->
  let w2 := snd (processMonth Page captureMonth results month w) in
  exists (c : BaselineComparison) (w3 : World Page),
    compareWithBaseline Page month shot w2 = (Ok c, w3)
    /\ hasBaseline c = true
    /\ shouldNotify c = false
    /\ shouldUpdateBaseline c = false
    /\ baselines w3 = baselines w2.
Proof.
  intros Hc w2. pose proof (processMonth_store results month w) as H.
  fold w2 in H. cbv zeta in H. rewrite Hc in H.
  assert (Hself : forall base, baselines w2 !! m_key month = Some base ->
            significantChange (performVisualComparison base shot) = false ->
            exists c w3,
              compareWithBaseline Page month shot w2 = (Ok c, w3)
              /\ hasBaseline c = true /\ shouldNotify c = false
              /\ shouldUpdateBaseline c = false
              /\ baselines w3 = baselines w2).
  { intros base Hb Hs.
    rewrite (compareWithBaseline_present Page month shot base w2 Hb).
    eexists _, _. split; [reflexivity|].
    cbn [compared hasBaseline shouldNotify shouldUpdateBaseline].
    rewrite Hs. repeat split. }
  destruct (baselines w !! m_key month) as [base|] eqn:Eb.
  - destruct (significantChange (performVisualComparison base shot)) eqn:Es.
    + apply (Hself shot).
      * rewrite H. apply lookup_insert_eq.
      * apply self_comparison_insignificant.
    + apply (Hself base); [rewrite H; exact Eb|exact Es].
  - apply (Hself shot).
    + rewrite H. apply lookup_insert_eq.
    + apply self_comparison_insignificant.
Qed.

End RunProperties.

(** ** More on the throttle *)

Section ThrottleProperties.

Import VisualDiff.
Import Monitor.
Import Schedule.

Variable Page : Type.

Lemma today_is_recent (tz now : Z) (t : option Z) :
  isToday tz now t = true -> isRecent now t = true.
Proof.
  destruct t as [t|]; simpl; [|discriminate].
  unfold localDay, msPerDay. intros H. apply Z.eqb_eq in H.
  apply Z.ltb_lt.
  pose proof (Z.div_mod (t + tz) (24 * 60 * 60 * 1000) ltac:(lia)).
  pose proof (Z.div_mod (now + tz) (24 * 60 * 60 * 1000) ltac:(lia)).
  pose proof (Z.mod_pos_bound (t + tz) (24 * 60 * 60 * 1000) ltac:(lia)).
  pose proof (Z.mod_pos_bound (now + tz) (24 * 60 * 60 * 1000) ltac:(lia)).
  lia.
Qed.

Lemma todays_records_recent (tz now : Z) (l : list LogEntry) :
  List.filter (isTodaysRecord tz now) (List.filter (recentEntry now) l)
  = List.filter (isTodaysRecord tz now) l.
Proof.
  induction l as [|e l IH]; [reflexivity|].
  cbn [List.filter].
  destruct (recentEntry now e) eqn:Er; cbn [List.filter];
    rewrite IH; [reflexivity|].
  destruct (isTodaysRecord tz now e) eqn:Et; [|reflexivity].
  destruct e as [|t]; [discriminate|].
  cbn [isTodaysRecord recentEntry] in *.
  rewrite (today_is_recent tz now t Et) in Er. discriminate.
Qed.

Lemma recordsToday_same_day (tz t t' : Z) (f : LogFile) :
  localDay tz t = localDay tz t' ->
  recordsToday tz t f = recordsToday tz t' f.
Proof.
  intros H. destruct f as [| | |l]; try reflexivity.
  cbn [recordsToday]. f_equal. apply List.filter_ext. intros [|[x|]]; try reflexivity.
  cbn [isTodaysRecord isToday]. rewrite H. reflexivity.
Qed.

(** A call that posts nothing: the throttle refused, or the endpoint did
    not accept the POST. Only the console changes. *)
Lemma sendWebhookNotification_nothing (results : RunResults) (w : World Page) :
  fst (checkNotificationLimit Page w) = Ok false \/ endpoint w <> FetchOk ->
  exists c, sendWebhookNotification Page results w = (Ok tt, set_console c w).
Proof.
  intros H. unfold sendWebhookNotification, tryCatch, bind.
  destruct (checkNotificationLimit_returns Page w) as (b & c & Hl).
  rewrite Hl in H |- *. cbn [fst] in H.
  destruct b; cbn [negb].
  - destruct H as [H|H]; [discriminate|].
    unfold consoleLog, modify, fetch. cbn.
    destruct (endpoint w) as [|st|e]; [contradiction| |]; cbn; eauto.
  - unfold consoleLog, modify. cbn. eauto.
Qed.

(** A call that posts: the log gets its record, unless it cannot be
    extended. *)
Lemma sendWebhookNotification_posts (results : RunResults) (w : World Page) :
  fst (checkNotificationLimit Page w) = Ok true -> endpoint w = FetchOk ->
  exists c,
    sendWebhookNotification Page results w
    = logNotification Page
        (set_console c (set_posted (posted w ++ [payloadOf results]) w)).
Proof.
  intros H He. unfold sendWebhookNotification, tryCatch, bind.
  destruct (checkNotificationLimit_returns Page w) as (b & c & Hl).
  rewrite Hl in H |- *. cbn [fst] in H. injection H as ->. cbn [negb].
  unfold consoleLog at 1 2. unfold modify, fetch. cbn. rewrite He. cbn.
  match goal with
  | |- context [logNotification Page ?w0] =>
      destruct (logNotification_returns Page w0) as (n & c' & Hn);
      rewrite Hn; exists (c ++ [LogSendingWebhook]
                            ++ [LogWebhookSent (length (changedMonths results))])
  end.
  rewrite <- Hn. rewrite <- app_assoc. reflexivity.
Qed.

(** One call on a log of records: the ways it can go. *)
Lemma sendWebhookNotification_step (results : RunResults) (w : World Page) :
  recordsOnly (notifications w) = true ->
  notifications w <> LogNotArray ->
  let w' := snd (sendWebhookNotification Page results w) in
  let today := recordsToday (tzOffset w) (clock w) in
  tzOffset w' = tzOffset w /\ clock w' = clock w /\ endpoint w' = endpoint w
  /\ baselines w' = baselines w
  /\ recordsOnly (notifications w') = true
  /\ notifications w' <> LogNotArray
  /\ ((posted w' = posted w /\ notifications w' = notifications w
       /\ ((2 <= today (notifications w))%nat \/ endpoint w <> FetchOk))
      \/ (posted w' = posted w ++ [payloadOf results]
          /\ endpoint w = FetchOk
          /\ (today (notifications w) < 2)%nat
          /\ notifications w'
             = LogArray (List.filter (recentEntry (clock w))
                           (entriesOf (notifications w))
                         ++ [EntryRecord (Some (clock w))]))).
Proof.
  intros Hr Hna w' today. subst w' today.
  pose proof (checkNotificationLimit_records Page w Hr) as Hc.
  unfold MAX_DAILY_NOTIFICATIONS in Hc.
  destruct (Nat.ltb_spec
              (recordsToday (tzOffset w) (clock w) (notifications w)) 2)
    as [Hlt|Hge].
  - destruct (endpoint w) as [|st|e] eqn:Ee.
    + destruct (sendWebhookNotification_posts results w Hc Ee) as (c & ->).
      rewrite logNotification_writes by assumption.
      cbn [snd tzOffset clock endpoint baselines notifications posted
           set_console set_notifications set_posted recordsOnly].
      rewrite Ee.
      repeat (split; [reflexivity|]).
      split; [rewrite forallb_app, filter_recent_records; reflexivity|].
      split; [discriminate|].
      right. repeat split. exact Hlt.
    + destruct (sendWebhookNotification_nothing results w) as (c & ->);
        [right; rewrite Ee; discriminate|].
      cbn. rewrite Ee.
      repeat (split; [reflexivity || assumption|]).
      left. repeat split. right. discriminate.
    + destruct (sendWebhookNotification_nothing results w) as (c & ->);
        [right; rewrite Ee; discriminate|].
      cbn. rewrite Ee.
      repeat (split; [reflexivity || assumption|]).
      left. repeat split. right. discriminate.
  - destruct (sendWebhookNotification_nothing results w) as (c & ->);
      [left; exact Hc|].
    cbn.
    repeat (split; [reflexivity || assumption|]).
    left. repeat split. left. exact Hge.
Qed.

Lemma sendAll_cons (results : RunResults) (t : Z) (ts : list Z)
    (w : World Page) :
  sendAll Page results (t :: ts) w
  = sendAll Page results ts (sendAt Page results w t).
Proof. reflexivity. Qed.

Lemma recordsToday_logged (tz now : Z) (f : LogFile) :
  recordsToday tz now
    (LogArray (List.filter (recentEntry now) (entriesOf f)
               ++ [EntryRecord (Some now)]))
  = S (recordsToday tz now f).
Proof.
  cbn [recordsToday].
  rewrite todays_filter_app, todays_records_recent, today_now_counted.
  destruct f; cbn [entriesOf recordsToday List.filter length]; lia.
Qed.

Lemma sendAll_cap (results : RunResults) (tz d : Z) (ts : list Z) :
  forall (w : World Page) (t0 : Z),
  recordsOnly (notifications w) = true ->
  notifications w <> LogNotArray ->
  tzOffset w = tz ->
  Forall (fun t => localDay tz t = d) ts ->
  localDay tz t0 = d ->
  exists k : nat,
    posted (sendAll Page results ts w)
    = posted w ++ repeat (payloadOf results) k
    /\ (k + recordsToday tz t0 (notifications w)
        <= Nat.max 2 (recordsToday tz t0 (notifications w)))%nat.
Proof.
  induction ts as [|t ts IH]; intros w t0 Hr Hna Htz Hts Ht0.
  - exists 0%nat. cbn. rewrite app_nil_r. split; [reflexivity|lia].
  - rewrite sendAll_cons. inversion Hts as [|? ? Ht Hts']; subst.
    unfold sendAt.
    pose proof (sendWebhookNotification_step results (set_clock t w) Hr Hna)
      as Hs.
    cbv zeta in Hs.
    set (w1 := snd (sendWebhookNotification Page results (set_clock t w)))
      in *.
    change (tzOffset (set_clock t w)) with (tzOffset w) in Hs.
    change (clock (set_clock t w)) with t in Hs.
    change (notifications (set_clock t w)) with (notifications w) in Hs.
    change (posted (set_clock t w)) with (posted w) in Hs.
    destruct Hs as (Htz1 & _ & _ & _ & Hr1 & Hna1 & Hs).
    rewrite (recordsToday_same_day (tzOffset w) t0 t (notifications w))
      by congruence.
    destruct (IH w1 t Hr1 Hna1 Htz1 Hts' Ht) as (k & Hk & Hle).
    destruct Hs as [(Hp & Hn & _)|(Hp & _ & Hlt & Hn)].
    + exists k. rewrite Hk, Hp. split; [reflexivity|].
      rewrite Hn in Hle. exact Hle.
    + exists (S k). rewrite Hk, Hp, <- app_assoc. split; [reflexivity|].
      rewrite Hn, recordsToday_logged in Hle. lia.
Qed.

(** X7. The daily cap. Through a log of records (or one that does not
    exist yet), however many times [sendWebhookNotification] is called
    on one local day, it posts at most two webhooks less the number of
    notifications the log already has for that day; what it posts is the
    payload of the run. *)
Theorem at_most_two_posts_a_day (results : RunResults) (ts : list Z)
    (w : World Page) :
  recordsOnly (notifications w) = true ->
  notifications w <> LogNotArray ->
  Forall (fun t => localDay (tzOffset w) t = localDay (tzOffset w) (clock w))
    ts ->
  exists k : nat,
    posted (sendAll Page results ts w)
    = posted w ++ repeat (payloadOf results) k
    /\ (k <= 2 - recordsToday (tzOffset w) (clock w) (notifications w))%nat.
Proof.
  intros Hr Hna Hts.
  destruct (sendAll_cap results (tzOffset w)
              (localDay (tzOffset w) (clock w)) ts w (clock w)
              Hr Hna eq_refl Hts eq_refl) as (k & Hk & Hle).
  exists k. split; [exact Hk|lia].
Qed.

(** [logNotification] on a log that holds no array, or an array with a
    null entry: the error is caught and the log stays as it is. *)
Lemma logNotification_lost (w : World Page) :
  notifications w = LogNotArray
  \/ (exists l, notifications w = LogArray l /\ In EntryNull l) ->
  exists c, logNotification Page w = (Ok tt, set_console c w).
Proof.
  intros [H|(l & H & Hin)];
    unfold logNotification, readNotificationLog, jsFilter, jsPush, consoleLog,
      modify, get, bind, tryCatch, ret, throw; rewrite H; cbn.
  - eauto.
  - destruct (filterEntries_null (isRecent (clock w))
                (l ++ [EntryRecord (Some (clock w))])) as [e He].
    { apply in_or_app. left. exact Hin. }
    rewrite He. eauto.
Qed.

(** X8. A log that holds no array, or an array with a null entry, is
    never repaired: every call posts (when the endpoint accepts) and
    leaves the log as it is, so there is no cap at all. *)
Theorem corrupted_log_never_caps (results : RunResults) (ts : list Z)
    (w : World Page) :
  notifications w = LogNotArray
  \/ (exists l, notifications w = LogArray l /\ In EntryNull l) ->
  endpoint w = FetchOk ->
  posted (sendAll Page results ts w)
  = posted w ++ repeat (payloadOf results) (length ts)
  /\ notifications (sendAll Page results ts w) = notifications w.
Proof.
  revert w. induction ts as [|t ts IH]; intros w Hc He.
  - cbn. rewrite app_nil_r. split; reflexivity.
  - rewrite sendAll_cons. unfold sendAt.
    assert (Hopen : fst (checkNotificationLimit Page (set_clock t w)) = Ok true).
    { apply checkNotificationLimit_fails_open. cbn. tauto. }
    destruct (sendWebhookNotification_posts results (set_clock t w) Hopen He)
      as (c & ->).
    match goal with
    | |- context [logNotification Page ?w0] =>
        destruct (logNotification_lost w0 Hc) as (c' & ->)
    end.
    cbn [snd].
    match goal with
    | |- context [sendAll Page results ts ?w1] =>
        destruct (IH w1 Hc He) as (Hp & Hn)
    end.
    rewrite Hp, Hn. cbn. rewrite <- app_assoc. split; reflexivity.
Qed.

Lemma recent_withinWeek (now : Z) (l : list LogEntry) :
  Forall (fun e => withinWeek now e = true) (List.filter (recentEntry now) l).
Proof.
  induction l as [|[|[t|]] l IH]; cbn [List.filter recentEntry isRecent];
    try exact IH; try constructor.
  destruct (now - 7 * msPerDay <? t) eqn:E; [|exact IH].
  constructor; [exact E|exact IH].
Qed.

(** X9. The log is pruned on every write: after [logNotification] on a
    log of records it holds the records of the last seven days that it
    held before, in their order, followed by the new record; older
    records and records without a valid date are gone. *)
Theorem log_keeps_one_week (w : World Page) :
  recordsOnly (notifications w) = true ->
  notifications w <> LogNotArray ->
  exists kept : list LogEntry,
    notifications (snd (logNotification Page w))
    = LogArray (kept ++ [EntryRecord (Some (clock w))])
    /\ kept = List.filter (withinWeek (clock w)) (entriesOf (notifications w))
    /\ Forall (fun e => withinWeek (clock w) e = true)
         (kept ++ [EntryRecord (Some (clock w))])
    /\ (length kept <= length (entriesOf (notifications w)))%nat.
Proof.
  intros Hr Hna. rewrite logNotification_writes by assumption.
  cbn [snd notifications set_console set_notifications].
  assert (Hf : List.filter (recentEntry (clock w)) (entriesOf (notifications w))
               = List.filter (withinWeek (clock w))
                   (entriesOf (notifications w))).
  { apply List.filter_ext. intros [|[t|]]; reflexivity. }
  eexists. split; [reflexivity|]. split; [exact Hf|]. split.
  - apply Forall_app. split; [apply recent_withinWeek|].
    constructor; [|constructor].
    cbn [withinWeek]. unfold msPerDay. apply Z.ltb_lt. lia.
  - apply List.filter_length_le.
Qed.

(** X10. A notification that is not delivered costs nothing: when the
    endpoint rejects the POST or cannot be reached,
    [sendWebhookNotification] still returns, and the log, the posted
    webhooks and the baselines are what they were. *)
Theorem failed_delivery_costs_nothing (results : RunResults) (w : World Page) :
  endpoint w <> FetchOk ->
  let run := sendWebhookNotification Page results w in
  fst run = Ok tt
  /\ notifications (snd run) = notifications w
  /\ posted (snd run) = posted w
  /\ baselines (snd run) = baselines w.
Proof.
  intros He run. subst run.
  destruct (sendWebhookNotification_nothing results w (or_intror He))
    as (c & ->).
  repeat split.
Qed.

End ThrottleProperties.

(** ** More on [handler] and [runMonitor] *)

Section HandlerProperties.

Import VisualDiff.
Import Monitor.

Variable Page : Type.
Variable launchBrowser : Page -> Result unit * Page.
Variable doLogin : string -> string -> Page -> Result unit * Page.
Variable captureMonth : MonthData -> Page -> Result Buffer * Page.
Variable closeBrowser : Page -> Page.
Variable getMonthsToCheck : Z -> Z -> list MonthData.

Let handle := handler Page launchBrowser doLogin captureMonth closeBrowser
                getMonthsToCheck.
Let run := runMonitor Page launchBrowser doLogin captureMonth closeBrowser
             getMonthsToCheck.

Variable cannotDestructure : Error.

Let handleWire := Wire.handler Page launchBrowser doLogin captureMonth
                    closeBrowser getMonthsToCheck cannotDestructure.



(** On the requests of [Monitor.Request] the two models of [handler]
    are one. *)
Lemma handler_ofRequest (req : Request) (w : World Page) :
  handleWire (Wire.ofRequest req) w = handle req w.
Proof.
  unfold handleWire, handle, Wire.handler, handler, Wire.ofRequest.
  cbn [Wire.method Wire.body].
  destruct (String.eqb (req_method req) "GET"); [reflexivity|].
  destruct (String.eqb (req_method req) "POST"); cbn [negb]; [|reflexivity].
  unfold tryCatch, bind, get.
  destruct (req_username req) as [u|], (req_password req) as [p|],
    (envUsername w) as [eu|], (envPassword w) as [ep|];
    cbn [Wire.ofValue Wire.orDefault orDefault Wire.falsy falsy Wire.textOf
         default];
    reflexivity.
Qed.

(** X11. [handler] never throws and always answers, and the answer tells
    what happened. A GET is answered at once and a method other than
    GET and POST gets the 405. A POST whose body is undefined or null
    gets the 500 with the message of the TypeError, which the console
    repeats. A POST whose body lacks a credential gets the 400: a
    credential that is undefined is taken from the environment, and one
    that is null, or empty, or undefined in the environment too, is
    lacking. In these cases nothing else happens: no browser is
    launched and nothing is written, but for that line on the console.
    Any other POST gets the 200 with
    [success], or the 500 with the message of the exception, which the
    console repeats. *)
Theorem handler_always_answers (req : Wire.Request) (w : World Page) :
  exists (resp : Response) (w' : World Page),
    handleWire req w = (Ok resp, w')
    /\ (Wire.method req = "GET"%string -> resp = RespHealthy /\ w' = w)
    /\ (Wire.method req <> "GET"%string ->
        Wire.method req <> "POST"%string ->
        resp = RespMethodNotAllowed /\ w' = w)
    /\ (Wire.method req = "POST"%string ->
        match Wire.body req with
        | Wire.NoBody =>
            resp = RespError cannotDestructure
            /\ w' = set_console
                      (console w ++ [LogMonitorFailed cannotDestructure]) w
        | Wire.Fields username password id =>
            if Wire.falsy (Wire.orDefault username (envUsername w))
               || Wire.falsy (Wire.orDefault password (envPassword w))
            then resp = RespMissingCredentials /\ w' = w
            else (exists body : SuccessBody,
                    resp = RespSuccess body /\ success body = true)
                 \/ (exists (message : Error) (c : list LogLine),
                       resp = RespError message
                       /\ console w' = c ++ [LogMonitorFailed message])
        end).
Proof.
  unfold handleWire, Wire.handler.
  destruct (String.eqb_spec (Wire.method req) "GET") as [Hg|Hg].
  { exists RespHealthy, w. split; [reflexivity|].
    split; [auto|]. split; [contradiction|].
    intros Hp. rewrite Hp in Hg. discriminate Hg. }
  destruct (String.eqb_spec (Wire.method req) "POST") as [Hp|Hp]; cbn [negb].
  2:{ exists RespMethodNotAllowed, w. split; [reflexivity|].
      split; [contradiction|]. split; [auto|contradiction]. }
  assert (Hrest : forall (resp : Response) (w' : World Page) (P : Prop),
            P ->
            (Wire.method req = "GET"%string -> resp = RespHealthy /\ w' = w)
            /\ (Wire.method req <> "GET"%string ->
                Wire.method req <> "POST"%string ->
                resp = RespMethodNotAllowed /\ w' = w)
            /\ (Wire.method req = "POST"%string -> P)).
  { intros resp w' P HP. split; [contradiction|]. split; [contradiction|].
    intros _. exact HP. }
  unfold tryCatch.
  destruct (Wire.body req) as [|username password id].
  { unfold throw, bind, consoleLog, modify, ret. cbn.
    eexists _, _. split; [reflexivity|]. apply Hrest. split; reflexivity. }
  unfold bind, get.
  destruct (Wire.falsy (Wire.orDefault username (envUsername w))
            || Wire.falsy (Wire.orDefault password (envPassword w))) eqn:Hm.
  { exists RespMissingCredentials, w. split; [reflexivity|].
    apply Hrest. split; reflexivity. }
  match goal with
  | |- context [runMonitor ?P ?l ?d ?c ?b ?g ?u ?pw w] =>
      destruct (runMonitor P l d c b g u pw w) as [[results|e] w1]
  end.
  - destruct (0 <? length (changedMonths results))%nat.
    + destruct (sendWebhookNotification_returns Page results w1) as (w2 & ->).
      eexists _, _. split; [reflexivity|]. apply Hrest. left.
      eexists. split; reflexivity.
    + eexists _, _. split; [reflexivity|]. apply Hrest. left.
      eexists. split; reflexivity.
  - unfold consoleLog, modify, ret. cbn.
    eexists _, _. split; [reflexivity|]. apply Hrest. right.
    eexists _, _. split; reflexivity.
Qed.


End HandlerProperties.

(** ** More on the results of a run *)

Section ResultProperties.

Import VisualDiff.
Import Monitor.
Import Flagged.

Variable Page : Type.
Variable launchBrowser : Page -> Result unit * Page.
Variable doLogin : string -> string -> Page -> Result unit * Page.
Variable captureMonth : MonthData -> Page -> Result Buffer * Page.
Variable closeBrowser : Page -> Page.
Variable getMonthsToCheck : Z -> Z -> list MonthData.






Lemma max_nan_l (x : Num.number) : Num.max Num.NaN x = Num.NaN.
Proof. reflexivity. Qed.

Lemma max_nan_r (x : Num.number) : Num.max x Num.NaN = Num.NaN.
Proof. unfold Num.max. rewrite orb_true_r. reflexivity. Qed.

Lemma mathMax_nan (xs : list Num.number) :
  fold_left Num.max xs Num.NaN = Num.NaN.
Proof. induction xs as [|x xs IH]; [reflexivity|exact IH]. Qed.

Lemma mathMax_contagious (xs : list Num.number) : forall acc : Num.number,
  In Num.NaN xs -> fold_left Num.max xs acc = Num.NaN.
Proof.
  induction xs as [|x xs IH]; intros acc H; [contradiction|].
  cbn [fold_left]. destruct H as [->|H].
  - rewrite max_nan_r. apply mathMax_nan.
  - apply IH. exact H.
Qed.

Lemma degenerate_percentage (baseline shot : Buffer) :
  (Nat.min (length baseline) (length shot) < 4)%nat ->
  changePercentage (performVisualComparison baseline shot) = Num.FxNaN.
Proof.
  intros Hn. unfold performVisualComparison. rewrite scanPixels_counts.
  set (n := Nat.min (length baseline) (length shot)) in *.
  assert (Hr : forall i, pixelInRange n i = false).
  { intros i. unfold pixelInRange. apply Nat.ltb_ge. lia. }
  rewrite !countIf_false by (intros i _; rewrite Hr; reflexivity).
  reflexivity.
Qed.

(** X14. The two edges of [highestChangePercent]: over no result at all
    it is [-Infinity] (the maximum of nothing), and as soon as one result
    comes from a comparison without a whole pixel (its percentage is
    0/0) it is NaN, whatever the other results are. *)
Theorem highest_change_percent_edges :
  highestChangePercent (summary (summarize [])) = S754_infinity true
  /\ forall (results : list MonthResult) (r : MonthResult)
            (baseline shot : Buffer),
       In r results ->
       r_comparison r = Some (performVisualComparison baseline shot) ->
       (Nat.min (length baseline) (length shot) < 4)%nat ->
       highestChangePercent (summary (summarize results)) = Num.NaN.
Proof.
  split; [reflexivity|].
  intros results r base shot Hin Hc Hn.
  cbn [summarize summary highestChangePercent]. unfold mathMax.
  apply mathMax_contagious. apply in_map_iff. exists r.
  split; [|exact Hin].
  unfold changePercentOf. rewrite Hc, degenerate_percentage by assumption.
  reflexivity.
Qed.

End ResultProperties.

(** ** More on the text extraction *)

Section ExtractionProperties.

Import TextConfidence.
Import Threshold.

(** X15. When does the text extraction confirm a month? The confidence
    exceeds 0.8, the threshold that [navigateToMonth] applies, exactly
    when no other month name is in the text and two at least of the three
    signals (month, year, pattern) are there, or all three signals are
    there with two other month names at most. Month and pattern alone
    give 0.4 + 0.4, which is not above 0.8. *)
Theorem confirmation_threshold (allText workingSelector expectedMonth : string)
    (expectedYear : N) :
  let v := analyzeText allText workingSelector expectedMonth expectedYear in
  Num.gt (confidence v) (Num.literal 8 10)
  = confirms (hasExpectedMonthIn allText expectedMonth)
      (hasExpectedYearIn allText expectedYear)
      (hasExactPatternIn allText expectedMonth expectedYear)
      (length (otherMonthsIn allText expectedMonth)).
Proof.
  intros v. subst v. cbn [analyzeText confidence].
  generalize (hasExpectedMonthIn allText expectedMonth) as m.
  generalize (hasExpectedYearIn allText expectedYear) as y.
  generalize (hasExactPatternIn allText expectedMonth expectedYear) as p.
  generalize (length (otherMonthsIn allText expectedMonth)) as k.
  intros k p y m. rewrite rawScore_band.
  destruct k as [|[|[|k]]]; destruct m, y, p; vm_compute; reflexivity.
Qed.

(** The loop of [extractText] over any list of selectors. *)
Lemma extractText_fold (textContent : string -> option string)
    (selectors : list string) :
  let step := fun '(allText, workingSelector) selector =>
                match textContent selector with
                | Some text =>
                    if negb (String.eqb text EmptyString)
                       && (String.length allText <? String.length text)%nat
                    then (text, selector)
                    else (allText, workingSelector)
                | None => (allText, workingSelector)
                end in
  let '(allText, workingSelector) :=
    fold_left step selectors (EmptyString, EmptyString) in
  (forall selector text,
     In selector selectors -> textContent selector = Some text ->
     (String.length text <= String.length allText)%nat)
  /\ ((allText = EmptyString /\ workingSelector = EmptyString)
      \/ (exists before after : list string,
            selectors = before ++ workingSelector :: after
            /\ textContent workingSelector = Some allText
            /\ allText <> EmptyString
            /\ forall selector text,
                 In selector before -> textContent selector = Some text ->
                 (String.length text < String.length allText)%nat)).
Proof.
  intros step. induction selectors as [|s l IH] using rev_ind.
  - cbn. split; [intros ? ? []|]. left. split; reflexivity.
  - rewrite fold_left_app. cbn [fold_left].
    destruct (fold_left step l (EmptyString, EmptyString)) as [t sel].
    destruct IH as (Hmax & Hsel).
    assert (Hkeep :
      (forall text, textContent s = Some text ->
                    (String.length text <= String.length t)%nat) ->
      (forall selector text,
         In selector (l ++ [s]) -> textContent selector = Some text ->
         (String.length text <= String.length t)%nat)
      /\ ((t = EmptyString /\ sel = EmptyString)
          \/ (exists before after : list string,
                l ++ [s] = before ++ sel :: after
                /\ textContent sel = Some t
                /\ t <> EmptyString
                /\ forall selector text,
                     In selector before -> textContent selector = Some text ->
                     (String.length text < String.length t)%nat))).
    { intros Hs. split.
      - intros selector text Hin Htc. apply in_app_or in Hin.
        destruct Hin as [Hin|[<-|[]]]; [eapply Hmax; eassumption|].
        apply Hs. exact Htc.
      - destruct Hsel as [Hsel|(before & after & -> & H1 & H2 & H3)];
          [left; exact Hsel|].
        right. exists before, (after ++ [s]).
        rewrite <- app_assoc. repeat split; assumption. }
    unfold step at 1. destruct (textContent s) as [text|] eqn:Etc.
    + destruct (String.eqb_spec text EmptyString) as [->|Hne]; cbn [negb andb].
      * apply Hkeep. intros text H. injection H as <-. cbn. lia.
      * destruct (Nat.ltb_spec (String.length t) (String.length text))
          as [Hlt|Hge].
        -- split.
           ++ intros selector text' Hin Htc. apply in_app_or in Hin.
              destruct Hin as [Hin|[<-|[]]].
              ** specialize (Hmax selector text' Hin Htc). lia.
              ** rewrite Etc in Htc. injection Htc as <-. lia.
           ++ right. exists l, []. repeat split; try assumption.
              intros selector text' Hin Htc.
              specialize (Hmax selector text' Hin Htc). lia.
        -- apply Hkeep. intros text' H. injection H as <-. exact Hge.
    + apply Hkeep. intros text H. discriminate H.
Qed.

(** X16. The text that is analysed is the longest text that any of the
    eight calendar selectors gives, from the first selector that gives a
    text of that length; when no selector gives a text that is not
    empty, it is the empty text and no selector is reported. *)
Theorem extractText_longest (textContent : string -> option string) :
  let '(allText, workingSelector) := extractText textContent in
  (forall selector text,
     In selector calendarSelectors -> textContent selector = Some text ->
     (String.length text <= String.length allText)%nat)
  /\ ((allText = EmptyString /\ workingSelector = EmptyString)
      \/ (exists before after : list string,
            calendarSelectors = before ++ workingSelector :: after
            /\ textContent workingSelector = Some allText
            /\ allText <> EmptyString
            /\ forall selector text,
                 In selector before -> textContent selector = Some text ->
                 (String.length text < String.length allText)%nat)).
Proof. exact (extractText_fold textContent calendarSelectors). Qed.

End ExtractionProperties.

(** ** More sample runs *)

Section MoreSampleRuns.

Import VisualDiff.
Import PixelGrid.
Import Monitor.
Import Schedule.
Import Flagged.
Import Samples.
Import Scenarios.

(** A pixel of the neutral availability band is a highlight colour: on a
    dark baseline it is discarded and nothing is notified. *)
Example neutral_band_never_notifies :
  let r := performVisualComparison darkPixel (rgba 225 225 220 Byte.xff) in
  isAvailable 225 225 220 = true
  /\ countIf (warmTanAt (rgba 225 225 220 Byte.xff)) (wholePixels 4) = 0
  /\ dateHighlightChanges r = 1
  /\ availabilityIncrease r = 0
  /\ shouldNotify (compared r) = false.
Proof. vm_compute. repeat split; reflexivity. Qed.

Lemma second_look_changes_nothing_witness :
  r_shouldNotify
    (okResult september
       (compared (performVisualComparison darkPixel tanPixel))) = true
  /\ exists (c : BaselineComparison) (w3 : World unit),
       compareWithBaseline unit september tanPixel
         (snd (processMonth unit captureTan [] september throttledWorld))
       = (Ok c, w3)
       /\ hasBaseline c = true
       /\ shouldNotify c = false
       /\ shouldUpdateBaseline c = false
       /\ baselines w3
          = baselines (snd (processMonth unit captureTan [] september
                              throttledWorld)).
Proof.
  split; [vm_compute; reflexivity|].
  apply (second_look_changes_nothing unit captureTan [] september
           throttledWorld
           (snd (captureMonthWithRetry unit captureTan september
                   (processing unit september throttledWorld)))
           tanPixel).
  vm_compute. reflexivity.
Defined.

Lemma at_most_two_posts_a_day_witness :
  length (posted (sendAll unit noResults threeCalls freshWorld)) = 2%nat
  /\ exists k : nat,
       posted (sendAll unit noResults threeCalls freshWorld)
       = posted freshWorld ++ repeat (payloadOf noResults) k
       /\ (k <= 2 - recordsToday (tzOffset freshWorld) (clock freshWorld)
                      (notifications freshWorld))%nat.
Proof.
  split; [vm_compute; reflexivity|].
  apply (at_most_two_posts_a_day unit noResults threeCalls freshWorld).
  - reflexivity.
  - discriminate.
  - repeat constructor.
Defined.

Lemma corrupted_log_never_caps_witness :
  (2 <= recordsToday (tzOffset corruptedWorld) (clock corruptedWorld)
          (notifications corruptedWorld))%nat
  /\ posted (sendAll unit noResults threeCalls corruptedWorld)
     = posted corruptedWorld
       ++ repeat (payloadOf noResults) (length threeCalls)
  /\ notifications (sendAll unit noResults threeCalls corruptedWorld)
     = notifications corruptedWorld.
Proof.
  split; [vm_compute; lia|].
  apply (corrupted_log_never_caps unit noResults threeCalls corruptedWorld).
  - right. eexists. split; [reflexivity|]. simpl. auto.
  - reflexivity.
Defined.

Lemma log_keeps_one_week_witness :
  exists kept : list LogEntry,
    notifications (snd (logNotification unit agedWorld))
    = LogArray (kept ++ [EntryRecord (Some (clock agedWorld))])
    /\ kept = List.filter (withinWeek (clock agedWorld))
                (entriesOf (notifications agedWorld))
    /\ Forall (fun e => withinWeek (clock agedWorld) e = true)
         (kept ++ [EntryRecord (Some (clock agedWorld))])
    /\ (length kept <= length (entriesOf (notifications agedWorld)))%nat.
Proof.
  apply (log_keeps_one_week unit agedWorld).
  - reflexivity.
  - discriminate.
Defined.

(** In the sample log only yesterday's record survives the write. *)
Example aged_log_after_write :
  notifications (snd (logNotification unit agedWorld))
  = LogArray [EntryRecord (Some (morning - 86400000));
              EntryRecord (Some morning)].
Proof. vm_compute. reflexivity. Qed.

Lemma failed_delivery_costs_nothing_witness :
  endpoint rejectingWorld <> FetchOk
  /\ fst (sendWebhookNotification unit noResults rejectingWorld) = Ok tt
  /\ notifications (snd (sendWebhookNotification unit noResults rejectingWorld))
     = notifications rejectingWorld
  /\ posted (snd (sendWebhookNotification unit noResults rejectingWorld))
     = posted rejectingWorld
  /\ baselines (snd (sendWebhookNotification unit noResults rejectingWorld))
     = baselines rejectingWorld.
Proof.
  split; [discriminate|].
  apply (failed_delivery_costs_nothing unit noResults rejectingWorld).
  discriminate.
Defined.


(** With the wrong password the login throws; the answer is the 500 and
    the browser that was launched is closed. *)
Example wrong_password_run :
  let run := handler Journal journalLaunch journalLogin journalCapture
               journalClose onlySeptember wrongPassword journalWorld in
  fst run = Ok (RespError "Timeout 30000ms exceeded")
  /\ page (snd run) = [Launched; Closed].
Proof. vm_compute. split; reflexivity. Qed.


Lemma highest_change_percent_edges_witness :
  In emptyCapture [okResult september (baselineCreated september);
                   emptyCapture]
  /\ highestChangePercent
       (summary (summarize [okResult september (baselineCreated september);
                            emptyCapture]))
     = Num.NaN.
Proof.
  split; [simpl; auto|].
  apply (proj2 highest_change_percent_edges
           [okResult september (baselineCreated september); emptyCapture]
           emptyCapture (bytes [1; 2; 3]%N) (bytes []));
    [simpl; auto | reflexivity | simpl; lia].
Defined.

End MoreSampleRuns.

(** ** The header parser and the direction of navigation *)

Section HeaderFacts.

Import TextConfidence.
Import Regex.
Import Header.

Lemma string_app_assoc (a b c : string) :
  ((a ++ b) ++ c = a ++ (b ++ c))%string.
Proof.
  induction a as [|x a IH]; [reflexivity|].
  change (String x ((a ++ b) ++ c) = String x (a ++ (b ++ c)))%string.
  rewrite IH. reflexivity.
Qed.

Lemma string_app_nil_r (a : string) : (a ++ EmptyString)%string = a.
Proof.
  induction a as [|x a IH]; [reflexivity|].
  change (String x (a ++ EmptyString)%string = String x a).
  rewrite IH. reflexivity.
Qed.

Lemma string_app_cons (x : ascii) (a b : string) :
  (String x a ++ b)%string = String x (a ++ b)%string.
Proof. reflexivity. Qed.

Lemma string_app_snoc (a : string) (x : ascii) (b : string) :
  ((a ++ String x EmptyString) ++ b)%string = (a ++ String x b)%string.
Proof. rewrite string_app_assoc. reflexivity. Qed.

(** *** What a successful match consumed *)

Lemma occursIn_cons (c s : string) (x : ascii) :
  occursIn c s -> occursIn c (String x s).
Proof.
  intros (b & a & ->). exists (String x b), a. reflexivity.
Qed.

Lemma occursIn_app_r (c s pre : string) :
  occursIn c s -> occursIn c (pre ++ s)%string.
Proof.
  intros H. induction pre as [|x pre IH]; [exact H|].
  cbn. apply occursIn_cons. exact IH.
Qed.

Lemma occursIn_prefix (c rest : string) : occursIn c (c ++ rest)%string.
Proof. exists EmptyString, rest. reflexivity. Qed.

Lemma greedySpaces_inv (k : string -> option Match) (s : string) (m : Match) :
  greedySpaces k s = Some m ->
  exists skipped s', s = (skipped ++ s')%string /\ k s' = Some m.
Proof.
  induction s as [|d s IH]; cbn.
  - intros H. exists EmptyString, EmptyString. auto.
  - destruct (isSpace d).
    + destruct (greedySpaces k s) as [m'|] eqn:E.
      * intros H. injection H as <-.
        destruct (IH eq_refl) as (sk & s' & -> & Hk).
        exists (String d sk), s'. auto.
      * intros H. exists EmptyString, (String d s). auto.
    + intros H. exists EmptyString, (String d s). auto.
Qed.

Lemma greedyWord_inv (k : string -> string -> option Match) (s : string) :
  forall (acc : string) (m : Match),
  greedyWord k acc s = Some m ->
  exists w s',
    w <> EmptyString /\ allChars isWordChar w = true
    /\ s = (w ++ s')%string /\ k (acc ++ w)%string s' = Some m.
Proof.
  induction s as [|d s IH]; intros acc m; cbn; [discriminate|].
  destruct (isWordChar d) eqn:Ed; [|discriminate].
  destruct (greedyWord k (acc ++ String d EmptyString) s) as [m'|] eqn:E.
  - intros H. injection H as <-.
    destruct (IH _ _ E) as (w & s' & Hw & Ha & -> & Hk).
    exists (String d w), s'. rewrite string_app_snoc in Hk.
    cbn. rewrite Ed. repeat split; [discriminate|assumption|assumption].
  - intros H. exists (String d EmptyString), s.
    cbn. rewrite Ed. repeat split; [discriminate|assumption].
Qed.

(** A match consumes a prefix of the text, and each group it adds is a
    piece of that text. *)
Lemma matchFrom_inv (p : list token) :
  forall (caps : list string) (s : string) (caps' : list string)
         (rest : string),
  matchFrom p caps s = Some (caps', rest) ->
  exists (groups : list string) (consumed : string),
    caps' = caps ++ groups
    /\ s = (consumed ++ rest)%string
    /\ Forall (fun c => occursIn c s) groups.
Proof.
  induction p as [|t p IH]; intros caps s caps' rest; cbn [matchFrom].
  - intros H. injection H as <- <-. exists [], EmptyString.
    rewrite app_nil_r. repeat split. constructor.
  - destruct t.
    + destruct s as [|d s]; [discriminate|].
      destruct (sameLetter c d); [|discriminate].
      intros H. destruct (IH _ _ _ _ H) as (g & co & -> & -> & Hg).
      exists g, (String d co). repeat split.
      eapply Forall_impl; [exact Hg|]. intros x. apply occursIn_cons.
    + assert (Hskip : matchFrom p caps s = Some (caps', rest) ->
                exists groups consumed,
                  caps' = caps ++ groups /\ s = (consumed ++ rest)%string
                  /\ Forall (fun c => occursIn c s) groups) by apply IH.
      destruct s as [|d s]; [exact Hskip|].
      destruct (sameLetter c d); [|exact Hskip].
      destruct (matchFrom p caps s) as [m|] eqn:E; [|exact Hskip].
      intros H. injection H as ->.
      destruct (IH _ _ _ _ E) as (g & co & -> & -> & Hg).
      exists g, (String d co). repeat split.
      eapply Forall_impl; [exact Hg|]. intros x. apply occursIn_cons.
    + intros H. apply greedySpaces_inv in H.
      destruct H as (sk & s' & -> & H).
      destruct (IH _ _ _ _ H) as (g & co & -> & -> & Hg).
      exists g, (sk ++ co)%string. rewrite string_app_assoc. repeat split.
      eapply Forall_impl; [exact Hg|]. intros x. apply occursIn_app_r.
    + destruct s as [|d s]; [discriminate|].
      destruct (isSpace d); [|discriminate].
      intros H. apply greedySpaces_inv in H.
      destruct H as (sk & s' & -> & H).
      destruct (IH _ _ _ _ H) as (g & co & -> & -> & Hg).
      exists g, (String d (sk ++ co))%string.
      split; [reflexivity|].
      split; [rewrite <- string_app_assoc; reflexivity|].
      eapply Forall_impl; [exact Hg|]. intros x Hx.
      apply occursIn_cons, occursIn_app_r. exact Hx.
    + intros H. apply greedyWord_inv in H.
      destruct H as (w & s' & Hw & Ha & -> & H). cbn in H.
      destruct (IH _ _ _ _ H) as (g & co & -> & -> & Hg).
      exists (w :: g), (w ++ co)%string.
      rewrite <- app_assoc, string_app_assoc. repeat split.
      constructor; [apply occursIn_prefix|].
      eapply Forall_impl; [exact Hg|]. intros x. apply occursIn_app_r.
    + destruct s as [|a [|b [|c [|d s]]]]; try discriminate.
      destruct (isDigit a && isDigit b && isDigit c && isDigit d);
        [|discriminate].
      intros H.
      destruct (IH _ _ _ _ H) as (g & co & -> & -> & Hg).
      exists (String a (String b (String c (String d EmptyString))) :: g),
        (String a (String b (String c (String d co)))).
      rewrite <- app_assoc. repeat split.
      constructor.
      * exists EmptyString, (co ++ rest)%string. reflexivity.
      * eapply Forall_impl; [exact Hg|]. intros x Hx.
        do 4 apply occursIn_cons. exact Hx.
Qed.

Lemma exec_inv (p : list token) (text : string) (caps : list string)
    (matched : string) :
  exec p text = Some (caps, matched) ->
  Forall (fun c => occursIn c text) caps.
Proof.
  induction text as [|d text IH]; cbn [exec].
  - destruct (matchFrom p [] EmptyString) as [[c r]|] eqn:E; [|discriminate].
    intros H. injection H as <- _.
    destruct (matchFrom_inv p _ _ _ _ E) as (g & co & -> & _ & Hg). exact Hg.
  - destruct (matchFrom p [] (String d text)) as [[c r]|] eqn:E.
    + intros H. injection H as <- _.
      destruct (matchFrom_inv p _ _ _ _ E) as (g & co & -> & _ & Hg). exact Hg.
    + intros H. eapply Forall_impl; [exact (IH H)|].
      intros x. apply occursIn_cons.
Qed.

(** *** Characters *)

Lemma letter_is_word (c : ascii) : isLetter c = true -> isWordChar c = true.
Proof.
  unfold isLetter, isWordChar. cbv zeta.
  destruct ((65 <=? code c) && (code c <=? 90))%N,
           ((97 <=? code c) && (code c <=? 122))%N;
    rewrite ?orb_true_r; cbn; intros H; first [reflexivity | discriminate H].
Qed.

Lemma space_not_word (c : ascii) : isSpace c = true -> isWordChar c = false.
Proof.
  destruct c as [[] [] [] [] [] [] [] []]; cbv; intros H;
    first [reflexivity | discriminate H].
Qed.

Lemma digit_not_space (c : ascii) : isDigit c = true -> isSpace c = false.
Proof.
  destruct c as [[] [] [] [] [] [] [] []]; cbv; intros H;
    first [reflexivity | discriminate H].
Qed.

Lemma letter_facts (c : ascii) :
  isLetter c = true ->
  isSpace c = false /\ Ascii.eqb c "-" = false /\ Ascii.eqb c "+" = false
  /\ Ascii.eqb c "0" = false /\ digitValue 10 c = None.
Proof.
  destruct c as [[] [] [] [] [] [] [] []]; cbv; intros H;
    first [repeat split; reflexivity | discriminate H].
Qed.

Lemma digit_facts (c : ascii) :
  isDigit c = true ->
  isSpace c = false /\ Ascii.eqb c "-" = false /\ Ascii.eqb c "+" = false
  /\ Ascii.eqb c "x" = false /\ Ascii.eqb c "X" = false
  /\ digitValue 10 c = Some (Z.of_N (code c) - 48)
  /\ 0 <= Z.of_N (code c) - 48 <= 9.
Proof.
  destruct c as [[] [] [] [] [] [] [] []]; cbv; intros H;
    first [discriminate H | repeat split; first [reflexivity | discriminate]].
Qed.

(** *** The parse of a usual header *)

Lemma greedyWord_run (k : string -> string -> option Match) (w : string) :
  forall (acc rest : string) (m : Match),
  w <> EmptyString -> allChars isWordChar w = true ->
  match rest with
  | String d _ => isWordChar d = false
  | EmptyString => True
  end ->
  k (acc ++ w)%string rest = Some m ->
  greedyWord k acc (w ++ rest)%string = Some m.
Proof.
  induction w as [|c w IH]; intros acc rest m Hne Hw Hrest Hk;
    [contradiction|].
  cbn [allChars] in Hw. apply andb_true_iff in Hw. destruct Hw as [Hc Hw].
  change (String c w ++ rest)%string with (String c (w ++ rest)%string).
  cbn [greedyWord]. rewrite Hc.
  destruct w as [|c' w].
  - change (EmptyString ++ rest)%string with rest.
    assert (Hnone : greedyWord k (acc ++ String c EmptyString) rest = None).
    { destruct rest as [|d rest]; [reflexivity|].
      cbn [greedyWord]. rewrite Hrest. reflexivity. }
    rewrite Hnone. exact Hk.
  - rewrite (IH (acc ++ String c EmptyString)%string rest m);
      [reflexivity|discriminate|exact Hw|exact Hrest|].
    rewrite string_app_snoc. exact Hk.
Qed.

Lemma greedySpaces_run (k : string -> option Match) (ws : string) :
  forall (rest : string) (m : Match),
  allChars isSpace ws = true ->
  match rest with
  | String d _ => isSpace d = false
  | EmptyString => True
  end ->
  k rest = Some m ->
  greedySpaces k (ws ++ rest)%string = Some m.
Proof.
  induction ws as [|c ws IH]; intros rest m Hws Hrest Hk.
  - change (EmptyString ++ rest)%string with rest.
    destruct rest as [|d rest]; [exact Hk|].
    cbn [greedySpaces]. rewrite Hrest. exact Hk.
  - cbn [allChars] in Hws. apply andb_true_iff in Hws.
    destruct Hws as [Hc Hws].
    change (String c ws ++ rest)%string with (String c (ws ++ rest)%string).
    cbn [greedySpaces]. rewrite Hc, (IH rest m Hws Hrest Hk). reflexivity.
Qed.

Lemma toLowerCase_letter_first (c : ascii) (w : string) :
  toLowerCase (String c w) = String (lowerChar c) (toLowerCase w).
Proof. reflexivity. Qed.

Lemma parseInt_word (w : string) :
  w <> EmptyString -> allChars isLetter w = true -> parseInt w = None.
Proof.
  destruct w as [|c w]; [contradiction|]. intros _ H.
  cbn [allChars] in H. apply andb_true_iff in H. destruct H as [Hc _].
  destruct (letter_facts c Hc) as (Hs & Hm & Hp & Hz & Hd).
  unfold parseInt. cbn [trimStart]. rewrite Hs, Hm, Hp.
  destruct w as [|x w]; [|rewrite Hz; cbn [andb]];
    cbn [digitsValue]; rewrite Hd; reflexivity.
Qed.

Lemma parseInt_digits4 (a b c d : ascii) :
  isDigit a = true -> isDigit b = true -> isDigit c = true ->
  isDigit d = true ->
  parseInt (String a (String b (String c (String d EmptyString))))
  = Some (1000 * (Z.of_N (code a) - 48) + 100 * (Z.of_N (code b) - 48)
          + 10 * (Z.of_N (code c) - 48) + (Z.of_N (code d) - 48)).
Proof.
  intros Ha Hb Hc Hd.
  destruct (digit_facts a Ha) as (Hs & Hm & Hp & _ & _ & Hva & _).
  destruct (digit_facts b Hb) as (_ & _ & _ & Hx & HX & Hvb & _).
  destruct (digit_facts c Hc) as (_ & _ & _ & _ & _ & Hvc & _).
  destruct (digit_facts d Hd) as (_ & _ & _ & _ & _ & Hvd & _).
  unfold parseInt. cbn [trimStart]. rewrite Hs, Hm, Hp, Hx, HX.
  rewrite andb_false_r.
  cbn [digitsValue]. rewrite Hva, Hvb, Hvc, Hvd.
  cbn [default option_map]. unfold id. f_equal. lia.
Qed.

(** X17. The usual header parses to its month and year: a word of
    letters, white space, four digits, and anything after them, is parsed
    (by the first pattern, at the start of the text) into the month in
    lower case and the year that the digits write. *)
Theorem parse_month_year_header (word spaces tail : string)
    (a b c d : ascii) :
  word <> EmptyString -> allChars isLetter word = true ->
  spaces <> EmptyString -> allChars isSpace spaces = true ->
  isDigit a = true -> isDigit b = true -> isDigit c = true ->
  isDigit d = true ->
  parseMonthHeader
    (Some (word ++ spaces
           ++ String a (String b (String c (String d tail))))%string)
  = {| month := Some (toLowerCase word);
       year := Some (1000 * (Z.of_N (code a) - 48)
                     + 100 * (Z.of_N (code b) - 48)
                     + 10 * (Z.of_N (code c) - 48)
                     + (Z.of_N (code d) - 48)) |}.
Proof.
  intros Hw Hl Hs Hsp Ha Hb Hc Hd.
  set (digits := String a (String b (String c (String d EmptyString)))).
  set (text := (word ++ spaces
                ++ String a (String b (String c (String d tail))))%string).
  assert (Hword : allChars isWordChar word = true).
  { clear -Hl. induction word as [|x word IH]; [reflexivity|].
    cbn [allChars] in *. apply andb_true_iff in Hl. destruct Hl as [Hx Hl].
    rewrite (letter_is_word x Hx), (IH Hl). reflexivity. }
  assert (Hmatch : matchFrom [Word; Ws1; Digits4] [] text
                   = Some ([word; digits], tail)).
  { unfold text. cbn [matchFrom].
    destruct spaces as [|sp spaces]; [contradiction|].
    cbn [allChars] in Hsp. apply andb_true_iff in Hsp.
    destruct Hsp as [Hsp1 Hsp].
    apply greedyWord_run; [exact Hw|exact Hword| |].
    - change (String sp spaces ++ ?r)%string with (String sp (spaces ++ r)%string).
      apply space_not_word. exact Hsp1.
    - change (EmptyString ++ word)%string with word.
      change (String sp spaces ++ ?r)%string with (String sp (spaces ++ r)%string).
      cbn [matchFrom app]. rewrite Hsp1.
      apply greedySpaces_run; [exact Hsp|apply digit_not_space; exact Ha|].
      rewrite Ha, Hb, Hc, Hd. reflexivity. }
  assert (Hfirst : firstMatch headerPatterns text = Some [word; digits]).
  { unfold headerPatterns. cbn [firstMatch].
    assert (He : exists matched,
               exec [Word; Ws1; Digits4] text = Some ([word; digits], matched)).
    { destruct text as [|x text']; cbn [exec]; rewrite Hmatch; eauto. }
    destruct He as (matched & ->). reflexivity. }
  unfold parseMonthHeader. fold text. rewrite Hfirst.
  destruct text as [|x text'] eqn:Et.
  { exfalso. unfold text in Et. destruct word; [contradiction|discriminate]. }
  unfold parseGroups. rewrite (parseInt_word word Hw Hl).
  unfold digits. rewrite parseInt_digits4 by assumption. reflexivity.
Qed.

Lemma firstMatch_inv (patterns : list (list token)) (text : string)
    (caps : list string) :
  firstMatch patterns text = Some caps ->
  Forall (fun c => occursIn c text) caps.
Proof.
  induction patterns as [|p patterns IH]; cbn [firstMatch]; [discriminate|].
  destruct (exec p text) as [[c matched]|] eqn:E; [|exact IH].
  intros H. injection H as <-. exact (exec_inv p text c matched E).
Qed.

(** X18. [parseMonthHeader] never invents a month: what it returns is
    [unknown] with year 0, or the lower case of a piece of the header
    text. *)
Theorem parsed_month_occurs_in_header (headerText : option string) :
  parseMonthHeader headerText = unknown
  \/ exists text piece : string,
       headerText = Some text /\ occursIn piece text
       /\ month (parseMonthHeader headerText) = Some (toLowerCase piece).
Proof.
  destruct headerText as [text|]; [|left; reflexivity].
  destruct text as [|x text]; [left; reflexivity|].
  cbn [parseMonthHeader].
  destruct (firstMatch headerPatterns (String x text)) as [caps|] eqn:E;
    [|left; reflexivity].
  pose proof (firstMatch_inv _ _ _ E) as Hc.
  destruct caps as [|first [|second [|third caps]]];
    try (left; reflexivity).
  right. inversion Hc as [|? ? H1 Hc']. inversion Hc' as [|? ? H2 _].
  unfold parseGroups. cbn [month].
  destruct (parseInt first).
  - exists (String x text), second. auto.
  - exists (String x text), first. auto.
Qed.

(** *** The direction *)

Lemma monthNames_index (mc mt : string) :
  existsb (String.eqb mc) monthNames = true ->
  existsb (String.eqb mt) monthNames = true ->
  String.eqb mc mt
  = (indexFrom monthNames mc 0 =? indexFrom monthNames mt 0)
  /\ 0 <= indexFrom monthNames mc 0 < 12
  /\ 0 <= indexFrom monthNames mt 0 < 12.
Proof.
  unfold monthNames. cbn [existsb]. intros Hc Ht.
  repeat (apply orb_true_iff in Hc; destruct Hc as [Hc|Hc]);
    try discriminate Hc; apply String.eqb_eq in Hc; subst mc;
    repeat (apply orb_true_iff in Ht; destruct Ht as [Ht|Ht]);
    try discriminate Ht; apply String.eqb_eq in Ht; subst mt;
    vm_compute; repeat split; discriminate.
Qed.

(** X19. The direction points at the target: with both months among the
    twelve names and both years numbers, the answer compares the places
    of the two months on the time line (twelve times the year plus the
    index of the month): [already_there] when they are the same,
    [forward] when the current one is earlier, [backward] when it is
    later. *)
Theorem direction_follows_timeline (current target : Parsed) (tc tt : Z) :
  knownMonth current = true -> knownMonth target = true ->
  timeline current = Some tc -> timeline target = Some tt ->
  calculateNavigationDirection current target
  = match tc ?= tt with
    | Eq => AlreadyThere
    | Lt => Forward
    | Gt => Backward
    end.
Proof.
  destruct current as [[mc|] [yc|]], target as [[mt|] [yt|]];
    unfold knownMonth, timeline; cbn [month year]; try discriminate.
  intros Hc Ht Etc Ett.
  destruct (monthNames_index mc mt Hc Ht) as (Heq & Hic & Hit).
  unfold calculateNavigationDirection, sameMonthYear, sameMonth, sameYear,
    yearBefore. cbn [month year]. rewrite Heq.
  unfold indexOf in *.
  revert Etc Ett Hic Hit.
  generalize (indexFrom monthNames mc 0) as ic.
  generalize (indexFrom monthNames mt 0) as it.
  intros it ic Etc Ett Hic Hit.
  assert (Htc : tc = 12 * yc + ic) by congruence.
  assert (Htt : tt = 12 * yt + it) by congruence.
  subst tc tt. clear Etc Ett.
  destruct (Z.eqb_spec ic it), (Z.eqb_spec yc yt), (Z.ltb_spec yc yt),
    (Z.ltb_spec yt yc), (Z.ltb_spec ic it); cbn [andb];
    destruct (Z.compare_spec (12 * yc + ic) (12 * yt + it));
    first [reflexivity | lia].
Qed.

(** X20. A header that cannot be parsed sends the calendar forward:
    from [unknown] (month [unknown], year 0) the direction to any of the
    twelve months of a year that is not negative is [forward]. *)
Theorem unknown_header_goes_forward (target : Parsed) (yt : Z) :
  knownMonth target = true -> year target = Some yt -> 0 <= yt ->
  calculateNavigationDirection unknown target = Forward.
Proof.
  destruct target as [[mt|] y]; unfold knownMonth; cbn [month year];
    try discriminate.
  intros Ht -> Hy.
  assert (Hu : String.eqb "unknown" mt = false).
  { unfold monthNames in Ht. cbn [existsb] in Ht.
    repeat (apply orb_true_iff in Ht; destruct Ht as [Ht|Ht]);
      try discriminate Ht; apply String.eqb_eq in Ht; subst mt; reflexivity. }
  assert (Hi : 0 <= indexFrom monthNames mt 0).
  { unfold monthNames in Ht. cbn [existsb] in Ht.
    repeat (apply orb_true_iff in Ht; destruct Ht as [Ht|Ht]);
      try discriminate Ht; apply String.eqb_eq in Ht; subst mt;
      vm_compute; discriminate. }
  unfold calculateNavigationDirection, sameMonthYear, sameMonth, sameYear,
    yearBefore, indexOf, unknown. cbn [month year]. rewrite Hu. cbn [andb].
  change (indexFrom monthNames "unknown" 0) with (-1).
  destruct (Z.ltb_spec 0 yt); [reflexivity|].
  destruct (Z.ltb_spec yt 0); [lia|].
  destruct (Z.ltb_spec (-1) (indexFrom monthNames mt 0)); [reflexivity|lia].
Qed.

End HeaderFacts.

(** ** The navigation *)

Section NavigationFacts.

Import VisualDiff.
Import TextConfidence.
Import Monitor.
Import Regex.
Import Header.
Import Playwright.
Import Navigation.
Import Site.

Variable Page : Type.
Variable browser : Browser Page.
Variable Inv : Page -> Prop.
Hypothesis site : closed Page Inv browser.

Lemma ensures_pure {A} (a : A) (Q : A -> Prop) :
  Q a -> ensures Inv (pure a) Q.
Proof.
  intros H p res p' Hp E. unfold pure in E. injection E as <- <-. auto.
Qed.

Lemma ensures_raise {A} (e : Error) (Q : A -> Prop) :
  ensures Inv (raise e) Q.
Proof.
  intros p res p' Hp E. unfold raise in E. injection E as <- <-. auto.
Qed.

Lemma ensures_andThen {A B} (a : Act Page A) (k : A -> Act Page B)
    (Q : A -> Prop) (R : B -> Prop) :
  ensures Inv a Q -> (forall x, Q x -> ensures Inv (k x) R) ->
  ensures Inv (andThen a k) R.
Proof.
  intros Ha Hk p res p' Hp E. unfold andThen in E.
  destruct (a p) as [[x|e] p1] eqn:Ea.
  - destruct (Ha p _ _ Hp Ea) as (H1 & Hx). exact (Hk x Hx p1 res p' H1 E).
  - destruct (Ha p _ _ Hp Ea) as (H1 & _). injection E as <- <-. auto.
Qed.

Lemma ensures_attempt {A} (a : Act Page A) (h : Error -> Act Page A)
    (Q : A -> Prop) :
  ensures Inv a Q -> (forall e, ensures Inv (h e) Q) ->
  ensures Inv (attempt a h) Q.
Proof.
  intros Ha Hh p res p' Hp E. unfold attempt in E.
  destruct (a p) as [[x|e] p1] eqn:Ea.
  - destruct (Ha p _ _ Hp Ea) as (H1 & Hx). injection E as <- <-. auto.
  - destruct (Ha p _ _ Hp Ea) as (H1 & _). exact (Hh e p1 res p' H1 E).
Qed.

Lemma ensures_weaken {A} (a : Act Page A) (Q R : A -> Prop) :
  ensures Inv a Q -> (forall x, Q x -> R x) -> ensures Inv a R.
Proof.
  intros Ha HQR p res p' Hp E. destruct (Ha p res p' Hp E) as (H1 & H2).
  split; [exact H1|]. destruct res; auto.
Qed.

Lemma ensures_pure_andThen {A B} (x : A) (k : A -> Act Page B)
    (R : B -> Prop) :
  ensures Inv (k x) R -> ensures Inv (andThen (pure x) k) R.
Proof. intros H p res p' Hp E. exact (H p res p' Hp E). Qed.

Lemma stays_andThen {A B} (a : Act Page A) (k : A -> Act Page B) :
  stays Inv a -> (forall x, stays Inv (k x)) -> stays Inv (andThen a k).
Proof. intros Ha Hk. eapply ensures_andThen; [exact Ha|]. intros x _. apply Hk. Qed.

Lemma stays_any {A} (a : Act Page A) (Q : A -> Prop) :
  ensures Inv a Q -> stays Inv a.
Proof. intros H. eapply ensures_weaken; [exact H|]. auto. Qed.

(** Whatever is built from the calls of the page stays on the site. *)
Ltac stay :=
  repeat first
    [ apply ensures_pure; exact I
    | apply ensures_raise
    | apply stays_andThen; [|intros ?]
    | apply ensures_attempt; [|intros ?]
    | apply (closed_goto Page Inv browser site)
    | apply (closed_waitForTimeout Page Inv browser site)
    | apply (closed_screenshot Page Inv browser site)
    | apply (closed_screenshotTo Page Inv browser site)
    | apply (closed_clipScreenshot Page Inv browser site)
    | apply (closed_textContent Page Inv browser site)
    | apply (closed_firstTextContent Page Inv browser site)
    | apply (closed_firstIsVisible Page Inv browser site)
    | apply (closed_firstClick Page Inv browser site)
    | apply (closed_count Page Inv browser site)
    | apply (closed_firstScrollIntoView Page Inv browser site)
    | apply (closed_firstScreenshot Page Inv browser site)
    | match goal with
      | |- ensures _ (if ?c then _ else _) _ => destruct c
      | |- ensures _ (match ?x with _ => _ end) _ => destruct x
      | |- stays _ (if ?c then _ else _) => destruct c
      | |- stays _ (match ?x with _ => _ end) => destruct x
      | |- stays _ _ => unfold stays
      end
    | assumption ].

Lemma clickFirstVisible_stays (selectors : list string) :
  stays Inv (clickFirstVisible Page browser selectors).
Proof. induction selectors as [|s l IH]; cbn [clickFirstVisible]; stay. Qed.

Lemma clickNavigationButton_stays (direction : Direction) :
  stays Inv (clickNavigationButton Page browser direction).
Proof. apply clickFirstVisible_stays. Qed.

Lemma stabilityRounds_stays (headerSelector : string) (rounds : nat) :
  forall (previousText : option string) (stableCount : nat),
  stays Inv (stabilityRounds Page browser headerSelector rounds previousText
               stableCount).
Proof.
  induction rounds as [|n IH]; intros previousText stableCount;
    cbn [stabilityRounds]; stay.
  apply IH.
Qed.

Lemma extractTextFrom_stays (selectors : list string) :
  forall allText workingSelector : string,
  stays Inv (extractTextFrom Page browser selectors allText workingSelector).
Proof.
  induction selectors as [|s l IH]; intros allText workingSelector;
    cbn [extractTextFrom]; stay.
  apply IH.
Qed.

Lemma validateMonthOnPage_stays (expectedMonth : option string)
    (expectedYear : N) :
  stays Inv (validateMonthOnPage Page browser expectedMonth expectedYear).
Proof.
  unfold validateMonthOnPage. apply stays_andThen;
    [apply extractTextFrom_stays|]. intros found. stay.
Qed.

Lemma validateCalendarDates_stays :
  stays Inv (validateCalendarDates Page browser).
Proof. unfold validateCalendarDates. stay. Qed.

Lemma findHeader_stays (selectors : list string) :
  stays Inv (findHeader Page browser selectors).
Proof. induction selectors as [|s l IH]; cbn [findHeader]; stay. Qed.

Lemma detectCurrentMonth_stays (currentYear : N) :
  stays Inv (detectCurrentMonth Page browser currentYear).
Proof.
  unfold detectCurrentMonth.
  apply stays_andThen; [apply validateMonthOnPage_stays|]. intros v.
  apply stays_andThen; [stay|]. intros primary.
  apply stays_andThen; [|intros found; stay].
  destruct (String.eqb (fst primary) EmptyString);
    [apply findHeader_stays|stay].
Qed.

Lemma tripleVerification_stays (monthData : MonthData)
    (workingSelector : string) :
  stays Inv (tripleVerification Page browser monthData workingSelector).
Proof.
  unfold tripleVerification.
  apply stays_andThen; [stay|]. intros _.
  apply stays_andThen; [stay|]. intros doubleCheck.
  apply stays_andThen; [stay|]. intros shot.
  apply stays_andThen; [apply validateMonthOnPage_stays|]. intros v.
  destruct (_ && _); [apply validateCalendarDates_stays|stay].
Qed.

Lemma attemptNavigation_stays (monthData : MonthData)
    (workingSelector : string) :
  stays Inv (attemptNavigation Page browser monthData workingSelector).
Proof.
  unfold attemptNavigation.
  apply stays_andThen; [stay|]. intros text.
  apply stays_andThen.
  { destruct (sameMonthYear _ _); [apply tripleVerification_stays|stay]. }
  intros verified. destruct verified; [stay|].
  destruct (calculateNavigationDirection _ _); [stay| |];
    (apply stays_andThen; [apply clickNavigationButton_stays|]);
    intros clicked; destruct (negb clicked); try (stay; fail);
    (apply stays_andThen; [stay|]); intros _;
    (apply stays_andThen; [apply stabilityRounds_stays|]); intros _; stay.
Qed.

Lemma navigationAttempts_stays (monthData : MonthData)
    (workingSelector : string) (left : nat) : forall attempts : nat,
  stays Inv (navigationAttempts Page browser monthData workingSelector left
               attempts).
Proof.
  induction left as [|n IH]; intros attempts; cbn [navigationAttempts];
    [stay|].
  apply stays_andThen.
  - apply ensures_attempt; [apply attemptNavigation_stays|]. intros e. stay.
  - intros round. destruct round; [apply IH|stay|stay].
Qed.

(** *** A site that never shows the target month *)

Lemma startsWith_prefix (c rest : string) : startsWith c (c ++ rest) = true.
Proof.
  induction c as [|x c IH]; [destruct rest; reflexivity|].
  change (String x c ++ rest)%string with (String x (c ++ rest)%string).
  cbn [startsWith]. rewrite Ascii.eqb_refl, IH. reflexivity.
Qed.

Lemma includes_occursIn (c s : string) :
  occursIn c s -> includes s c = true.
Proof.
  intros (before & after & ->).
  induction before as [|x before IH].
  - change (EmptyString ++ c ++ after)%string with (c ++ after)%string.
    destruct (c ++ after)%string eqn:E; cbn [includes];
      rewrite <- E, startsWith_prefix; reflexivity.
  - change (String x before ++ c ++ after)%string
      with (String x (before ++ c ++ after)%string).
    cbn [includes]. rewrite IH. apply orb_true_r.
Qed.

Lemma occursIn_toLowerCase (c s : string) :
  occursIn c s -> occursIn (toLowerCase c) (toLowerCase s).
Proof.
  intros (before & after & ->).
  exists (toLowerCase before), (toLowerCase after).
  rewrite !toLowerCase_app. reflexivity.
Qed.

(** A month that the header parser returns and that is not [unknown] is
    in the text of the header, in lower case. *)
Lemma parsed_month_in_text (text : option string) (name : string) :
  month (parseMonthHeader text) = Some name ->
  name <> "unknown"%string ->
  exists t, text = Some t /\ includes (toLowerCase t) name = true.
Proof.
  destruct text as [t|]; [|cbn; congruence].
  destruct t as [|x t]; [cbn; congruence|].
  cbn [parseMonthHeader].
  destruct (firstMatch headerPatterns (String x t)) as [caps|] eqn:E;
    [|cbn; congruence].
  pose proof (firstMatch_inv _ _ _ E) as Hc.
  destruct caps as [|first [|second [|third caps]]];
    try (cbn; congruence).
  inversion Hc as [|? ? H1 Hc']. inversion Hc' as [|? ? H2 _].
  unfold parseGroups. cbn [month]. intros Hm _.
  exists (String x t). split; [reflexivity|].
  injection Hm as <-. apply includes_occursIn, occursIn_toLowerCase.
  destruct (parseInt first); assumption.
Qed.

Lemma targetMonthName_facts (targetMonth : Z) (name : string) :
  targetMonthNameOf targetMonth = Some name ->
  name <> "unknown"%string /\ isAny name = false
  /\ toLowerCase name = name /\ includes EmptyString name = false
  /\ name <> "not_found"%string.
Proof.
  unfold targetMonthNameOf.
  destruct ((1 <=? targetMonth) && (targetMonth <=? 12)) eqn:E;
    [|discriminate].
  apply andb_true_iff in E. destruct E as [E1 E2].
  apply Z.leb_le in E1. apply Z.leb_le in E2.
  assert (H : targetMonth = 1 \/ targetMonth = 2 \/ targetMonth = 3
              \/ targetMonth = 4 \/ targetMonth = 5 \/ targetMonth = 6
              \/ targetMonth = 7 \/ targetMonth = 8 \/ targetMonth = 9
              \/ targetMonth = 10 \/ targetMonth = 11 \/ targetMonth = 12)
    by lia.
  repeat (destruct H as [->|H]); try subst targetMonth;
    cbn; intros Hn; injection Hn as <-;
    (split; [discriminate|]); repeat split; try reflexivity; discriminate.
Qed.

Section HiddenMonth.

Variable monthData : MonthData.
Variable name : string.
Hypothesis target : targetMonthNameOf (m_month monthData) = Some name.
Hypothesis hidden : neverShows Page Inv browser name.

Lemma hidden_header (text : option string) :
  withoutName name text ->
  sameMonthYear (parseMonthHeader text) (targetOf monthData) = false.
Proof.
  intros Hw. destruct (targetMonthName_facts _ _ target) as (Hu & _).
  unfold sameMonthYear, targetOf. cbn [month year]. rewrite target.
  destruct (month (parseMonthHeader text)) as [m|] eqn:Em; [|reflexivity].
  cbn [sameMonth]. destruct (String.eqb_spec m name) as [->|]; [|reflexivity].
  destruct (parsed_month_in_text text name Em Hu) as (t & -> & Hin).
  cbn [withoutName] in Hw. congruence.
Qed.

Lemma extractTextFrom_hidden (selectors : list string) :
  forall allText workingSelector : string,
  includes (toLowerCase allText) name = false ->
  ensures Inv (extractTextFrom Page browser selectors allText workingSelector)
    (fun found => includes (toLowerCase (fst found)) name = false).
Proof.
  induction selectors as [|s l IH]; intros allText workingSelector Ha;
    cbn [extractTextFrom].
  - apply ensures_pure. exact Ha.
  - eapply ensures_andThen; [|intros found Hf; apply IH; exact Hf].
    apply ensures_attempt; [|intros e; apply ensures_pure; exact Ha].
    eapply ensures_andThen; [apply hidden|].
    intros [text|] Hw; [|apply ensures_pure; exact Ha].
    destruct (_ && _); apply ensures_pure; assumption.
Qed.

Lemma validateMonthOnPage_hidden (expectedYear : N) :
  ensures Inv (validateMonthOnPage Page browser (Some name) expectedYear)
    (fun v => detectedMonth v = "not_found"%string).
Proof.
  destruct (targetMonthName_facts _ _ target) as (_ & Hany & Hlow & Hempty & _).
  unfold validateMonthOnPage.
  eapply ensures_andThen; [apply extractTextFrom_hidden; exact Hempty|].
  intros found Hf. apply ensures_pure.
  cbn [analyzeText detectedMonth]. unfold hasExpectedMonthIn.
  rewrite Hany, Hlow, Hf. reflexivity.
Qed.

Lemma attemptNavigation_hidden (workingSelector : string) :
  ensures Inv (attemptNavigation Page browser monthData workingSelector)
    (fun round => round <> Done).
Proof.
  unfold attemptNavigation.
  eapply ensures_andThen; [apply hidden|]. intros text Hw.
  rewrite (hidden_header text Hw).
  apply ensures_pure_andThen.
  assert (Hrest : forall direction,
            ensures Inv
              (andThen (clickNavigationButton Page browser direction)
                 (fun clickSuccess =>
                    if negb clickSuccess then pure Leave
                    else
                      andThen (waitForTimeout browser 3000) (fun _ =>
                      andThen
                        (waitForCalendarStability Page browser workingSelector)
                        (fun _ => pure (Next tt)))))
              (fun round : Round unit => round <> Done)).
  { intros direction.
    eapply ensures_andThen; [apply clickNavigationButton_stays|].
    intros clicked _. destruct (negb clicked);
      [apply ensures_pure; discriminate|].
    eapply ensures_andThen;
      [apply (closed_waitForTimeout Page Inv browser site)|]. intros _ _.
    eapply ensures_andThen; [apply stabilityRounds_stays|].
    intros _ _. apply ensures_pure. discriminate. }
  destruct (calculateNavigationDirection _ _); [|apply Hrest|apply Hrest].
  eapply ensures_andThen;
    [apply (closed_screenshotTo Page Inv browser site)|].
  intros _ _. apply ensures_raise.
Qed.

Lemma navigationAttempts_hidden (workingSelector : string) (left : nat) :
  forall attempts : nat,
  ensures Inv
    (navigationAttempts Page browser monthData workingSelector left attempts)
    (fun returned => returned = false).
Proof.
  induction left as [|n IH]; intros attempts; cbn [navigationAttempts];
    [apply ensures_pure; reflexivity|].
  eapply ensures_andThen.
  - apply ensures_attempt; [apply attemptNavigation_hidden|]. intros e.
    eapply ensures_andThen.
    + apply ensures_attempt;
        [apply (closed_screenshotTo Page Inv browser site)|].
      intros e'. apply ensures_pure. exact I.
    + intros _ _. apply ensures_pure. discriminate.
  - intros round Hr. destruct round; [apply IH| |contradiction].
    apply ensures_pure. reflexivity.
Qed.

Lemma finalVerification_hidden (workingSelector : string) :
  ensures Inv (finalVerification Page browser monthData workingSelector)
    (fun _ => False).
Proof.
  unfold finalVerification.
  apply ensures_attempt; [|intros e; apply ensures_raise].
  eapply ensures_andThen; [apply hidden|]. intros text Hw.
  eapply ensures_andThen.
  { unfold targetOf. cbn [month]. rewrite target.
    apply validateMonthOnPage_hidden. }
  intros v Hv.
  eapply ensures_andThen;
    [apply (closed_screenshotTo Page Inv browser site)|]. intros _ _.
  rewrite (hidden_header text Hw).
  assert (Ht : sameMonth (Some (detectedMonth v))
                 (month (targetOf monthData)) = false).
  { unfold targetOf. cbn [month]. rewrite target, Hv. cbn [sameMonth].
    destruct (targetMonthName_facts _ _ target) as (_ & _ & _ & _ & Hnf).
    destruct (String.eqb_spec "not_found" name) as [<-|]; [|reflexivity].
    contradiction. }
  rewrite Ht, andb_false_r. cbn [negb andb]. apply ensures_raise.
Qed.

Lemma navigateToMonth_hidden (currentYear : N) :
  ensures Inv (navigateToMonth Page browser currentYear monthData)
    (fun _ => False).
Proof.
  unfold navigateToMonth.
  eapply ensures_andThen;
    [apply (closed_screenshot Page Inv browser site)|]. intros shot _.
  eapply ensures_andThen; [apply detectCurrentMonth_stays|].
  intros found _.
  eapply ensures_andThen; [apply validateMonthOnPage_stays|]. intros v _.
  eapply ensures_andThen; [apply navigationAttempts_hidden|].
  intros returned ->. apply finalVerification_hidden.
Qed.

(** X21. [navigateToMonth] throws when the site never shows the name of
    the target month: on a site where no text that is read through a
    first-element lookup has that name in it (in whatever case), the
    header never matches, the text extraction never confirms, and the
    call throws, whatever else the site does. Only the name is looked
    at here: a page that shows the name with another year is another
    matter ([other_year_is_certified]). *)
Theorem navigation_fails_on_hidden_month (currentYear : N) (p : Page) :
  Inv p ->
  exists (e : Error) (p' : Page),
    navigateToMonth Page browser currentYear monthData p = (Throw e, p')
    /\ Inv p'.
Proof.
  intros Hp.
  destruct (navigateToMonth Page browser currentYear monthData p)
    as [[[]|e] p'] eqn:E.
  - destruct (navigateToMonth_hidden currentYear p _ _ Hp E) as (_ & []).
  - destruct (navigateToMonth_hidden currentYear p _ _ Hp E) as (Hp' & _).
    eauto.
Qed.

Lemma captureMonth_hidden (currentYear : N) (p : Page) :
  Inv p ->
  exists (e : Error) (p' : Page),
    Navigation.captureMonth Page browser currentYear monthData p
    = (Throw e, p')
    /\ Inv p'.
Proof.
  intros Hp.
  assert (H : ensures Inv
                (Navigation.captureMonth Page browser currentYear monthData)
                (fun _ => False)).
  { unfold Navigation.captureMonth.
    eapply ensures_andThen; [apply (closed_goto Page Inv browser site)|].
    intros _ _.
    eapply ensures_andThen;
      [apply (closed_waitForTimeout Page Inv browser site)|]. intros _ _.
    eapply ensures_andThen; [apply navigateToMonth_hidden|].
    intros _ []. }
  destruct (Navigation.captureMonth Page browser currentYear monthData p)
    as [[shot|e] p'] eqn:E.
  - destruct (H p _ _ Hp E) as (_ & []).
  - destruct (H p _ _ Hp E) as (Hp' & _). eauto.
Qed.

(** X26. A month that the site does not show is reported, not guessed:
    in [runMonitor], the iteration for such a period (with
    [captureMonth] as the program has it) makes three capture attempts,
    each from the page that the one before left and each one throwing;
    the console tells of the two retries, after one and two seconds,
    and of the final failure; the error of the third attempt is pushed
    as an error result with [shouldNotify] false; no baseline is read or
    written and the notification log is untouched. *)
Theorem hidden_month_is_reported (currentYear : N)
    (results : list MonthResult) (w : World Page) :
  Inv (page w) ->
  exists (e1 e2 e3 : Error) (p1 p2 p3 : Page) (w' : World Page),
    Navigation.captureMonth Page browser currentYear monthData (page w)
    = (Throw e1, p1)
    /\ Navigation.captureMonth Page browser currentYear monthData p1
       = (Throw e2, p2)
    /\ Navigation.captureMonth Page browser currentYear monthData p2
       = (Throw e3, p3)
    /\ processMonth Page (Navigation.captureMonth Page browser currentYear)
         results monthData w
       = (Ok (results ++ [errorResult monthData e3]), w')
    /\ page w' = p3
    /\ console w'
       = console w
         ++ [LogProcessing (m_name monthData);
             LogRetry 1 3 (m_name monthData) 1000;
             LogRetry 2 3 (m_name monthData) 2000;
             LogFinalAttemptFailed (m_name monthData) e3;
             LogErrorProcessing (m_name monthData) e3]
    /\ r_shouldNotify (errorResult monthData e3) = false
    /\ baselines w' = baselines w
    /\ notifications w' = notifications w
    /\ Inv (page w').
Proof.
  intros Hp.
  destruct (captureMonth_hidden currentYear (page w) Hp)
    as (e1 & p1 & E1 & H1).
  destruct (captureMonth_hidden currentYear p1 H1) as (e2 & p2 & E2 & H2).
  destruct (captureMonth_hidden currentYear p2 H2) as (e3 & p3 & E3 & H3).
  pose proof (capture_fails_after_three Page
                (Navigation.captureMonth Page browser currentYear)
                monthData (processing Page monthData w) e1 e2 e3 p1 p2 p3
                E1 E2 E3) as Hc.
  rewrite (processMonth_capture_fails Page _ results monthData w _ e3 Hc).
  exists e1, e2, e3, p1, p2, p3. eexists.
  split; [exact E1|]. split; [exact E2|]. split; [exact E3|].
  split; [reflexivity|]. split; [reflexivity|].
  split; [cbn; rewrite <- !app_assoc; reflexivity|].
  repeat split. exact H3.
Qed.

End HiddenMonth.

(** *** Counting the clicks *)

Section Clicks.

Variable clicks : Page -> nat.
Hypothesis counted : countsClicks Page clicks browser.

Lemma within_pure {A} (a : A) : clicksWithin clicks 0 (pure a).
Proof. intros p res p' E. unfold pure in E. injection E as <- <-. lia. Qed.

Lemma within_raise {A} (e : Error) : clicksWithin clicks 0 (@raise Page A e).
Proof. intros p res p' E. unfold raise in E. injection E as <- <-. lia. Qed.

Lemma within_still {A} (a : Act Page A) :
  still clicks a -> clicksWithin clicks 0 a.
Proof. intros H p res p' E. rewrite (H p res p' E). lia. Qed.

Lemma within_andThen {A B} (j k : nat) (a : Act Page A)
    (f : A -> Act Page B) :
  clicksWithin clicks j a -> (forall x, clicksWithin clicks k (f x)) ->
  clicksWithin clicks (j + k) (andThen a f).
Proof.
  intros Ha Hf p res p' E. unfold andThen in E.
  destruct (a p) as [[x|e] p1] eqn:Ea.
  - pose proof (Ha p _ _ Ea). pose proof (Hf x p1 _ _ E). lia.
  - injection E as <- <-. pose proof (Ha p _ _ Ea). lia.
Qed.

Lemma within_attempt {A} (j k : nat) (a : Act Page A)
    (h : Error -> Act Page A) :
  clicksWithin clicks j a -> (forall e, clicksWithin clicks k (h e)) ->
  clicksWithin clicks (j + k) (attempt a h).
Proof.
  intros Ha Hh p res p' E. unfold attempt in E.
  destruct (a p) as [[x|e] p1] eqn:Ea.
  - injection E as <- <-. pose proof (Ha p _ _ Ea). lia.
  - pose proof (Ha p _ _ Ea). pose proof (Hh e p1 _ _ E). lia.
Qed.

Lemma within_more {A} (j k : nat) (a : Act Page A) :
  (j <= k)%nat -> clicksWithin clicks j a -> clicksWithin clicks k a.
Proof. intros Hjk Ha p res p' E. pose proof (Ha p _ _ E). lia. Qed.

(** What is built from calls other than a click lets no click through. *)
Ltac noclick :=
  repeat first
    [ apply within_pure
    | apply within_raise
    | apply (within_andThen 0 0); [|intros ?]
    | apply (within_attempt 0 0); [|intros ?]
    | apply within_still;
      first
        [ apply (counts_goto Page clicks browser counted)
        | apply (counts_waitForTimeout Page clicks browser counted)
        | apply (counts_screenshot Page clicks browser counted)
        | apply (counts_screenshotTo Page clicks browser counted)
        | apply (counts_clipScreenshot Page clicks browser counted)
        | apply (counts_textContent Page clicks browser counted)
        | apply (counts_firstTextContent Page clicks browser counted)
        | apply (counts_firstIsVisible Page clicks browser counted)
        | apply (counts_count Page clicks browser counted)
        | apply (counts_firstScrollIntoView Page clicks browser counted)
        | apply (counts_firstScreenshot Page clicks browser counted) ]
    | match goal with
      | |- clicksWithin _ _ (if ?c then _ else _) => destruct c
      | |- clicksWithin _ _ (match ?x with _ => _ end) => destruct x
      end
    | assumption ].

Lemma stabilityRounds_noclick (headerSelector : string) (rounds : nat) :
  forall (previousText : option string) (stableCount : nat),
  clicksWithin clicks 0
    (stabilityRounds Page browser headerSelector rounds previousText
       stableCount).
Proof.
  induction rounds as [|n IH]; intros previousText stableCount;
    cbn [stabilityRounds]; noclick.
  apply IH.
Qed.

Lemma extractTextFrom_noclick (selectors : list string) :
  forall allText workingSelector : string,
  clicksWithin clicks 0
    (extractTextFrom Page browser selectors allText workingSelector).
Proof.
  induction selectors as [|s l IH]; intros allText workingSelector;
    cbn [extractTextFrom]; noclick.
  apply IH.
Qed.

Lemma validateMonthOnPage_noclick (expectedMonth : option string)
    (expectedYear : N) :
  clicksWithin clicks 0
    (validateMonthOnPage Page browser expectedMonth expectedYear).
Proof.
  unfold validateMonthOnPage.
  apply (within_andThen 0 0); [apply extractTextFrom_noclick|].
  intros found. noclick.
Qed.

Lemma validateCalendarDates_noclick :
  clicksWithin clicks 0 (validateCalendarDates Page browser).
Proof. unfold validateCalendarDates. noclick. Qed.

Lemma findHeader_noclick (selectors : list string) :
  clicksWithin clicks 0 (findHeader Page browser selectors).
Proof. induction selectors as [|s l IH]; cbn [findHeader]; noclick. Qed.

Lemma detectCurrentMonth_noclick (currentYear : N) :
  clicksWithin clicks 0 (detectCurrentMonth Page browser currentYear).
Proof.
  unfold detectCurrentMonth.
  apply (within_andThen 0 0); [apply validateMonthOnPage_noclick|]. intros v.
  apply (within_andThen 0 0); [noclick|]. intros primary.
  apply (within_andThen 0 0); [|intros found; noclick].
  destruct (String.eqb (fst primary) EmptyString);
    [apply findHeader_noclick|noclick].
Qed.

Lemma tripleVerification_noclick (monthData : MonthData)
    (workingSelector : string) :
  clicksWithin clicks 0
    (tripleVerification Page browser monthData workingSelector).
Proof.
  unfold tripleVerification.
  apply (within_andThen 0 0); [noclick|]. intros _.
  apply (within_andThen 0 0); [noclick|]. intros doubleCheck.
  apply (within_andThen 0 0); [noclick|]. intros shot.
  apply (within_andThen 0 0); [apply validateMonthOnPage_noclick|]. intros v.
  destruct (_ && _); [apply validateCalendarDates_noclick|noclick].
Qed.

Lemma finalVerification_noclick (monthData : MonthData)
    (workingSelector : string) :
  clicksWithin clicks 0
    (finalVerification Page browser monthData workingSelector).
Proof.
  unfold finalVerification.
  apply (within_attempt 0 0); [|intros e; noclick].
  apply (within_andThen 0 0); [noclick|]. intros text.
  apply (within_andThen 0 0); [apply validateMonthOnPage_noclick|]. intros v.
  apply (within_andThen 0 0); [noclick|]. intros _. noclick.
Qed.

(** One selector of [clickNavigationButton]: a click went through
    exactly when the answer is [true]. *)
Lemma clickFirstVisible_counts (selectors : list string) :
  forall p : Page,
  exists (clicked : bool) (p' : Page),
    clickFirstVisible Page browser selectors p = (Ok clicked, p')
    /\ clicks p' = (clicks p + if clicked then 1 else 0)%nat.
Proof.
  induction selectors as [|s l IH]; intros p; cbn [clickFirstVisible].
  - exists false, p. split; [reflexivity|lia].
  - unfold andThen at 1. unfold attempt, andThen at 1.
    destruct (firstIsVisible browser s (Some 2000) p) as [[v|e] p1] eqn:Ev.
    + pose proof (counts_firstIsVisible Page clicks browser counted
                    s (Some 2000) p _ _ Ev) as Hv.
      destruct v.
      * unfold andThen at 1.
        destruct (firstClick browser s p1) as [[[]|e] p2] eqn:Ec.
        -- pose proof (counts_firstClick Page clicks browser counted
                         s p1 _ _ Ec) as Hc. cbn in Hc.
           unfold pure. exists true, p2. split; [reflexivity|lia].
        -- pose proof (counts_firstClick Page clicks browser counted
                         s p1 _ _ Ec) as Hc. cbn in Hc.
           unfold pure at 1.
           destruct (IH p2) as (c & p' & -> & Hp).
           exists c, p'. split; [reflexivity|lia].
      * unfold pure at 1.
        destruct (IH p1) as (c & p' & -> & Hp).
        exists c, p'. split; [reflexivity|lia].
    + pose proof (counts_firstIsVisible Page clicks browser counted
                    s (Some 2000) p _ _ Ev) as Hv.
      unfold pure at 1.
      destruct (IH p1) as (c & p' & -> & Hp).
      exists c, p'. split; [reflexivity|lia].
Qed.

(** A button that can be clicked is reached: the selectors before it
    that are not visible, or whose click throws, are passed over. *)
Lemma clickFirstVisible_finds (selectors : list string) :
  (exists selector : string,
     In selector selectors /\ clickable Inv browser selector) ->
  forall p : Page,
    Inv p ->
    exists p' : Page,
      clickFirstVisible Page browser selectors p = (Ok true, p').
Proof.
  induction selectors as [|s l IH]; intros (sel & Hin & Hv & Hc) p Hp.
  { destruct Hin. }
  cbn [clickFirstVisible]. unfold andThen at 1. unfold attempt, andThen at 1.
  destruct (firstIsVisible browser s (Some 2000) p) as [[v|e] p1] eqn:Ev.
  - destruct (closed_firstIsVisible Page Inv browser site s (Some 2000)
                p _ _ Hp Ev) as [Hp1 _].
    destruct v.
    + unfold andThen at 1.
      destruct (firstClick browser s p1) as [[[]|e] p2] eqn:Ec.
      * unfold pure. eexists. reflexivity.
      * destruct (closed_firstClick Page Inv browser site s p1 _ _ Hp1 Ec)
          as [Hp2 _].
        unfold pure at 1. apply IH; [|exact Hp2].
        destruct Hin as [<- | Hin];
          [|exists sel; split; [exact Hin|split; assumption]].
        destruct (Hc p1 Hp1) as ([] & p3 & E3 & _). congruence.
    + unfold pure at 1. apply IH; [|exact Hp1].
      destruct Hin as [<- | Hin];
          [|exists sel; split; [exact Hin|split; assumption]].
      destruct (Hv p Hp) as (r & p3 & E3 & _ & ->). congruence.
  - destruct (closed_firstIsVisible Page Inv browser site s (Some 2000)
                p _ _ Hp Ev) as [Hp1 _].
    unfold pure at 1. apply IH; [|exact Hp1].
    destruct Hin as [<- | Hin];
          [|exists sel; split; [exact Hin|split; assumption]].
    destruct (Hv p Hp) as (r & p3 & E3 & _). congruence.
Qed.

(** X22. [clickNavigationButton] never throws, lets at most one click
    through, and answers [true] exactly when one went through: a click
    that throws is not counted. And the next selector is tried: when,
    on the pages of the site, one of the buttons for the direction is
    visible and can be clicked, the answer is [true], whatever the
    selectors before it do. *)
Theorem click_answers_what_happened (direction : Direction) (p : Page) :
  exists (clicked : bool) (p' : Page),
    clickNavigationButton Page browser direction p = (Ok clicked, p')
    /\ clicks p' = (clicks p + if clicked then 1 else 0)%nat
    /\ (Inv p ->
        (exists selector : string,
           In selector (buttonSelectors direction)
           /\ clickable Inv browser selector) ->
        clicked = true).
Proof.
  destruct (clickFirstVisible_counts (buttonSelectors direction) p)
    as (c & p' & E & Hc).
  exists c, p'. split; [exact E|]. split; [exact Hc|].
  intros Hp Hs.
  destruct (clickFirstVisible_finds (buttonSelectors direction) Hs p Hp)
    as (p2 & E2).
  rewrite E2 in E. injection E as <- _. reflexivity.
Qed.

Lemma clickNavigationButton_within (direction : Direction) :
  clicksWithin clicks 1 (clickNavigationButton Page browser direction).
Proof.
  intros p res p' E.
  destruct (clickFirstVisible_counts (buttonSelectors direction) p)
    as (c & p1 & E1 & Hc).
  unfold clickNavigationButton in E. rewrite E1 in E. injection E as <- <-.
  destruct c; lia.
Qed.

Lemma attemptNavigation_within (monthData : MonthData)
    (workingSelector : string) :
  clicksWithin clicks 1
    (attemptNavigation Page browser monthData workingSelector).
Proof.
  unfold attemptNavigation.
  apply (within_andThen 0 1); [noclick|]. intros text.
  apply (within_andThen 0 1).
  { destruct (sameMonthYear _ _); [apply tripleVerification_noclick|noclick]. }
  intros verified.
  destruct verified; [apply (within_more 0); [lia|noclick]|].
  assert (Hrest : forall direction,
            clicksWithin clicks 1
              (andThen (clickNavigationButton Page browser direction)
                 (fun clickSuccess =>
                    if negb clickSuccess then pure Leave
                    else
                      andThen (waitForTimeout browser 3000) (fun _ =>
                      andThen
                        (waitForCalendarStability Page browser workingSelector)
                        (fun _ => pure (Next tt)))))).
  { intros direction.
    apply (within_andThen 1 0); [apply clickNavigationButton_within|].
    intros clicked. destruct (negb clicked); [noclick|].
    apply (within_andThen 0 0); [noclick|]. intros _.
    apply (within_andThen 0 0); [apply stabilityRounds_noclick|]. intros _.
    noclick. }
  destruct (calculateNavigationDirection _ _); [|apply Hrest|apply Hrest].
  apply (within_more 0); [lia|]. noclick.
Qed.

Lemma navigationAttempts_within (monthData : MonthData)
    (workingSelector : string) (left : nat) : forall attempts : nat,
  clicksWithin clicks left
    (navigationAttempts Page browser monthData workingSelector left attempts).
Proof.
  induction left as [|n IH]; intros attempts; cbn [navigationAttempts];
    [noclick|].
  apply (within_andThen 1 n).
  - apply (within_attempt 1 0); [apply attemptNavigation_within|].
    intros e. noclick.
  - intros round. destruct round; [apply IH| |];
      (apply (within_more 0); [lia|noclick]).
Qed.

(** X23. [navigateToMonth] clicks twelve times at most: however the
    site answers, at most twelve clicks on a navigation button go
    through in one call, one in each attempt. *)
Theorem navigation_clicks_at_most_twelve (currentYear : N)
    (monthData : MonthData) (p : Page) :
  let p' := snd (navigateToMonth Page browser currentYear monthData p) in
  (clicks p <= clicks p' <= clicks p + 12)%nat.
Proof.
  intros p'. subst p'.
  assert (H : clicksWithin clicks 12
                (navigateToMonth Page browser currentYear monthData)).
  { unfold navigateToMonth.
    apply (within_andThen 0 12); [noclick|]. intros shot.
    apply (within_andThen 0 12); [apply detectCurrentMonth_noclick|].
    intros found.
    apply (within_andThen 0 12); [apply validateMonthOnPage_noclick|].
    intros v.
    apply (within_andThen 12 0); [apply navigationAttempts_within|].
    intros returned. destruct returned; [noclick|].
    apply finalVerification_noclick. }
  destruct (navigateToMonth Page browser currentYear monthData p)
    as [res p'] eqn:E.
  exact (H p res p' E).
Qed.

End Clicks.

End NavigationFacts.

(** ** The navigation on sites that answer *)

Section SiteBehaviour.

Import VisualDiff.
Import TextConfidence.
Import Monitor.
Import Regex.
Import Header.
Import Playwright.
Import Navigation.
Import Site.

Variable Page : Type.
Variable browser : Browser Page.
Variable Inv : Page -> Prop.

Lemma returns_pure {A} (a : A) (Q : A -> Prop) :
  Q a -> returns Inv (pure a) Q.
Proof. intros H p Hp. exists a, p. auto. Qed.

Lemma returns_andThen {A B} (a : Act Page A) (k : A -> Act Page B)
    (Q : A -> Prop) (R : B -> Prop) :
  returns Inv a Q -> (forall x, Q x -> returns Inv (k x) R) ->
  returns Inv (andThen a k) R.
Proof.
  intros Ha Hk p Hp. destruct (Ha p Hp) as (x & p1 & Ea & H1 & Hx).
  destruct (Hk x Hx p1 H1) as (y & p2 & Ek & H2 & Hy).
  exists y, p2. unfold andThen. rewrite Ea. auto.
Qed.

Lemma returns_attempt {A} (a : Act Page A) (h : Error -> Act Page A)
    (Q : A -> Prop) :
  ensures Inv a Q -> (forall e, returns Inv (h e) Q) ->
  returns Inv (attempt a h) Q.
Proof.
  intros Ha Hh p Hp. unfold attempt.
  destruct (a p) as [[x|e] p1] eqn:Ea.
  - destruct (Ha p _ _ Hp Ea) as (H1 & Hx). exists x, p1. auto.
  - destruct (Ha p _ _ Hp Ea) as (H1 & _). apply Hh. exact H1.
Qed.


Lemma returns_weaken {A} (a : Act Page A) (Q R : A -> Prop) :
  returns Inv a Q -> (forall x, Q x -> R x) -> returns Inv a R.
Proof.
  intros Ha HQR p Hp. destruct (Ha p Hp) as (x & p1 & Ea & H1 & Hx).
  exists x, p1. auto.
Qed.

(** *** A site that shows no text *)

Section Blank.

Hypothesis nothing : showsNothing Page Inv browser.

Lemma extractTextFrom_blank (selectors : list string) :
  returns Inv
    (extractTextFrom Page browser selectors EmptyString EmptyString)
    (fun found => found = (EmptyString, EmptyString)).
Proof.
  induction selectors as [|s l IH]; cbn [extractTextFrom].
  - apply returns_pure. reflexivity.
  - eapply returns_andThen
      with (Q := fun found : string * string =>
                   found = (EmptyString, EmptyString));
      [|intros found ->; exact IH].
    apply returns_attempt; [|intros e; apply returns_pure; reflexivity].
    eapply ensures_andThen; [apply nothing|].
    intros [text|] Hb; cbn [blank] in Hb;
      [subst text|]; apply ensures_pure; reflexivity.
Qed.

Lemma findHeader_blank (selectors : list string) :
  returns Inv (findHeader Page browser selectors)
    (fun found => found = (EmptyString, EmptyString)).
Proof.
  induction selectors as [|s l IH]; cbn [findHeader].
  - apply returns_pure. reflexivity.
  - eapply returns_andThen
      with (Q := fun found : string => found = EmptyString);
      [|intros found ->; exact IH].
    apply returns_attempt; [|intros e; apply returns_pure; reflexivity].
    eapply ensures_andThen; [apply nothing|].
    intros [text|] Hb; cbn [blank] in Hb;
      [subst text|]; apply ensures_pure; reflexivity.
Qed.

(** X24. On a site that shows no text (every lookup throws, or gives
    null or the empty text), [navigateToMonth] gives up before its first
    attempt: once the first screenshot is taken it throws
    [Cannot detect month ...], whatever the target is. *)
Theorem navigation_cannot_detect (currentYear : N) (monthData : MonthData)
    (p : Page) :
  returns Inv (screenshot browser) (fun _ => True) ->
  Inv p ->
  exists p' : Page,
    navigateToMonth Page browser currentYear monthData p
    = (Throw cannotDetect, p')
    /\ Inv p'.
Proof.
  intros Hshot Hp. unfold navigateToMonth.
  destruct (Hshot p Hp) as (shot & p1 & Es & H1 & _).
  unfold andThen at 1. rewrite Es.
  assert (Hd : exists p2,
             detectCurrentMonth Page browser currentYear p1
             = (Throw cannotDetect, p2) /\ Inv p2).
  { unfold detectCurrentMonth, validateMonthOnPage.
    destruct (extractTextFrom_blank calendarSelectors p1 H1)
      as (found & p2 & Ef & H2 & ->).
    unfold andThen at 1 2. rewrite Ef. cbn [fst snd pure].
    unfold andThen at 1. cbn [analyzeText extractedTextLength String.length].
    cbn [Nat.ltb Nat.leb pure fst].
    destruct (findHeader_blank headerSelectors p2 H2)
      as (header & p3 & Eh & H3 & ->).
    unfold andThen at 1. cbn [String.eqb]. rewrite Eh. cbn [fst String.eqb].
    exists p3. split; [reflexivity|exact H3]. }
  destruct Hd as (p2 & Ed & H2).
  unfold andThen at 1. rewrite Ed. eauto.
Qed.

End Blank.

(** *** A site that shows one month *)

Section Shown.

Variable header : string.
Hypothesis shown : showsMonth Page Inv browser header.

Lemma poll_step (headerSelector : string) (p : Page) :
  Inv p ->
  exists q : Page,
    waitForTimeout browser 500 p = (Ok tt, q)
    /\ firstTextContent browser headerSelector (Some 2000) q
       = (Ok (Some header), poll browser headerSelector p)
    /\ Inv (poll browser headerSelector p).
Proof.
  intros Hp.
  destruct (shows_wait Page Inv browser header shown 500 p Hp)
    as ([] & q & Ew & Hq & _).
  destruct (shows_first Page Inv browser header shown headerSelector
              (Some 2000) q Hq) as (t & p1 & Er & H1 & ->).
  exists q. unfold poll. rewrite Ew. cbn [snd]. rewrite Er. cbn [snd].
  auto.
Qed.

(** One round of the loop, on a page of the site. *)
Lemma stabilityRounds_step (headerSelector : string) (rounds : nat)
    (previousText : option string) (stableCount : nat) (p : Page) :
  Inv p ->
  stabilityRounds Page browser headerSelector (S rounds) previousText
    stableCount p
  = if sameText (Some header) previousText then
      if (3 <=? stableCount + 1)%nat
      then (Ok tt, poll browser headerSelector p)
      else stabilityRounds Page browser headerSelector rounds previousText
             (stableCount + 1) (poll browser headerSelector p)
    else stabilityRounds Page browser headerSelector rounds (Some header) 0
           (poll browser headerSelector p).
Proof.
  intros Hp. destruct (poll_step headerSelector p Hp) as (q & Ew & Er & _).
  cbn [stabilityRounds]. unfold andThen at 1. rewrite Ew.
  unfold andThen at 1. unfold attempt, andThen at 1. rewrite Er.
  destruct (sameText (Some header) previousText);
    [destruct (3 <=? stableCount + 1)%nat|]; reflexivity.
Qed.

(** X25. How long [waitForCalendarStability] waits on a header that
    does not change: the first reading differs from the empty text the
    loop starts from, and three more readings have to repeat it, so the
    call returns after exactly four rounds of waiting and reading (three
    when the header is the empty text), not after ten. *)
Theorem stability_takes_four_polls (headerSelector : string) (p : Page) :
  Inv p ->
  waitForCalendarStability Page browser headerSelector p
  = (Ok tt,
     Nat.iter (if String.eqb header EmptyString then 3 else 4)
       (poll browser headerSelector) p).
Proof.
  intros Hp. unfold waitForCalendarStability.
  assert (H1 : Inv (poll browser headerSelector p))
    by (destruct (poll_step headerSelector p Hp) as (_ & _ & _ & H); exact H).
  assert (H2 : Inv (poll browser headerSelector
                      (poll browser headerSelector p)))
    by (destruct (poll_step headerSelector _ H1) as (_ & _ & _ & H); exact H).
  assert (H3 : Inv (poll browser headerSelector
                      (poll browser headerSelector
                         (poll browser headerSelector p))))
    by (destruct (poll_step headerSelector _ H2) as (_ & _ & _ & H); exact H).
  rewrite stabilityRounds_step by exact Hp. cbn [sameText].
  destruct (String.eqb header EmptyString) eqn:E.
  - cbn [Nat.add Nat.leb].
    rewrite stabilityRounds_step by exact H1.
    cbn [sameText]. rewrite E. cbn [Nat.add Nat.leb].
    rewrite stabilityRounds_step by exact H2.
    cbn [sameText]. rewrite E. cbn [Nat.add Nat.leb].
    reflexivity.
  - rewrite stabilityRounds_step by exact H1.
    cbn [sameText]. rewrite String.eqb_refl. cbn [Nat.add Nat.leb].
    rewrite stabilityRounds_step by exact H2.
    cbn [sameText]. rewrite String.eqb_refl. cbn [Nat.add Nat.leb].
    rewrite stabilityRounds_step by exact H3.
    cbn [sameText]. rewrite String.eqb_refl. cbn [Nat.add Nat.leb].
    reflexivity.
Qed.








End Shown.

End SiteBehaviour.

(** ** Sample sites *)

Section SampleSites.

Import VisualDiff.
Import TextConfidence.
Import Monitor.
Import Regex.
Import Header.
Import Playwright.
Import Navigation.
Import Site.
Import Samples.
Import Sites.

Lemma steadySite_closed (header : option string) :
  closed Counters anyPage (steadySite header).
Proof.
  constructor; intros; intros p res p' _ E; (split; [exact I|]);
    destruct res; exact I.
Qed.

Lemma steadySite_counts (header : option string) :
  countsClicks Counters clicked (steadySite header).
Proof.
  constructor; intros; try intros p res p' E;
    match goal with
    | E : _ = (_, _) |- _ => cbn in E; injection E as <- <-
    | H : _ = (_, _) |- _ => cbn in H; injection H as <- <-
    end; reflexivity.
Qed.

Lemma steadySite_shows (header : string) :
  showsMonth Counters anyPage (steadySite (Some header)) header.
Proof.
  constructor; intros; intros p _; cbn;
    eexists _, _; (split; [reflexivity|]); (split; [exact I|]);
    first [exact I | reflexivity | lia].
Qed.

Lemma augustSite_hides_september :
  neverShows Counters anyPage augustSite "september".
Proof.
  intros selector timeout p res p' _ E. cbn in E. injection E as <- <-.
  split; [exact I|]. vm_compute. reflexivity.
Qed.

Lemma blankSite_shows_nothing : showsNothing Counters anyPage blankSite.
Proof.
  intros selector timeout p res p' _ E. cbn in E. injection E as <- <-.
  split; exact I.
Qed.

Lemma parse_month_year_header_witness :
  parseMonthHeader (Some "September 2025 Su Mo Tu We Th Fr Sa"%string)
  = {| month := Some "september"%string; year := Some 2025 |}.
Proof.
  apply (parse_month_year_header "September" " " " Su Mo Tu We Th Fr Sa"
           "2" "0" "2" "5");
    first [discriminate | reflexivity].
Defined.

Lemma direction_follows_timeline_witness :
  calculateNavigationDirection october2025 january2026 = Forward
  /\ calculateNavigationDirection january2026 october2025 = Backward.
Proof.
  split.
  - apply (direction_follows_timeline october2025 january2026
             (12 * 2025 + 9) (12 * 2026 + 0)); reflexivity.
  - apply (direction_follows_timeline january2026 october2025
             (12 * 2026 + 0) (12 * 2025 + 9)); reflexivity.
Defined.

Lemma unknown_header_goes_forward_witness :
  parseMonthHeader (Some "Loading..."%string) = unknown
  /\ calculateNavigationDirection unknown october2025 = Forward.
Proof.
  split; [vm_compute; reflexivity|].
  apply (unknown_header_goes_forward october2025 2025);
    first [reflexivity | lia].
Defined.

Lemma navigation_fails_on_hidden_month_witness :
  exists (e : Error) (p' : Counters),
    navigateToMonth Counters augustSite 2025 september start = (Throw e, p')
    /\ anyPage p'.
Proof.
  apply (navigation_fails_on_hidden_month Counters augustSite anyPage
           (steadySite_closed _) september "september" eq_refl
           augustSite_hides_september 2025%N start).
  exact I.
Defined.

(** On the sample site the twelve attempts each click the next button,
    and the final verification throws. *)
Example august_site_navigation :
  navigateToMonth Counters augustSite 2025 september start
  = (Throw "NAVIGATION FAILED: Target=september 2025, Header=august 2025, Text=not_found 2025"%string,
     mkCounters 12 85).
Proof. vm_compute. reflexivity. Qed.

Lemma stiffSite_closed (header : option string) :
  closed Counters anyPage (stiffSite header).
Proof.
  constructor; intros; intros p res p' _ E; (split; [exact I|]);
    destruct res; exact I.
Qed.

Lemma stiffSite_counts (header : option string) :
  countsClicks Counters clicked (stiffSite header).
Proof.
  constructor; intros; try intros p res p' E;
    match goal with
    | E : _ = (_, _) |- _ => cbn in E
    end;
    try match goal with
    | E : (if ?b then _ else _) = _ |- _ => destruct b
    end;
    match goal with
    | E : _ = (_, _) |- _ => injection E as <- <-
    end; reflexivity.
Qed.

Lemma stiffSite_clickable (header : option string) :
  clickable anyPage (stiffSite header) ".calendar-header .next".
Proof.
  split; intros p _; cbn; eexists _, _;
    (split; [reflexivity|]); split; first [exact I | reflexivity].
Qed.

(** On the sample site the click on the first button throws, and the
    second button is clicked. *)
(** The name of the month is what the final verification needs: on a
    page that shows September 2026 and the number 2025 elsewhere, the
    twelve attempts click the button for the month before, the header
    still reads 2026, and the text alone certifies September 2025. *)
Example other_year_is_certified :
  parseMonthHeader (Some "September 2026, booked until 2025"%string)
  = {| month := Some "september"%string; year := Some 2026 |}
  /\ navigateToMonth Counters nextYearSite 2025 september start
     = (Ok tt, mkCounters 12 85).
Proof. vm_compute. split; reflexivity. Qed.

(** A POST without a body is answered with the 500, and a null username
    with the 400 although the environment has one. *)
Example bodyless_post :
  Wire.handler unit launchOk loginOk captureTan closeNothing threeMonths
    "Cannot destructure property 'snowmassUsername' of 'req.body' as it is undefined."
    Wire.bodylessPost freshWorld
  = (Ok (RespError
           "Cannot destructure property 'snowmassUsername' of 'req.body' as it is undefined."),
     set_console
       [LogMonitorFailed
          "Cannot destructure property 'snowmassUsername' of 'req.body' as it is undefined."]
       freshWorld).
Proof. reflexivity. Qed.

Example null_username_post (e : Error) :
  Wire.handler unit launchOk loginOk captureTan closeNothing threeMonths e
    Wire.nullUsernamePost Wire.configuredWorld
  = (Ok RespMissingCredentials, Wire.configuredWorld).
Proof. reflexivity. Qed.

Lemma click_answers_what_happened_witness :
  exists (answer : bool) (p' : Counters),
    clickNavigationButton Counters (stiffSite None) Forward start
    = (Ok answer, p')
    /\ clicked p' = (clicked start + if answer then 1 else 0)%nat
    /\ answer = true.
Proof.
  destruct (click_answers_what_happened Counters (stiffSite None) anyPage
              (stiffSite_closed _) clicked (stiffSite_counts _) Forward start)
    as (answer & p' & E & Hc & Hf).
  exists answer, p'. split; [exact E|]. split; [exact Hc|].
  apply Hf; [exact I|].
  exists ".calendar-header .next"%string.
  split; [simpl; tauto|apply stiffSite_clickable].
Defined.

Example stiff_site_click :
  firstClick (stiffSite None) ".ui-datepicker-next" start
  = (Throw "locator.click: Timeout 30000ms exceeded."%string, start)
  /\ clickNavigationButton Counters (stiffSite None) Forward start
     = (Ok true, mkCounters 1 0).
Proof. vm_compute. split; reflexivity. Qed.

Lemma navigation_clicks_at_most_twelve_witness :
  (clicked start
   <= clicked (snd (navigateToMonth Counters augustSite 2025 september start))
   <= clicked start + 12)%nat.
Proof.
  apply (navigation_clicks_at_most_twelve Counters augustSite clicked
           (steadySite_counts _) 2025%N september start).
Defined.

Lemma navigation_cannot_detect_witness :
  exists p' : Counters,
    navigateToMonth Counters blankSite 2025 september start
    = (Throw cannotDetect, p')
    /\ anyPage p'.
Proof.
  apply (navigation_cannot_detect Counters blankSite anyPage
           blankSite_shows_nothing 2025%N september start).
  - intros p _. cbn. eexists _, _. repeat split.
  - exact I.
Defined.

(** Nothing is clicked on the blank site. *)
Example blank_site_navigation :
  navigateToMonth Counters blankSite 2025 september start
  = (Throw cannotDetect, mkCounters 0 16).
Proof. vm_compute. reflexivity. Qed.

Lemma stability_takes_four_polls_witness :
  waitForCalendarStability Counters septemberSite ".ui-datepicker-title" start
  = (Ok tt,
     Nat.iter 4 (poll septemberSite ".ui-datepicker-title") start)
  /\ readings (Nat.iter 4 (poll septemberSite ".ui-datepicker-title") start)
     = 4%nat.
Proof.
  split; [|reflexivity].
  apply (stability_takes_four_polls Counters septemberSite anyPage
           "September 2025" (steadySite_shows _) ".ui-datepicker-title" start).
  exact I.
Defined.

Lemma hidden_month_is_reported_witness :
  exists (e1 e2 e3 : Error) (p1 p2 p3 : Counters) (w' : World Counters),
    Navigation.captureMonth Counters augustSite 2025 september
      (page siteWorld) = (Throw e1, p1)
    /\ Navigation.captureMonth Counters augustSite 2025 september p1
       = (Throw e2, p2)
    /\ Navigation.captureMonth Counters augustSite 2025 september p2
       = (Throw e3, p3)
    /\ processMonth Counters (Navigation.captureMonth Counters augustSite 2025)
         [] september siteWorld
       = (Ok ([] ++ [errorResult september e3]), w')
    /\ page w' = p3
    /\ console w'
       = console siteWorld
         ++ [LogProcessing (m_name september);
             LogRetry 1 3 (m_name september) 1000;
             LogRetry 2 3 (m_name september) 2000;
             LogFinalAttemptFailed (m_name september) e3;
             LogErrorProcessing (m_name september) e3]
    /\ r_shouldNotify (errorResult september e3) = false
    /\ baselines w' = baselines siteWorld
    /\ notifications w' = notifications siteWorld
    /\ anyPage (page w').
Proof.
  apply (hidden_month_is_reported Counters augustSite anyPage
           (steadySite_closed _) september "september" eq_refl
           augustSite_hides_september 2025%N [] siteWorld).
  exact I.
Defined.


(** On the sample site that shows September the capture returns the
    screenshot without a click. *)
Example september_site_capture :
  Navigation.captureMonth Counters septemberSite 2025 september start
  = (Ok tanPixel, mkCounters 0 26).
Proof. vm_compute. reflexivity. Qed.

End SampleSites.

(** ** The calendar, and the months to check *)

Section DateFacts.

Import Monitor.
Import JsDate.

Local Open Scope Z_scope.

Lemma DayFromYear_step (y : Z) :
  DayFromYear (y + 1)
  = DayFromYear y + 365 + (if InLeapYear y then 1 else 0).
Proof.
  unfold DayFromYear, InLeapYear.
  destruct (Z.eqb_spec (y mod 4) 0), (Z.eqb_spec (y mod 100) 0),
    (Z.eqb_spec (y mod 400) 0); cbn [andb orb negb];
    Z.to_euclidean_division_equations; lia.
Qed.

Lemma DayFromYear_approx (y : Z) :
  146097 * (y - 1970) - 506 <= 400 * DayFromYear y
  <= 146097 * (y - 1970) + 589.
Proof.
  unfold DayFromYear. Z.to_euclidean_division_equations. lia.
Qed.

Lemma DayFromYear_mono (y y' : Z) :
  y <= y' -> DayFromYear y <= DayFromYear y'.
Proof.
  intros H. unfold DayFromYear. Z.to_euclidean_division_equations. lia.
Qed.

Lemma DayFromYear_lt (y y' : Z) :
  y < y' -> DayFromYear y < DayFromYear y'.
Proof.
  intros H. pose proof (DayFromYear_mono (y + 1) y' ltac:(lia)).
  pose proof (DayFromYear_step y). destruct (InLeapYear y); lia.
Qed.

(** [YearFromDay] is the year of the day: the only one that begins not
    after the day and ends after it. *)
Lemma YearFromDay_bounds (d : Z) :
  DayFromYear (YearFromDay d) <= d < DayFromYear (YearFromDay d + 1).
Proof.
  unfold YearFromDay.
  set (y := 1970 + 400 * d / 146097).
  assert (Hy : 146097 * (y - 1970) <= 400 * d < 146097 * (y - 1969)).
  { unfold y. Z.to_euclidean_division_equations. lia. }
  clearbody y.
  pose proof (DayFromYear_approx (y - 1)).
  pose proof (DayFromYear_approx (y + 1 + 1)).
  destruct (Z.leb_spec (DayFromYear (y + 1)) d).
  - lia.
  - destruct (Z.leb_spec (DayFromYear y) d); [lia|].
    replace (y - 1 + 1) with y by lia. lia.
Qed.

Lemma YearFromDay_unique (d y : Z) :
  DayFromYear y <= d < DayFromYear (y + 1) -> YearFromDay d = y.
Proof.
  intros H. pose proof (YearFromDay_bounds d) as B.
  destruct (Z.lt_trichotomy (YearFromDay d) y) as [L | [E | G]].
  - pose proof (DayFromYear_mono (YearFromDay d + 1) y ltac:(lia)). lia.
  - exact E.
  - pose proof (DayFromYear_mono (y + 1) (YearFromDay d) ltac:(lia)). lia.
Qed.

Lemma daysBeforeMonth_step (leap : bool) (m : Z) :
  0 <= m <= 11 ->
  28 <= daysBeforeMonth leap (m + 1) - daysBeforeMonth leap m <= 31.
Proof.
  intros H.
  assert (C : m = 0 \/ m = 1 \/ m = 2 \/ m = 3 \/ m = 4 \/ m = 5 \/ m = 6
              \/ m = 7 \/ m = 8 \/ m = 9 \/ m = 10 \/ m = 11) by lia.
  destruct leap;
    repeat (destruct C as [-> | C]; [cbv; split; discriminate|]);
    subst m; cbv; split; discriminate.
Qed.

Lemma daysBeforeMonth_year (leap : bool) :
  daysBeforeMonth leap 0 = 0
  /\ daysBeforeMonth leap 12 = 365 + (if leap then 1 else 0).
Proof. destruct leap; split; reflexivity. Qed.

Lemma daysBeforeMonth_mono (leap : bool) (m m' : Z) :
  0 <= m <= m' -> m' <= 12 ->
  daysBeforeMonth leap m <= daysBeforeMonth leap m'.
Proof.
  intros H H'. unfold daysBeforeMonth.
  repeat match goal with
         | |- context [Z.leb ?a ?b] => destruct (Z.leb_spec a b)
         | |- context [Z.eqb ?a ?b] => destruct (Z.eqb_spec a b)
         end; destruct leap; lia.
Qed.

(** [MonthFromDay] is the month of the day: the only one of its year
    that begins not after the day and ends after it. *)
Lemma MonthFromDay_bounds (d : Z) :
  let leap := InLeapYear (YearFromDay d) in
  0 <= MonthFromDay d <= 11
  /\ daysBeforeMonth leap (MonthFromDay d) <= DayWithinYear d
     < daysBeforeMonth leap (MonthFromDay d + 1).
Proof.
  intros leap.
  pose proof (YearFromDay_bounds d) as B.
  pose proof (DayFromYear_step (YearFromDay d)) as S.
  unfold MonthFromDay. fold leap.
  assert (R : 0 <= DayWithinYear d < 365 + (if leap then 1 else 0)).
  { unfold DayWithinYear, leap. lia. }
  generalize dependent (DayWithinYear d). intros w R.
  repeat match goal with
         | |- context [Z.ltb ?a ?b] => destruct (Z.ltb_spec a b)
         end; cbn in *; destruct leap; cbn in *;
    match goal with
    | |- context [daysBeforeMonth ?b (?a + 1)] =>
        let v := eval vm_compute in (daysBeforeMonth b (a + 1)) in
        change (daysBeforeMonth b (a + 1)) with v
    end; lia.
Qed.

Lemma MonthFromDay_unique (d y m : Z) :
  0 <= m <= 11 ->
  DayFromYear y + daysBeforeMonth (InLeapYear y) m <= d
  < DayFromYear y + daysBeforeMonth (InLeapYear y) (m + 1) ->
  YearFromDay d = y /\ MonthFromDay d = m.
Proof.
  intros Hm H.
  pose proof (daysBeforeMonth_mono (InLeapYear y) 0 m ltac:(lia) ltac:(lia)).
  pose proof (daysBeforeMonth_mono (InLeapYear y) (m + 1) 12
                ltac:(lia) ltac:(lia)).
  destruct (daysBeforeMonth_year (InLeapYear y)) as [Z0 Z12].
  pose proof (DayFromYear_step y) as S.
  assert (Y : YearFromDay d = y) by (apply YearFromDay_unique; lia).
  split; [exact Y|].
  destruct (MonthFromDay_bounds d) as [R B]. rewrite Y in B.
  unfold DayWithinYear in B. rewrite Y in B.
  destruct (Z.lt_trichotomy (MonthFromDay d) m) as [L | [E | G]].
  - pose proof (daysBeforeMonth_mono (InLeapYear y) (MonthFromDay d + 1) m
                  ltac:(lia) ltac:(lia)). lia.
  - exact E.
  - pose proof (daysBeforeMonth_mono (InLeapYear y) (m + 1) (MonthFromDay d)
                  ltac:(lia) ltac:(lia)). lia.
Qed.

(** *** Months by their number *)

Lemma month_number (n : Z) :
  0 <= n mod 12 <= 11
  /\ ((n + 1) / 12 = n / 12 /\ (n + 1) mod 12 = n mod 12 + 1
      \/ (n + 1) / 12 = n / 12 + 1 /\ (n + 1) mod 12 = 0 /\ n mod 12 = 11).
Proof. Z.to_euclidean_division_equations. lia. Qed.

Lemma startOf_next (tz n : Z) :
  startOf tz (n + 1)
  = (DayFromYear (n / 12)
     + daysBeforeMonth (InLeapYear (n / 12)) (n mod 12 + 1)) * msPerDay - tz.
Proof.
  unfold startOf.
  destruct (month_number n) as [_ [[-> ->] | (-> & -> & ->)]]; [reflexivity|].
  rewrite DayFromYear_step.
  destruct (daysBeforeMonth_year (InLeapYear (n / 12 + 1))) as [-> _].
  destruct (daysBeforeMonth_year (InLeapYear (n / 12))) as [_ E].
  change (11 + 1) with 12. rewrite E. f_equal. f_equal. lia.
Qed.

Lemma startOf_step (tz n : Z) :
  28 * msPerDay <= startOf tz (n + 1) - startOf tz n <= 31 * msPerDay.
Proof.
  rewrite startOf_next. unfold startOf.
  destruct (month_number n) as [R _].
  pose proof (daysBeforeMonth_step (InLeapYear (n / 12)) (n mod 12) R).
  unfold msPerDay. lia.
Qed.

Lemma startOf_add (tz n : Z) (k : nat) :
  28 * msPerDay * Z.of_nat k
  <= startOf tz (n + Z.of_nat k) - startOf tz n
  <= 31 * msPerDay * Z.of_nat k.
Proof.
  induction k as [|k IH].
  - replace (n + Z.of_nat 0) with n by lia. lia.
  - replace (n + Z.of_nat (S k)) with (n + Z.of_nat k + 1) by lia.
    pose proof (startOf_step tz (n + Z.of_nat k)). lia.
Qed.

Lemma startOf_mono (tz n n' : Z) :
  n <= n' -> startOf tz n <= startOf tz n'.
Proof.
  intros H. pose proof (startOf_add tz n (Z.to_nat (n' - n))) as A.
  replace (n + Z.of_nat (Z.to_nat (n' - n))) with n' in A by lia.
  unfold msPerDay in A. lia.
Qed.

Lemma day_bounds (tz t a b : Z) :
  a * msPerDay - tz <= t < b * msPerDay - tz -> a <= Day (t + tz) < b.
Proof.
  unfold Day, msPerDay. intros H. Z.to_euclidean_division_equations. lia.
Qed.

Lemma bounds_day (tz t a b : Z) :
  a <= Day (t + tz) < b -> a * msPerDay - tz <= t < b * msPerDay - tz.
Proof.
  unfold Day, msPerDay. intros H. Z.to_euclidean_division_equations. lia.
Qed.

(** An instant between the start of a month and the start of the next is
    of that month, and every instant is of one month. *)
Lemma month_unique (tz n t : Z) :
  startOf tz n <= t < startOf tz (n + 1) ->
  getFullYear tz t = n / 12 /\ getMonth tz t = n mod 12.
Proof.
  rewrite startOf_next. unfold startOf. intros H.
  apply day_bounds in H. destruct (month_number n) as [R _].
  unfold getFullYear, getMonth. apply MonthFromDay_unique; assumption.
Qed.

Lemma monthOf_unique (tz n t : Z) :
  startOf tz n <= t < startOf tz (n + 1) -> monthOf tz t = n.
Proof.
  intros H. destruct (month_unique tz n t H) as [Y M].
  unfold monthOf. rewrite Y, M. Z.to_euclidean_division_equations. lia.
Qed.

Lemma monthOf_parts (tz t : Z) :
  0 <= getMonth tz t <= 11
  /\ monthOf tz t / 12 = getFullYear tz t
  /\ monthOf tz t mod 12 = getMonth tz t.
Proof.
  destruct (MonthFromDay_bounds (Day (t + tz))) as [R _].
  unfold monthOf. fold (getMonth tz t) in R.
  split; [exact R|]. Z.to_euclidean_division_equations. lia.
Qed.

Lemma monthOf_bounds (tz t : Z) :
  startOf tz (monthOf tz t) <= t < startOf tz (monthOf tz t + 1).
Proof.
  rewrite startOf_next. unfold startOf.
  destruct (monthOf_parts tz t) as (R & -> & ->).
  apply bounds_day.
  destruct (MonthFromDay_bounds (Day (t + tz))) as [_ B].
  unfold DayWithinYear in B. unfold getFullYear, getMonth. lia.
Qed.

Lemma startOf_day (tz n : Z) :
  Day (startOf tz n + tz)
  = DayFromYear (n / 12) + daysBeforeMonth (InLeapYear (n / 12)) (n mod 12)
  /\ TimeWithinDay (startOf tz n + tz) = 0.
Proof.
  unfold startOf, Day, TimeWithinDay, msPerDay.
  set (d := DayFromYear (n / 12) + _). clearbody d.
  Z.to_euclidean_division_equations. lia.
Qed.

Lemma startOf_month (tz n : Z) :
  getFullYear tz (startOf tz n) = n / 12
  /\ getMonth tz (startOf tz n) = n mod 12.
Proof.
  apply month_unique. pose proof (startOf_step tz n). unfold msPerDay in *.
  lia.
Qed.

Lemma getDate_first (tz t y m : Z) :
  getFullYear tz t = y -> getMonth tz t = m ->
  Day (t + tz) = DayFromYear y + daysBeforeMonth (InLeapYear y) m ->
  getDate tz t = 1.
Proof.
  unfold getFullYear, getMonth, getDate, DateFromDay, DayWithinYear.
  intros -> -> ->. lia.
Qed.

Lemma startOf_date (tz n : Z) : getDate tz (startOf tz n) = 1.
Proof.
  destruct (startOf_month tz n) as [Y M]. destruct (startOf_day tz n) as [D _].
  exact (getDate_first tz (startOf tz n) (n / 12) (n mod 12) Y M D).
Qed.

(** [setMonth(getMonth() + 1)] on the first instant of a month gives the
    first instant of the next. *)
Lemma setMonth_startOf (tz n : Z) :
  setMonth tz (startOf tz n) (getMonth tz (startOf tz n) + 1)
  = startOf tz (n + 1).
Proof.
  unfold setMonth. rewrite startOf_date.
  destruct (startOf_month tz n) as [-> ->].
  destruct (startOf_day tz n) as [_ ->].
  unfold MakeDay, startOf.
  replace (n / 12 + (n mod 12 + 1) / 12) with ((n + 1) / 12)
    by (Z.to_euclidean_division_equations; lia).
  replace ((n mod 12 + 1) mod 12) with ((n + 1) mod 12)
    by (Z.to_euclidean_division_equations; lia).
  lia.
Qed.

Lemma year_from_1970 (tz t : Z) : 0 <= t + tz -> 1970 <= getFullYear tz t.
Proof.
  intros H. unfold getFullYear.
  assert (D : 0 <= Day (t + tz)).
  { unfold Day, msPerDay. Z.to_euclidean_division_equations. lia. }
  destruct (YearFromDay_bounds (Day (t + tz))) as [_ B].
  destruct (Z.le_gt_cases 1970 (YearFromDay (Day (t + tz)))) as [L | G];
    [exact L|].
  pose proof (DayFromYear_mono (YearFromDay (Day (t + tz)) + 1) 1970
                ltac:(lia)) as M.
  change (DayFromYear 1970) with 0 in M. lia.
Qed.

Lemma newDate_startOf (tz now : Z) :
  0 <= now + tz ->
  newDate tz (getFullYear tz now) (getMonth tz now) 1
  = startOf tz (monthOf tz now).
Proof.
  intros H. pose proof (year_from_1970 tz now H) as Y.
  destruct (monthOf_parts tz now) as (R & Ey & Em).
  unfold newDate, startOf. rewrite Ey, Em.
  destruct (Z.leb_spec (getFullYear tz now) 99); [lia|].
  rewrite andb_false_r. unfold MakeDay.
  replace (getMonth tz now / 12) with 0
    by (Z.to_euclidean_division_equations; lia).
  replace (getMonth tz now mod 12) with (getMonth tz now)
    by (Z.to_euclidean_division_equations; lia).
  replace (getFullYear tz now + 0) with (getFullYear tz now) by lia.
  lia.
Qed.

(** *** The loop *)

Lemma monthsUntil_startOf (fuel : nat) (tz n lim : Z) :
  monthsUntil (S fuel) tz (startOf tz n) lim
  = if startOf tz n <=? lim
    then monthDataOf tz (startOf tz n)
         :: monthsUntil fuel tz (startOf tz (n + 1)) lim
    else [].
Proof. cbn [monthsUntil]. rewrite setMonth_startOf. reflexivity. Qed.

Lemma monthsUntil_after (fuel : nat) (tz c lim : Z) :
  lim < c -> monthsUntil fuel tz c lim = [].
Proof.
  intros H. destruct fuel; [reflexivity|]. cbn [monthsUntil].
  destruct (Z.leb_spec c lim); [lia|reflexivity].
Qed.

Lemma monthsUntil_exact (k : nat) :
  forall (fuel : nat) (tz n lim : Z),
    (k < fuel)%nat ->
    startOf tz (n + Z.of_nat k) <= lim < startOf tz (n + Z.of_nat k + 1) ->
    monthsUntil fuel tz (startOf tz n) lim = monthsFrom tz n (S k).
Proof.
  induction k as [|k IH]; intros fuel tz n lim Hf H;
    (destruct fuel as [|fuel]; [lia|]); rewrite monthsUntil_startOf.
  - replace (n + Z.of_nat 0) with n in H by lia.
    destruct (Z.leb_spec (startOf tz n) lim); [|lia].
    rewrite monthsUntil_after by lia. reflexivity.
  - pose proof (startOf_mono tz n (n + Z.of_nat (S k)) ltac:(lia)).
    destruct (Z.leb_spec (startOf tz n) lim); [|lia].
    cbn [monthsFrom]. f_equal. apply IH; [lia|].
    replace (n + 1 + Z.of_nat k) with (n + Z.of_nat (S k)) by lia. exact H.
Qed.

Lemma monthsFrom_length (tz n : Z) (k : nat) :
  length (monthsFrom tz n k) = k.
Proof.
  revert n. induction k as [|k IH]; intros n; [reflexivity|].
  cbn [monthsFrom length]. now rewrite IH.
Qed.

Lemma monthsFrom_nth (tz : Z) (k : nat) :
  forall (n : Z) (i : nat) (m : MonthData),
    nth_error (monthsFrom tz n k) i = Some m ->
    m = monthDataOf tz (startOf tz (n + Z.of_nat i)).
Proof.
  induction k as [|k IH]; intros n i m H.
  - destruct i; discriminate.
  - destruct i as [|i]; cbn in H.
    + injection H as <-. f_equal. f_equal. lia.
    + apply IH in H. rewrite H. f_equal. f_equal. lia.
Qed.

Lemma monthsFrom_last (tz : Z) (k : nat) (n : Z) :
  last (monthsFrom tz n (S k))
  = Some (monthDataOf tz (startOf tz (n + Z.of_nat k))).
Proof.
  revert n. induction k as [|k IH]; intros n.
  - cbn. f_equal. f_equal. f_equal. lia.
  - change (monthsFrom tz n (S (S k)))
      with (monthDataOf tz (startOf tz n) :: monthsFrom tz (n + 1) (S k)).
    change (last (?x :: monthsFrom tz (n + 1) (S k)))
      with (last (monthsFrom tz (n + 1) (S k))).
    rewrite IH. f_equal. f_equal. f_equal. lia.
Qed.

Lemma monthDataOf_startOf (tz n : Z) :
  m_year (monthDataOf tz (startOf tz n)) = n / 12
  /\ m_month (monthDataOf tz (startOf tz n)) = n mod 12 + 1.
Proof.
  destruct (startOf_month tz n) as [Y M]. cbn [monthDataOf m_year m_month].
  rewrite Y, M. split; reflexivity.
Qed.

Lemma monthNumber_of (m : MonthData) (n : Z) :
  m_year m = n / 12 -> m_month m = n mod 12 + 1 ->
  1 <= m_month m <= 12 /\ monthNumber m = n.
Proof.
  unfold monthNumber. intros -> ->. Z.to_euclidean_division_equations. lia.
Qed.

Lemma monthOf_eq (tz t : Z) :
  monthOf tz t = 12 * getFullYear tz t + getMonth tz t.
Proof. reflexivity. Qed.

Lemma getMonthsToCheck_eq (now tz : Z) :
  getMonthsToCheck now tz = getMonthsToCheckIn 12 now tz.
Proof. reflexivity. Qed.

(** The months to check are those from the month of [now] to the month
    of the instant ninety days later, which is two, three or four months
    after. *)
Lemma getMonthsToCheckIn_months (fuel : nat) (now tz : Z) :
  0 <= now + tz -> (5 <= fuel)%nat ->
  exists k : nat,
    (2 <= k <= 4)%nat
    /\ monthOf tz (now + 90 * msPerDay) = monthOf tz now + Z.of_nat k
    /\ getMonthsToCheckIn fuel now tz
       = monthsFrom tz (monthOf tz now) (S k).
Proof.
  intros H Hf.
  set (lim := now + 90 * msPerDay).
  pose proof (monthOf_bounds tz now) as B0.
  pose proof (monthOf_bounds tz lim) as B1.
  set (n0 := monthOf tz now) in *. set (n1 := monthOf tz lim) in *.
  pose proof (startOf_add tz n0 2) as A2.
  pose proof (startOf_add tz (n0 + 1) 4) as A5.
  change (Z.of_nat 2) with 2 in A2. change (Z.of_nat 4) with 4 in A5.
  assert (L : n0 + 2 <= n1).
  { destruct (Z.le_gt_cases (n0 + 2) n1) as [L | G]; [exact L|].
    pose proof (startOf_mono tz (n1 + 1) (n0 + 2) ltac:(lia)).
    unfold lim, msPerDay in *. lia. }
  assert (U : n1 <= n0 + 4).
  { destruct (Z.le_gt_cases n1 (n0 + 4)) as [U | G]; [exact U|].
    pose proof (startOf_mono tz (n0 + 1 + 4) n1 ltac:(lia)).
    unfold lim, msPerDay in *. lia. }
  exists (Z.to_nat (n1 - n0)). split; [lia|]. split; [lia|].
  unfold getMonthsToCheckIn. rewrite newDate_startOf by exact H.
  apply monthsUntil_exact; [lia|].
  fold n0. replace (n0 + Z.of_nat (Z.to_nat (n1 - n0))) with n1 by lia.
  exact B1.
Qed.

End DateFacts.

(** ** Properties of the months to check *)

Section DateProperties.

Import Monitor.
Import JsDate.
Import Samples.

Local Open Scope Z_scope.

(** X28. At any time from 1970 on, [getMonthsToCheck] returns at least
    three and at most five periods, and its loop ends by its own test:
    allowing it more rounds (five or more) gives the same list. *)
Theorem months_to_check_three_to_five (now tz : Z) :
  0 <= now + tz ->
  (3 <= length (getMonthsToCheck now tz) <= 5)%nat
  /\ forall fuel : nat,
       (5 <= fuel)%nat ->
       getMonthsToCheckIn fuel now tz = getMonthsToCheck now tz.
Proof.
  intros H.
  destruct (getMonthsToCheckIn_months 12 now tz H ltac:(lia))
    as (k & Hk & _ & E).
  rewrite getMonthsToCheck_eq, E. split.
  - rewrite monthsFrom_length. lia.
  - intros fuel Hf.
    destruct (getMonthsToCheckIn_months fuel now tz H Hf) as (k' & _ & N' & E').
    destruct (getMonthsToCheckIn_months 12 now tz H ltac:(lia))
      as (k'' & _ & N'' & E'').
    rewrite E', <- E, E''. f_equal. lia.
Qed.

Lemma months_to_check_three_to_five_witness :
  (3 <= length (getMonthsToCheck morning 0) <= 5)%nat
  /\ forall fuel : nat,
       (5 <= fuel)%nat ->
       getMonthsToCheckIn fuel morning 0 = getMonthsToCheck morning 0.
Proof.
  apply (months_to_check_three_to_five morning 0). unfold morning. lia.
Defined.

(** X29. The periods are the month of [now] and the months after it, one
    by one: the period at position [k] has a month from 1 to 12, and its
    month counted from the year 0 is that of [now] plus [k]. *)
Theorem months_to_check_consecutive (now tz : Z) (k : nat) (m : MonthData) :
  0 <= now + tz ->
  nth_error (getMonthsToCheck now tz) k = Some m ->
  1 <= m_month m <= 12
  /\ monthNumber m
     = 12 * getFullYear tz now + getMonth tz now + Z.of_nat k.
Proof.
  intros H Hm.
  destruct (getMonthsToCheckIn_months 12 now tz H ltac:(lia))
    as (j & _ & _ & E).
  rewrite getMonthsToCheck_eq, E in Hm.
  apply monthsFrom_nth in Hm. rewrite Hm, <- monthOf_eq.
  destruct (monthDataOf_startOf tz (monthOf tz now + Z.of_nat k)) as [Y M].
  exact (monthNumber_of _ _ Y M).
Qed.

Lemma months_to_check_consecutive_witness :
  1 <= m_month may2025 <= 12
  /\ monthNumber may2025
     = 12 * getFullYear 0 lateJanuary + getMonth 0 lateJanuary + Z.of_nat 4.
Proof.
  apply (months_to_check_consecutive lateJanuary 0 4 may2025).
  - unfold lateJanuary. lia.
  - vm_compute. reflexivity.
Defined.

(** X30. The last period is the month of the instant ninety days after
    [now]: no month that begins within the ninety days is left out, and
    no month beyond them is checked. *)
Theorem months_to_check_reach_ninety_days (now tz : Z) :
  0 <= now + tz ->
  exists m : MonthData,
    last (getMonthsToCheck now tz) = Some m
    /\ m_year m = getFullYear tz (now + 90 * msPerDay)
    /\ m_month m = getMonth tz (now + 90 * msPerDay) + 1.
Proof.
  intros H.
  destruct (getMonthsToCheckIn_months 12 now tz H ltac:(lia))
    as (k & _ & N & E).
  rewrite getMonthsToCheck_eq, E, monthsFrom_last.
  eexists. split; [reflexivity|].
  destruct (monthDataOf_startOf tz (monthOf tz now + Z.of_nat k)) as [Y M].
  destruct (monthOf_parts tz (now + 90 * msPerDay)) as (_ & Y' & M').
  rewrite Y, M, <- N, Y', M'. split; reflexivity.
Qed.

Lemma months_to_check_reach_ninety_days_witness :
  exists m : MonthData,
    last (getMonthsToCheck morning mountainTime) = Some m
    /\ m_year m = getFullYear mountainTime (morning + 90 * msPerDay)
    /\ m_month m = getMonth mountainTime (morning + 90 * msPerDay) + 1.
Proof.
  apply (months_to_check_reach_ninety_days morning mountainTime).
  unfold morning, mountainTime. lia.
Defined.

(** The sample list of the runs above is what the program computes on
    that morning; five periods are reached at the end of a January. *)
Example morning_months : getMonthsToCheck morning 0 = threeMonths morning 0.
Proof. vm_compute. reflexivity. Qed.

Example late_january_months :
  List.map m_key (getMonthsToCheck lateJanuary 0)
  = [ "2025-01"; "2025-02"; "2025-03"; "2025-04"; "2025-05" ]%string.
Proof. vm_compute. reflexivity. Qed.

End DateProperties.
